(** * Downstream pour points: a model of DownstreamPoints_v03.py

    The script walks a Strahler-ordered stream network downstream from each
    input site until the order increases, and writes one point per site.
    All of its work goes through arcpy: named in-memory layers that carry a
    current selection, cursors over the selected rows, geoprocessing
    messages, and an insert cursor on the output feature class.

    The model keeps that shape.  A [World] holds what the script can touch:
    the layer namespace (a finite map from layer names to layers), the output
    feature class, the message log and the state of [random].  Every function
    of the script is a computation in a small state-and-exception monad over
    the world.  The [while] loop of the tracer has no bound in the source; the
    model runs it on fuel and returns [OutOfFuel] when the fuel is spent.

    A stream layer carries the field names of its table.  The field check of
    the script asks for four of them; the loop reads a fifth, Shape_Length,
    that the check does not ask for, and the cursor at the end reads the
    geometry.  A length and a geometry can be NULL.  So the model has the
    [KeyError] of a subscript on a missing field, the [TypeError] of adding
    [None] and the [AttributeError] of [None.firstPoint]. *)

From Stdlib Require Import ZArith List Bool Ascii String Lia.
From stdpp Require Import gmap strings list fin_maps.

Set Default Proof Using "Type".

(** ** Numbers and geometry *)

(** Lengths and coordinates are Python floats.  The script only adds lengths
    and copies coordinates, so the model takes the carrier and its addition
    as an interface and assumes no law about them.  [Fzero] is the integer
    [0] that [downstream_length] starts from. *)
Class Float := {
  F : Type;
  Fadd : F -> F -> F;
  Fzero : F
}.

Section Model.
Context {FL : Float}.

Record Point := { X : F; Y : F }.

(** A polyline as far as the script reads it: [firstPoint] (and, for
    contrast, [lastPoint]). *)
Record Polyline := { firstPoint : Point; lastPoint : Point }.

(** A row of the stream feature class.  The object id, the Strahler order
    and the two node ids are taken to be integers: a NULL in one of them is
    outside the model.  The length and the geometry can be NULL, which a
    cursor hands to Python as [None]. *)
Record Segment := {
  OBJECTID : Z;
  StrahlerOr : Z;
  FROM_NODE : Z;
  TO_NODE : Z;
  Shape_Length : option F;
  SHAPE : option Polyline
}.

(** A row of the sites feature class: object id, the text field "Sites" and
    the point. *)
Record Site := {
  site_OBJECTID : Z;
  site_Sites : string;
  site_SHAPE : Point
}.

Inductive Shape :=
| ShPoint (p : Point)
| ShLine (l : Polyline).

(** [geometry.firstPoint]: a point geometry is its own first point. *)
Definition shape_firstPoint (g : Shape) : Point :=
  match g with
  | ShPoint p => p
  | ShLine l => firstPoint l
  end.

(** The stream feature class given to the tool: its field names
    ([arcpy.ListFields]) and its rows.  A row carries a value for every
    column of [Segment]; the value of a column whose name is not among the
    field names cannot be read, neither by a dictionary subscript nor by a
    where clause. *)
Record StreamFC := {
  fc_fields : list string;
  fc_rows : list Segment
}.

(** ** Layers *)

(** A layer is a view on a table with a current selection; cursors and
    [GetCount] see the selected rows only.  A fresh layer selects all its
    rows.  A stream layer has the field names of its table. *)
Inductive Layer :=
| StreamLayer (fields : list string) (all sel : list Segment)
| SiteLayer (all sel : list Site).

(** The geometry of a stream row as a cursor on SHAPE@ gives it: [None] for
    a NULL geometry. *)
Definition segment_shape (s : Segment) : option Shape :=
  option_map ShLine (SHAPE s).

Definition selected_shapes (l : Layer) : list (option Shape) :=
  match l with
  | StreamLayer _ _ sel => map segment_shape sel
  | SiteLayer _ sel => map (fun p => Some (ShPoint (site_SHAPE p))) sel
  end.

Definition selected_count (l : Layer) : nat :=
  match l with
  | StreamLayer _ _ sel => length sel
  | SiteLayer _ sel => length sel
  end.

(** The layer made from the selected rows of another layer. *)
Definition layer_of_selection (l : Layer) : Layer :=
  match l with
  | StreamLayer fields _ sel => StreamLayer fields sel sel
  | SiteLayer _ sel => SiteLayer sel sel
  end.

(** ** Python values that cross function boundaries *)

(** What [FindDownstreamPoint] returns: the tuple [(x_coord, y_coord)] or
    [False]. *)
Inductive PyVal :=
| PyXY (x y : F)
| PyFalse.

(** What [Main] returns: [output] or [False]. *)
Inductive MainRet :=
| RetOutput
| RetFalse.

(** The attribute dictionary built by [DictionaryOfLayerFeatures]: every row
    of the cursor overwrites every key, so the dictionary is empty or holds
    the fields of one row.  Its keys are the field names of the layer. *)
Inductive Dict :=
| DictEmpty
| DictSegment (fields : list string) (s : Segment)
| DictSite (p : Site).

Inductive PyExn :=
| KeyError (key : string)
| IndexError
| UnboundLocalError
| TypeError
| AttributeError
| ExecuteError
| RuntimeError.

(** ** Geoprocessing messages

    One constructor per [arcpy.AddMessage] / [arcpy.AddError] call of the
    script, with the values the call formats into its text. *)
Inductive Msg :=
| MsgPreparingData
| MsgOutputDirectory
| MsgOutputFile
| MsgValidating
| MsgFieldsCompatible
| ErrFieldsNotCompatible
| MsgStreamCount (n : nat)
| MsgPreparingResults
| MsgSiteIdList
| MsgSiteId (s : Z)
| MsgSelectingSite
| MsgSelectionQuery (s : Z)
| MsgSiteSelected (point_name : string)
| ErrSiteLayerFailed (point_name : string)
| MsgFindingNearest
| MsgStreamSelected (matchcount : nat)
| ErrNoClosestStream
| MsgInitialOrder (o : Z)
| MsgSwimming
| MsgKeepSwimming
| MsgFinalReached
| MsgBacktracking
| MsgStrahlerOrder (o : Z)
| MsgTotalDistance (d : F)
| ErrOrderLess
| MsgGettingCoords
| MsgXY (x y : F)
| MsgWriting
| MsgSiteComplete
| MsgDone.

(** ** The world *)

(** A row of the output feature class as handed to the insert cursor:
    [[xy, point_name]]. *)
Definition Row : Type := PyVal * string.

Record World := {
  layers : gmap string Layer;      (* arcpy's namespace of layers *)
  out_fc : option (list Row);      (* the output feature class, once created *)
  messages : list Msg;             (* the message log *)
  rng : nat -> nat;                (* the draws [random] will make *)
  rng_pos : nat                    (* how many it has made *)
}.

Definition set_layers (f : gmap string Layer -> gmap string Layer) (w : World) : World :=
  {| layers := f (layers w); out_fc := out_fc w; messages := messages w;
     rng := rng w; rng_pos := rng_pos w |}.

Definition set_out_fc (o : option (list Row)) (w : World) : World :=
  {| layers := layers w; out_fc := o; messages := messages w;
     rng := rng w; rng_pos := rng_pos w |}.

Definition log (m : Msg) (w : World) : World :=
  {| layers := layers w; out_fc := out_fc w; messages := messages w ++ [m];
     rng := rng w; rng_pos := rng_pos w |}.

Definition advance_rng (w : World) : World :=
  {| layers := layers w; out_fc := out_fc w; messages := messages w;
     rng := rng w; rng_pos := S (rng_pos w) |}.

(** ** The monad *)

Inductive Res (A : Type) :=
| Ok (a : A)
| Raise (e : PyExn)
| OutOfFuel.
#[global] Arguments Ok {A} a.
#[global] Arguments Raise {A} e.
#[global] Arguments OutOfFuel {A}.

Definition M (A : Type) : Type := World -> Res A * World.

Definition ret {A} (a : A) : M A := fun w => (Ok a, w).

Definition bind {A B} (m : M A) (k : A -> M B) : M B :=
  fun w =>
    match m w with
    | (Ok a, w') => k a w'
    | (Raise e, w') => (Raise e, w')
    | (OutOfFuel, w') => (OutOfFuel, w')
    end.

Definition raise {A} (e : PyExn) : M A := fun w => (Raise e, w).

Definition out_of_fuel {A} : M A := fun w => (OutOfFuel, w).

End Model.

Declare Scope arc_scope.
Delimit Scope arc_scope with arc.
Notation "x <- y ;; z" := (bind y (fun x => z))
  (at level 20, y at level 99, z at level 200, only parsing) : arc_scope.
Notation "y ;; z" := (bind y (fun _ => z))
  (at level 100, z at level 200, right associativity, only parsing) : arc_scope.
Local Open Scope arc_scope.

(** The spatial test behind [SelectLayerByLocation] with overlap type
    INTERSECT and a search distance: [intersects target selecting distance].
    It belongs to the geodatabase, not to the script, so it is an interface.
    [Tol] is the type of the tolerance parameter. *)
Class Spatial `{Float} := {
  Tol : Type;
  intersects : Shape -> Shape -> Tol -> bool
}.

Section Script.
Context {FL : Float} {SP : Spatial}.

(** ** arcpy, as far as the script uses it *)

Definition AddMessage (m : Msg) : M unit := fun w => (Ok tt, log m w).

(** [AddError] adds a message of error severity; it does not raise. *)
Definition AddError (m : Msg) : M unit := fun w => (Ok tt, log m w).

(** A tool given the name of a layer that does not exist fails. *)
Definition get_layer (name : string) : M Layer :=
  fun w =>
    match layers w !! name with
    | Some l => (Ok l, w)
    | None => (Raise ExecuteError, w)
    end.

(** With [arcpy.env.overwriteOutput = True] a layer made under a name in use
    replaces the one that had it. *)
Definition put_layer (name : string) (l : Layer) : M unit :=
  fun w => (Ok tt, set_layers (insert name l) w).

(** Does the geometry come within the distance of one of the selecting
    geometries?  A NULL geometry is near nothing. *)
Definition near_any (g : option Shape) (selecting : list (option Shape))
    (distance : Tol) : bool :=
  match g with
  | Some g =>
      existsb
        (fun s =>
           match s with
           | Some s => intersects g s distance
           | None => false
           end)
        selecting
  | None => false
  end.

(** [SelectLayerByLocation_management(in_layer, "INTERSECT", select_features,
    search_distance, "NEW_SELECTION")]: the new selection is made of the rows
    of [in_layer] that come within the distance of a selected row of
    [select_features]. *)
Definition SelectLayerByLocation_management
    (in_layer select_features : string) (search_distance : Tol) : M unit :=
  t <- get_layer in_layer ;;
  s <- get_layer select_features ;;
  let sh := selected_shapes s in
  put_layer in_layer
    (match t with
    | StreamLayer fields all _ =>
        StreamLayer fields all
          (List.filter (fun x => near_any (segment_shape x) sh search_distance) all)
    | SiteLayer all _ =>
        SiteLayer all
          (List.filter
             (fun p => near_any (Some (ShPoint (site_SHAPE p))) sh search_distance)
             all)
    end).

Definition GetCount_management (lyr : string) : M nat :=
  l <- get_layer lyr ;;
  ret (selected_count l).

(** [MakeFeatureLayer_management(in_layer, out_layer)] on a layer: the new
    layer holds the selected rows. *)
Definition MakeFeatureLayer_management (in_layer out_layer : string) : M unit :=
  l <- get_layer in_layer ;;
  put_layer out_layer (layer_of_selection l).

(** Is [name] one of the field names? *)
Definition has_field (name : string) (fields : list string) : bool :=
  existsb (String.eqb name) fields.

(** The two fields the script puts in a where clause "field = value". *)
Inductive Field :=
| fFROM_NODE
| fOBJECTID.

(** [SelectLayerByAttribute_management(lyr, "NEW_SELECTION", sql)].  A clause
    on a field the layer does not have is rejected; a site layer has no
    FROM_NODE field. *)
Definition SelectLayerByAttribute_management
    (lyr : string) (fld : Field) (value : Z) : M unit :=
  l <- get_layer lyr ;;
  match l, fld with
  | StreamLayer fields all _, fFROM_NODE =>
      if has_field "FROM_NODE" fields then
        put_layer lyr
          (StreamLayer fields all (List.filter (fun x => (FROM_NODE x =? value)%Z) all))
      else raise ExecuteError
  | StreamLayer fields all _, fOBJECTID =>
      if has_field "OBJECTID" fields then
        put_layer lyr
          (StreamLayer fields all (List.filter (fun x => (OBJECTID x =? value)%Z) all))
      else raise ExecuteError
  | SiteLayer all _, fOBJECTID =>
      put_layer lyr (SiteLayer all (List.filter (fun p => (site_OBJECTID p =? value)%Z) all))
  | SiteLayer _ _, fFROM_NODE => raise ExecuteError
  end.

(** [arcpy.da.SearchCursor(lyr, ['SHAPE@'])]: the geometries of the selected
    rows, in table order, [None] where the geometry is NULL. *)
Definition SearchCursor_SHAPE (lyr : string) : M (list (option Shape)) :=
  l <- get_layer lyr ;;
  ret (selected_shapes l).

(** [arcpy.da.SearchCursor(lyr, ["Sites"])]: the labels of the selected rows;
    a stream layer has no such field. *)
Definition SearchCursor_Sites (lyr : string) : M (list string) :=
  l <- get_layer lyr ;;
  match l with
  | SiteLayer _ sel => ret (map site_Sites sel)
  | StreamLayer _ _ _ => raise RuntimeError
  end.

Definition Delete_management (name : string) : M unit :=
  fun w => (Ok tt, set_layers (delete name) w).

(** [CreateFeatureclass_management] followed by [AddField_management]: the
    output is created empty, replacing whatever was there. *)
Definition CreateFeatureclass_management : M unit :=
  fun w => (Ok tt, set_out_fc (Some []) w).

(** [cursor.insertRow([xy, point_name])] on the output feature class.  The
    model records the row as it is handed over; what the geodatabase makes of
    a row whose shape is [False] is outside the script. *)
Definition insertRow (xy : PyVal) (point_name : string) : M unit :=
  fun w =>
    match out_fc w with
    | Some rows => (Ok tt, set_out_fc (Some (rows ++ [(xy, point_name)])) w)
    | None => (Raise RuntimeError, w)
    end.

(** ** random *)

Definition alphabet : list ascii :=
  list_ascii_of_string "ABCDEFGHIJKLMNOPQRSTUVWXYZ0123456789".

(** [random.choice(string.ascii_uppercase + string.digits)]: the next draw
    picks the index. *)
Definition random_choice : M ascii :=
  fun w =>
    (Ok (nth (rng w (rng_pos w) mod length alphabet) alphabet "A"%char),
     advance_rng w).

(** [''.join(random.choice(...) for _ in range(n))] *)
Fixpoint random_join (n : nat) : M string :=
  match n with
  | O => ret EmptyString
  | S n' =>
      c <- random_choice ;;
      rest <- random_join n' ;;
      ret (String c rest)
  end.

(** ** The script *)

Definition req_fields : list string :=
  ["OBJECTID"; "StrahlerOr"; "FROM_NODE"; "TO_NODE"]%string.

(** [set(req_fields).issubset(fields)] *)
Definition issubset (small big : list string) : bool :=
  forallb (fun f => existsb (String.eqb f) big) small.

Definition ValidateInputStreams (streams : StreamFC) : M bool :=
  AddMessage MsgValidating ;;
  if issubset req_fields (fc_fields streams) then
    AddMessage MsgFieldsCompatible ;;
    ret true
  else
    AddError ErrFieldsNotCompatible ;;
    ret false.

(** The cursor loop of [DictionaryOfLayerFeatures]: each row assigns every
    field, so each row replaces the dictionary built so far. *)
Definition dict_of_rows {A} (mk : A -> Dict) (rows : list A) : Dict :=
  fold_left (fun _ row => mk row) rows DictEmpty.

(** The keys are the names [arcpy.ListFields] gives for the layer. *)
Definition DictionaryOfLayerFeatures (layer : string) : M Dict :=
  l <- get_layer layer ;;
  match l with
  | StreamLayer fields _ sel => ret (dict_of_rows (DictSegment fields) sel)
  | SiteLayer _ sel => ret (dict_of_rows DictSite sel)
  end.

(** Subscripting the dictionary: a key that was never assigned raises
    [KeyError].  That is every key of the empty dictionary, and on the
    dictionary of a stream row every name that is not a field of the
    layer. *)
Definition getitem_StrahlerOr (d : Dict) : M Z :=
  match d with
  | DictSegment fields s =>
      if has_field "StrahlerOr" fields then ret (StrahlerOr s)
      else raise (KeyError "StrahlerOr")
  | _ => raise (KeyError "StrahlerOr")
  end.

Definition getitem_OBJECTID (d : Dict) : M Z :=
  match d with
  | DictSegment fields s =>
      if has_field "OBJECTID" fields then ret (OBJECTID s)
      else raise (KeyError "OBJECTID")
  | DictSite p => ret (site_OBJECTID p)
  | DictEmpty => raise (KeyError "OBJECTID")
  end.

Definition getitem_TO_NODE (d : Dict) : M Z :=
  match d with
  | DictSegment fields s =>
      if has_field "TO_NODE" fields then ret (TO_NODE s)
      else raise (KeyError "TO_NODE")
  | _ => raise (KeyError "TO_NODE")
  end.

(** The field check of [ValidateInputStreams] does not ask for Shape_Length,
    so the key can be missing from the dictionary of a stream row; where the
    field exists the value can still be [None]. *)
Definition getitem_Shape_Length (d : Dict) : M (option F) :=
  match d with
  | DictSegment fields s =>
      if has_field "Shape_Length" fields then ret (Shape_Length s)
      else raise (KeyError "Shape_Length")
  | _ => raise (KeyError "Shape_Length")
  end.

(** [downstream_length += value]: adding [None] to a number raises
    [TypeError]. *)
Definition iadd (downstream_length : F) (value : option F) : M F :=
  match value with
  | Some len => ret (Fadd downstream_length len)
  | None => raise TypeError
  end.

(** [downstream_segments[-1]] *)
Definition getitem_last (l : list Z) : M Z :=
  match last l with
  | Some x => ret x
  | None => raise IndexError
  end.

(** The [while StrOr_current == StrOr_initial] loop of [FindDownstreamPoint].
    On entry [StrOr_current] equals [StrOr_initial]; it is reassigned at the
    top of the body, so the loop goes round again exactly from the first
    branch.  The result is [Some v] when the body executes [return v] and
    [None] when the loop condition turns false. *)
Fixpoint swim (fuel : nat) (stream_lyr : string) (StrOr_initial : Z)
    (start : Dict) (downstream_segments : list Z) (downstream_length : F)
    : M (option PyVal) :=
  match fuel with
  | O => out_of_fuel
  | S fuel' =>
      to_node <- getitem_TO_NODE start ;;
      SelectLayerByAttribute_management stream_lyr fFROM_NODE to_node ;;
      downstream <- DictionaryOfLayerFeatures stream_lyr ;;
      StrOr_current <- getitem_StrahlerOr downstream ;;
      if (StrOr_current =? StrOr_initial)%Z then
        oid <- getitem_OBJECTID downstream ;;
        len <- getitem_Shape_Length downstream ;;
        total <- iadd downstream_length len ;;
        AddMessage MsgKeepSwimming ;;
        swim fuel' stream_lyr StrOr_initial downstream
          (downstream_segments ++ [oid]) total
      else if (StrOr_current >? StrOr_initial)%Z then
        AddMessage MsgFinalReached ;;
        AddMessage MsgBacktracking ;;
        back <- getitem_last downstream_segments ;;
        SelectLayerByAttribute_management stream_lyr fOBJECTID back ;;
        o <- getitem_StrahlerOr downstream ;;
        AddMessage (MsgStrahlerOrder o) ;;
        AddMessage (MsgTotalDistance downstream_length) ;;
        ret None
      else
        AddError ErrOrderLess ;;
        ret (Some PyFalse)
  end.

(** The cursor loop after the [while]: every row assigns [x_coord] and
    [y_coord] from [row[0].firstPoint], and a row whose geometry is [None]
    raises [AttributeError] there.  [xy] is what the rows so far have
    assigned; with no row the two names stay unbound. *)
Fixpoint cursor_firstPoint (shapes : list (option Shape)) (xy : option Point)
    : M Point :=
  match shapes with
  | [] =>
      match xy with
      | Some p => ret p
      | None => raise UnboundLocalError
      end
  | None :: _ => raise AttributeError
  | Some g :: rest => cursor_firstPoint rest (Some (shape_firstPoint g))
  end.

Definition last_firstPoint (shapes : list (option Shape)) : M Point :=
  cursor_firstPoint shapes None.

Definition FindDownstreamPoint (fuel : nat)
    (site_lyr stream_lyr : string) (tolerance : Tol) : M PyVal :=
  AddMessage MsgFindingNearest ;;
  SelectLayerByLocation_management stream_lyr site_lyr tolerance ;;
  matchcount <- GetCount_management stream_lyr ;;
  if (matchcount =? 1)%nat then
    AddMessage (MsgStreamSelected matchcount) ;;
    let start_segment := "start"%string in
    MakeFeatureLayer_management stream_lyr start_segment ;;
    start <- DictionaryOfLayerFeatures start_segment ;;
    StrOr_initial <- getitem_StrahlerOr start ;;
    AddMessage (MsgInitialOrder StrOr_initial) ;;
    oid <- getitem_OBJECTID start ;;
    AddMessage MsgSwimming ;;
    r <- swim fuel stream_lyr StrOr_initial start [oid] Fzero ;;
    match r with
    | Some v => ret v
    | None =>
        AddMessage MsgGettingCoords ;;
        shapes <- SearchCursor_SHAPE stream_lyr ;;
        p <- last_firstPoint shapes ;;
        AddMessage (MsgXY (X p) (Y p)) ;;
        ret (PyXY (X p) (Y p))
    end
  else
    AddError ErrNoClosestStream ;;
    ret PyFalse.

(** [str(label).replace(" ", "_")] *)
Fixpoint replace_spaces (s : string) : string :=
  match s with
  | EmptyString => EmptyString
  | String c rest =>
      String (if Ascii.eqb c " "%char then "_"%char else c) (replace_spaces rest)
  end.

(** [[...][0]] *)
Definition getitem_first (l : list string) : M string :=
  match l with
  | x :: _ => ret x
  | [] => raise IndexError
  end.

(** The body of [for s in site_list]: [Some v] when it executes [return v]. *)
Definition site_body (fuel : nat) (sites : list Site) (stream_lyr : string)
    (tolerance : Tol) (s : Z) : M (option MainRet) :=
  AddMessage MsgSelectingSite ;;
  AddMessage (MsgSelectionQuery s) ;;
  site_lyr <- random_join 7 ;;
  (let sel := List.filter (fun p => (site_OBJECTID p =? s)%Z) sites in
   put_layer site_lyr (SiteLayer sel sel)) ;;
  labels <- SearchCursor_Sites site_lyr ;;
  label <- getitem_first labels ;;
  let point_name := replace_spaces label in
  matchcount <- GetCount_management site_lyr ;;
  if (matchcount =? 1)%nat then
    AddMessage (MsgSiteSelected point_name) ;;
    xy <- FindDownstreamPoint fuel site_lyr stream_lyr tolerance ;;
    AddMessage MsgWriting ;;
    insertRow xy point_name ;;
    AddMessage MsgSiteComplete ;;
    Delete_management site_lyr ;;
    ret None
  else
    AddError (ErrSiteLayerFailed point_name) ;;
    ret (Some RetFalse).

Fixpoint for_sites (fuel : nat) (sites : list Site) (stream_lyr : string)
    (tolerance : Tol) (site_list : list Z) : M (option MainRet) :=
  match site_list with
  | [] => ret None
  | s :: rest =>
      r <- site_body fuel sites stream_lyr tolerance s ;;
      match r with
      | Some v => ret (Some v)
      | None => for_sites fuel sites stream_lyr tolerance rest
      end
  end.

Fixpoint list_site_ids (site_list : list Z) : M unit :=
  match site_list with
  | [] => ret tt
  | s :: rest => AddMessage (MsgSiteId s) ;; list_site_ids rest
  end.

(** [Main(sites, streams, tolerance, output)].  [fuel] bounds the [while]
    loop of each trace; the source has no such bound. *)
Definition Main (fuel : nat) (sites : list Site) (streams : StreamFC)
    (tolerance : Tol) : M MainRet :=
  AddMessage MsgPreparingData ;;
  AddMessage MsgOutputDirectory ;;
  AddMessage MsgOutputFile ;;
  ok <- ValidateInputStreams streams ;;
  if ok : bool then
    stream_lyr <- random_join 7 ;;
    put_layer stream_lyr
      (StreamLayer (fc_fields streams) (fc_rows streams) (fc_rows streams)) ;;
    n <- GetCount_management stream_lyr ;;
    AddMessage (MsgStreamCount n) ;;
    AddMessage MsgPreparingResults ;;
    CreateFeatureclass_management ;;
    let site_list := map site_OBJECTID sites in
    AddMessage MsgSiteIdList ;;
    list_site_ids site_list ;;
    r <- for_sites fuel sites stream_lyr tolerance site_list ;;
    match r with
    | Some v => ret v
    | None =>
        AddMessage MsgDone ;;
        ret RetOutput
    end
  else
    ret RetFalse.

End Script.

(** ** The network as the tracer sees it

    The notions the properties below are stated with, each written with the
    selection the script itself makes. *)
Section Network.
Context {FL : Float} {SP : Spatial}.

(** The rows [SelectLayerByLocation] selects for a layer that holds the one
    site [site]. *)
Definition nearest (streams : list Segment) (site : Site) (tolerance : Tol)
    : list Segment :=
  List.filter
    (fun x => near_any (segment_shape x) [Some (ShPoint (site_SHAPE site))] tolerance)
    streams.

(** The rows selected by the clause "FROM_NODE = node". *)
Definition leaving (streams : list Segment) (node : Z) : list Segment :=
  List.filter (fun x => (FROM_NODE x =? node)%Z) streams.

(** The next downstream segment as the loop reads it: the dictionary built
    from the rows leaving the to-node keeps the last of them. *)
Definition successor (streams : list Segment) (s : Segment) : option Segment :=
  last (leaving streams (TO_NODE s)).

(** [path] lists the segments visited after [s], each the successor of the
    one before and each of order [o]. *)
Fixpoint same_order_chain (streams : list Segment) (o : Z) (s : Segment)
    (path : list Segment) : Prop :=
  match path with
  | [] => True
  | d :: rest =>
      successor streams s = Some d /\ StrahlerOr d = o /\
      same_order_chain streams o d rest
  end.

(** The last segment visited: the end of [path], or [s] when no hop was
    made. *)
Definition last_visited (s : Segment) (path : list Segment) : Segment :=
  List.last path s.

(** The segment [n] hops downstream of [s], if the chain is that long. *)
Fixpoint hops (streams : list Segment) (n : nat) (s : Segment) : option Segment :=
  match n with
  | O => Some s
  | S n' =>
      match successor streams s with
      | Some d => hops streams n' d
      | None => None
      end
  end.

(** The messages of a trace up to its [n]-th same-order hop, from a start of
    order [o]. *)
Definition hop_messages (o : Z) (n : nat) : list Msg :=
  [MsgFindingNearest; MsgStreamSelected 1; MsgInitialOrder o; MsgSwimming]
  ++ repeat MsgKeepSwimming n.

(** The messages of a trace that makes [n] same-order hops and then meets a
    segment of order [o_next], with [total] accumulated, from a start of
    order [o], and reports the point [p]. *)
Definition trace_messages (o : Z) (n : nat) (o_next : Z) (total : F) (p : Point)
    : list Msg :=
  hop_messages o n
  ++ [MsgFinalReached; MsgBacktracking; MsgStrahlerOrder o_next;
      MsgTotalDistance total; MsgGettingCoords; MsgXY (X p) (Y p)].

(** The field names have passed the check of [ValidateInputStreams]. *)
Definition validated (fields : list string) : Prop :=
  issubset req_fields fields = true.

(** The state in which [Main] calls [FindDownstreamPoint]: the site layer
    holds the one selected site, the stream layer shows the whole network
    (with whatever selection the previous trace left) and has the fields the
    check asked for, and the stream layer is not the layer "start" that the
    trace makes for itself. *)
Definition ready (w : World) (site_lyr stream_lyr : string) (site : Site)
    (streams : list Segment) : Prop :=
  stream_lyr <> "start"%string /\
  (exists all, layers w !! site_lyr = Some (SiteLayer all [site])) /\
  (exists fields sel,
     layers w !! stream_lyr = Some (StreamLayer fields streams sel) /\
     validated fields).

(** The layer [lyr] is a stream layer whose table has the field
    Shape_Length. *)
Definition length_field (w : World) (lyr : string) : Prop :=
  exists fields all sel,
    layers w !! lyr = Some (StreamLayer fields all sel) /\
    has_field "Shape_Length" fields = true.

(** The loop can read the lengths [lens] off the segments of [path]: none of
    them is NULL, and if there is a segment to read, the stream layer has the
    field. *)
Definition lengths_read (w : World) (stream_lyr : string)
    (path : list Segment) (lens : list F) : Prop :=
  map Shape_Length path = map Some lens /\
  (path <> [] -> length_field w stream_lyr).

(** The world after a new selection on the stream layer. *)
Definition reselect (lyr : string) (fields : list string)
    (streams sel : list Segment) (w : World) : World :=
  set_layers (insert lyr (StreamLayer fields streams sel)) w.

(** From [w] to [w'] the messages [msgs] were added, and neither the output
    feature class nor [random] was touched. *)
Definition emits (w w' : World) (msgs : list Msg) : Prop :=
  messages w' = messages w ++ msgs /\ out_fc w' = out_fc w /\
  rng w' = rng w /\ rng_pos w' = rng_pos w.

(** What [FindDownstreamPoint] does with the outcome of its loop. *)
Definition after_swim (stream_lyr : string) (r : option PyVal) : M PyVal :=
  match r with
  | Some v => ret v
  | None =>
      AddMessage MsgGettingCoords ;;
      shapes <- SearchCursor_SHAPE stream_lyr ;;
      p <- last_firstPoint shapes ;;
      AddMessage (MsgXY (X p) (Y p)) ;;
      ret (PyXY (X p) (Y p))
  end.

(** The world in which the loop of a resolved trace starts. *)
Definition at_loop_entry (stream_lyr : string) (fields : list string)
    (streams : list Segment) (s0 : Segment) (w : World) : World :=
  log MsgSwimming
    (log (MsgInitialOrder (StrahlerOr s0))
       (set_layers (insert "start"%string (StreamLayer fields [s0] [s0]))
          (log (MsgStreamSelected 1)
             (reselect stream_lyr fields streams [s0] (log MsgFindingNearest w))))).

(** The name [''.join(random.choice(...) for _ in range(n))] builds when
    [random] is at draw [pos]. *)
Fixpoint name_from (draws : nat -> nat) (pos n : nat) : string :=
  match n with
  | O => EmptyString
  | S n' =>
      String (nth (draws pos mod length alphabet) alphabet "A"%char)
        (name_from draws (S pos) n')
  end.

Fixpoint after_draws (n : nat) (w : World) : World :=
  match n with
  | O => w
  | S n' => after_draws n' (advance_rng w)
  end.

(** A run of [Main] on [n] sites draws the name of the stream layer first and
    then one name per site.  This says that none of the site names is the
    name of the stream layer. *)
Definition site_names_avoid_stream_name (w : World) (n : nat) : Prop :=
  forall k, 1 <= k <= n ->
    name_from (rng w) (rng_pos w + 7 * k) 7 <> name_from (rng w) (rng_pos w) 7.

(** The world in which [Main] starts to iterate over the sites. *)
Definition at_iteration (sites : list Site) (streams : StreamFC) (w : World) : World :=
  let w1 :=
    after_draws 7
      (log MsgFieldsCompatible
         (log MsgValidating
            (log MsgOutputFile (log MsgOutputDirectory (log MsgPreparingData w))))) in
  let w2 :=
    log MsgSiteIdList
      (set_out_fc (Some [])
         (log MsgPreparingResults
            (log (MsgStreamCount (length (fc_rows streams)))
               (set_layers
                  (insert (name_from (rng w) (rng_pos w) 7)
                     (StreamLayer (fc_fields streams) (fc_rows streams)
                        (fc_rows streams)))
                  w1)))) in
  fold_left (fun v s => log (MsgSiteId s) v) (map site_OBJECTID sites) w2.

(** The world in which the loop body calls [FindDownstreamPoint] for the site
    [site], selected by the object id [s]. *)
Definition at_trace_call (s : Z) (site : Site) (w : World) : World :=
  log (MsgSiteSelected (replace_spaces (site_Sites site)))
    (set_layers
       (insert (name_from (rng w) (rng_pos w) 7) (SiteLayer [site] [site]))
       (after_draws 7 (log (MsgSelectionQuery s) (log MsgSelectingSite w)))).

(** What the loop body does with the value of [FindDownstreamPoint]. *)
Definition after_trace (site_lyr point_name : string) (xy : PyVal)
    : M (option MainRet) :=
  AddMessage MsgWriting ;;
  insertRow xy point_name ;;
  AddMessage MsgSiteComplete ;;
  Delete_management site_lyr ;;
  ret None.

(** How [Main] ends once the loop over the sites is done. *)
Definition after_sites (r : option MainRet) : M MainRet :=
  match r with
  | Some v => ret v
  | None => AddMessage MsgDone ;; ret RetOutput
  end.

(** ** Two runs side by side

    Two runs of the script differ in the names [random] gives their layers.
    [rel ns g1 p1 g2 p2 w1 w2] relates the worlds of two runs: the output
    feature classes agree, each run's [random] is where the run has left it,
    and for each pair of names in [ns] the first run's layer of the first
    name is the second run's layer of the second name. *)
Definition rel (ns : list (string * string))
    (g1 : nat -> nat) (p1 : nat) (g2 : nat -> nat) (p2 : nat)
    (w1 w2 : World) : Prop :=
  out_fc w1 = out_fc w2 /\
  (rng w1 = g1 /\ rng_pos w1 = p1) /\
  (rng w2 = g2 /\ rng_pos w2 = p2) /\
  forall n1 n2, In (n1, n2) ns -> layers w1 !! n1 = layers w2 !! n2.

(** [sim P m1 m2 Q]: from worlds related by [P], the two computations end the
    same way; when they return, [Q] relates their results and worlds; when
    they raise or run out of fuel, the output feature classes still agree. *)
Definition sim {A} (P : World -> World -> Prop) (m1 m2 : M A)
    (Q : A -> A -> World -> World -> Prop) : Prop :=
  forall w1 w2, P w1 w2 ->
    match m1 w1, m2 w2 with
    | (Ok a1, w1'), (Ok a2, w2') => Q a1 a2 w1' w2'
    | (Raise e1, w1'), (Raise e2, w2') => e1 = e2 /\ out_fc w1' = out_fc w2'
    | (OutOfFuel, w1'), (OutOfFuel, w2') => out_fc w1' = out_fc w2'
    | _, _ => False
    end.

(** Equal results, worlds related by [R]. *)
Definition eqr {A} (R : World -> World -> Prop) : A -> A -> World -> World -> Prop :=
  fun a1 a2 w1 w2 => a1 = a2 /\ R w1 w2.

(** ** More notions for the properties of the whole script *)

(** The characters of a string. *)
Definition chars (s : string) : list ascii := list_ascii_of_string s.

(** A computation is confined to the layers [names] when, however it ends,
    it has left the output feature class and [random] alone, has only added
    messages, and has made, changed or deleted no layer but those named. *)
Definition confined (names : list string) {A} (m : M A) : Prop :=
  forall w : World,
    (exists ms : list Msg, emits w (snd (m w)) ms) /\
    (forall n, ~ In n names -> layers (snd (m w)) !! n = layers w !! n).

(** The layer [lyr] is a view on the whole network [streams], with the
    fields [fields]. *)
Definition holds_streams (lyr : string) (fields : list string)
    (streams : list Segment) (w : World) : Prop :=
  exists sel : list Segment, layers w !! lyr = Some (StreamLayer fields streams sel).

(** However the computation ends, [I] still holds. *)
Definition preserves (I : World -> Prop) {A} (m : M A) : Prop :=
  forall w : World, I w -> I (snd (m w)).

(** However the computation ends, the rows of the output feature class are
    still there, in place, followed by at most [k] new ones. *)
Definition grows (k : nat) {A} (m : M A) : Prop :=
  forall (w : World) (rows : list Row),
    out_fc w = Some rows ->
    exists extra : list Row,
      out_fc (snd (m w)) = Some (rows ++ extra) /\ length extra <= k.

(** Every exception the computation can raise is one of [ok]. *)
Definition raises_only (ok : PyExn -> Prop) {A} (m : M A) : Prop :=
  forall (w : World) (e : PyExn), fst (m w) = Raise e -> ok e.


(** The exceptions of a trace: an error of a geoprocessing tool, a
    [KeyError] from a subscript on an attribute dictionary, the [TypeError]
    of adding a NULL length, the [AttributeError] of the first point of a
    NULL geometry. *)
Definition of_the_trace (e : PyExn) : Prop :=
  e = ExecuteError \/ (exists k, e = KeyError k) \/ e = TypeError \/
  e = AttributeError.


(** On a stream table with the fields [fields], the trace from [site] walks
    a same-order chain, reading a length off every segment of it, to a
    segment of higher order within [fuel] turns, and [p] is the first point
    of the geometry of the last segment of the chain. *)
Definition pours_at (fields : list string) (streams : list Segment)
    (tolerance : Tol) (fuel : nat) (site : Site) (p : Point) : Prop :=
  exists (s0 b : Segment) (path : list Segment) (lens : list F) (g : Polyline),
    nearest streams site tolerance = [s0] /\
    same_order_chain streams (StrahlerOr s0) s0 path /\
    map Shape_Length path = map Some lens /\
    (path <> [] -> has_field "Shape_Length" fields = true) /\
    successor streams (last_visited s0 path) = Some b /\
    (StrahlerOr s0 < StrahlerOr b)%Z /\
    length path < fuel /\
    SHAPE (last_visited s0 path) = Some g /\
    p = firstPoint g.

(** The row [Main] writes for a site whose trace gave the point [p]. *)
Definition row_of (site : Site) (p : Point) : Row :=
  (PyXY (X p) (Y p), replace_spaces (site_Sites site)).

(** The rows for a list of sites and the points of their traces. *)
Definition rows_of (sites : list Site) (points : list Point) : list Row :=
  map (fun sp => row_of (fst sp) (snd sp)) (combine sites points).

End Network.

(** ** Concrete networks

    Integer lengths and coordinates, straight segments, and the exact test
    "within the distance of the segment" on squared Euclidean distances, to
    run the script on small inputs. *)
Module Examples.

Definition ZFloat : Float := {| F := Z; Fadd := Z.add; Fzero := 0%Z |}.
#[local] Existing Instance ZFloat.

Definition sq_dist (p q : Point) : Z :=
  ((X p - X q) * (X p - X q) + (Y p - Y q) * (Y p - Y q))%Z.

(** Is [p] within [d] of the straight segment from [a] to [b]? *)
Definition point_near_line (p : Point) (l : Polyline) (d : Z) : bool :=
  let a := firstPoint l in
  let b := lastPoint l in
  let t := ((X p - X a) * (X b - X a) + (Y p - Y a) * (Y b - Y a))%Z in
  if (t <=? 0)%Z then (sq_dist p a <=? d * d)%Z
  else if (sq_dist a b <=? t)%Z then (sq_dist p b <=? d * d)%Z
  else (sq_dist p a * sq_dist a b - t * t <=? d * d * sq_dist a b)%Z.

Definition zintersects (g1 g2 : Shape) (distance : Z) : bool :=
  match g1, g2 with
  | ShPoint p, ShPoint q => (sq_dist p q <=? distance * distance)%Z
  | ShLine l, ShPoint p => point_near_line p l distance
  | ShPoint p, ShLine l => point_near_line p l distance
  | ShLine l, ShLine m =>
      point_near_line (firstPoint m) l distance
      || point_near_line (lastPoint m) l distance
      || point_near_line (firstPoint l) m distance
      || point_near_line (lastPoint l) m distance
  end.

Definition ZSpatial : Spatial := {| Tol := Z; intersects := zintersects |}.
#[local] Existing Instance ZSpatial.

Definition pt (x y : Z) : Point := {| X := x; Y := y |}.

Definition seg_between (id order from to len : Z) (a b : Point) : Segment :=
  {| OBJECTID := id; StrahlerOr := order; FROM_NODE := from; TO_NODE := to;
     Shape_Length := Some len;
     SHAPE := Some {| firstPoint := a; lastPoint := b |} |}.

(** A segment lying on the x axis, node [n] at [x = 100 * n]. *)
Definition seg (id order from to len : Z) : Segment :=
  seg_between id order from to len (pt (100 * from) 0) (pt (100 * to) 0).

Definition site (id : Z) (label : string) (x y : Z) : Site :=
  {| site_OBJECTID := id; site_Sites := label; site_SHAPE := pt x y |}.

Definition all_fields : list string :=
  ["OBJECTID"; "Shape"; "StrahlerOr"; "FROM_NODE"; "TO_NODE"; "Shape_Length"]%string.

Definition fc (rows : list Segment) : StreamFC :=
  {| fc_fields := all_fields; fc_rows := rows |}.

(** The fields the check asks for and the geometry, without Shape_Length. *)
Definition checked_fields : list string :=
  ["OBJECTID"; "Shape"; "StrahlerOr"; "FROM_NODE"; "TO_NODE"]%string.

(** A stream feature class that passes the field check and has no field
    Shape_Length. *)
Definition fc_without_length (rows : list Segment) : StreamFC :=
  {| fc_fields := checked_fields; fc_rows := rows |}.

(** The row [s] with a NULL length, and with a NULL geometry. *)
Definition null_length (s : Segment) : Segment :=
  {| OBJECTID := OBJECTID s; StrahlerOr := StrahlerOr s;
     FROM_NODE := FROM_NODE s; TO_NODE := TO_NODE s;
     Shape_Length := None; SHAPE := SHAPE s |}.

Definition null_geometry (s : Segment) : Segment :=
  {| OBJECTID := OBJECTID s; StrahlerOr := StrahlerOr s;
     FROM_NODE := FROM_NODE s; TO_NODE := TO_NODE s;
     Shape_Length := Shape_Length s; SHAPE := None |}.

(** A process that has made no layer and no output yet; [random] draws
    [draws]. *)
Definition fresh (draws : nat -> nat) : World :=
  {| layers := ∅; out_fc := None; messages := []; rng := draws; rng_pos := 0 |}.

(** Draws 0, 1, 2, ...: the stream layer is "ABCDEFG", the site layers
    "HIJKLMN", "OPQRSTU", ... *)
Definition counting : nat -> nat := fun n => n.

(** Draws 0, 2, 4, ...: the stream layer is "ACEGIKM", the first site layer
    "OQSUWY0". *)
Definition skipping : nat -> nat := fun n => 2 * n.

(** Every draw the same: all layers are named "AAAAAAA". *)
Definition stuck : nat -> nat := fun _ => 0.

(** Orders [2,2,2,3], lengths [10,20,30,5]. *)
Definition chain4 : list Segment :=
  [seg 1 2 1 2 10; seg 2 2 2 3 20; seg 3 2 3 4 30; seg 4 3 4 5 5]%Z.

(** Orders [2,1]. *)
Definition inverted : list Segment := [seg 1 2 1 2 10; seg 2 1 2 3 20]%Z.

(** Orders [2,3]. *)
Definition step_up : list Segment := [seg 1 2 1 2 10; seg 2 3 2 3 20]%Z.

(** Two segments leave node 2: one of order 2 and one of order 3. *)
Definition forked : list Segment :=
  [seg 1 2 1 2 10; seg 2 3 2 3 20; seg 3 2 2 4 30; seg 4 3 4 5 5]%Z.

(** Orders [2,2,3], with a NULL length on segment 2. *)
Definition chain3_null_length : list Segment :=
  [seg 1 2 1 2 10; null_length (seg 2 2 2 3 20); seg 3 3 3 4 5]%Z.

(** Orders [2,2,3], with a NULL geometry on segment 2. *)
Definition chain3_null_geometry : list Segment :=
  [seg 1 2 1 2 10; null_geometry (seg 2 2 2 3 20); seg 3 3 3 4 5]%Z.

(** A single segment: nothing leaves its to-node. *)
Definition outlet : list Segment := [seg 1 2 1 2 10]%Z.

(** Three segments of order 2 round a triangle. *)
Definition ring : list Segment :=
  [seg 1 2 1 2 100;
   seg_between 2 2 2 3 94 (pt 200 0) (pt 150 80);
   seg_between 3 2 3 1 94 (pt 150 80) (pt 100 0)]%Z.

(** A site half way along segment 1 of the networks above. *)
Definition site_A : Site := site 1 "Site A" 150 0.

(** A site half way along segment 4, the last segment of [chain4]. *)
Definition site_B : Site := site 4 "Site B" 450 0.

(** A site half way along segment 2 of [chain4]. *)
Definition site_C : Site := site 5 "Site C" 250 0.

(** A second site with the object id of [site_A]. *)
Definition site_A_twin : Site := site 1 "Twin of A" 350 0.

(** A site far from every segment. *)
Definition site_far : Site := site 2 "Far away" 150 5000.

(** A site at node 2, where segments meet. *)
Definition site_node2 : Site := site 3 "Node two" 200 0.

(** The world in which [FindDownstreamPoint] is called for one site: the
    stream layer and the site layer exist. *)
Definition called (rows : list Segment) (s : Site) : World :=
  {| layers := <["SITELYR"%string := SiteLayer [s] [s]]>
                 (<["STREAMS"%string := StreamLayer all_fields rows rows]> ∅);
     out_fc := Some []; messages := []; rng := counting; rng_pos := 0 |}.

(** The same on a stream layer without the field Shape_Length. *)
Definition called_without_length (rows : list Segment) (s : Site) : World :=
  {| layers := <["SITELYR"%string := SiteLayer [s] [s]]>
                 (<["STREAMS"%string := StreamLayer checked_fields rows rows]> ∅);
     out_fc := Some []; messages := []; rng := counting; rng_pos := 0 |}.

End Examples.

(** * Properties *)

Section Trace.
Context {FL : Float} {SP : Spatial}.

(** ** Cursors and selections *)

Lemma fold_keep_last {A B} (f : A -> B) (rows : list A) (b : B) :
  fold_left (fun _ row => f row) rows b =
  match last rows with
  | Some r => f r
  | None => b
  end.
Proof.
  revert b. induction rows as [|x rows IH]; intros b; [reflexivity|].
  simpl fold_left. rewrite IH.
  destruct rows as [|y rows]; [reflexivity|].
  change (last (x :: y :: rows)) with (last (y :: rows)).
  destruct (last (y :: rows)) eqn:E; [reflexivity|].
  apply last_None in E. discriminate.
Qed.

Lemma dict_of_rows_last {A} (mk : A -> Dict) (rows : list A) :
  dict_of_rows mk rows =
  match last rows with
  | Some r => mk r
  | None => DictEmpty
  end.
Proof. apply fold_keep_last. Qed.

(** The cursor loop on one row. *)
Lemma last_firstPoint_one (g : option Shape) (w : World) :
  last_firstPoint [g] w =
  match g with
  | Some g => (Ok (shape_firstPoint g), w)
  | None => (Raise AttributeError, w)
  end.
Proof. destruct g; reflexivity. Qed.

(** The cursor loop ends with a point, on a NULL geometry, or with nothing
    assigned because there was no row; it leaves the world as it is. *)
Lemma cursor_firstPoint_cases (shapes : list (option Shape)) :
  forall (xy : option Point) (w : World),
  (exists p, cursor_firstPoint shapes xy w = (Ok p, w)) \/
  cursor_firstPoint shapes xy w = (Raise AttributeError, w) \/
  (shapes = [] /\ xy = None /\
   cursor_firstPoint shapes xy w = (Raise UnboundLocalError, w)).
Proof.
  induction shapes as [|g shapes IH]; intros xy w.
  - destruct xy as [p|]; [left; exists p; reflexivity | right; right; auto].
  - destruct g as [g|]; [|right; left; reflexivity].
    simpl. destruct (IH (Some (shape_firstPoint g)) w) as [H|[H|(_ & H & _)]];
      [left; exact H | right; left; exact H | discriminate].
Qed.

(** The field check has found the four fields the trace subscripts and
    selects on. *)
Lemma validated_fields (fields : list string) :
  validated fields ->
  has_field "OBJECTID" fields = true /\ has_field "StrahlerOr" fields = true /\
  has_field "FROM_NODE" fields = true /\ has_field "TO_NODE" fields = true.
Proof.
  unfold validated, issubset, req_fields, has_field. simpl forallb.
  rewrite !andb_true_iff. tauto.
Qed.

Lemma successor_In (streams : list Segment) (s d : Segment) :
  successor streams s = Some d -> In d streams.
Proof.
  unfold successor, leaving. intros Hl.
  apply last_Some in Hl as [l' Hl].
  assert (Hin : In d (List.filter (fun x => (FROM_NODE x =? TO_NODE s)%Z) streams)).
  { rewrite Hl. apply in_or_app. right. left. reflexivity. }
  apply filter_In in Hin. tauto.
Qed.

(** Object ids are unique, so a clause "OBJECTID = id" selects one row. *)
Lemma select_by_id_unique (streams : list Segment) (s : Segment) :
  List.NoDup (map OBJECTID streams) -> In s streams ->
  List.filter (fun x => (OBJECTID x =? OBJECTID s)%Z) streams = [s].
Proof.
  induction streams as [|x streams IH]; intros Hnd Hin; [destruct Hin|].
  simpl in Hnd. apply List.NoDup_cons_iff in Hnd as [Hx Hnd].
  assert (Hnone : forall l, ~ In (OBJECTID s) (map OBJECTID l) ->
            List.filter (fun y => (OBJECTID y =? OBJECTID s)%Z) l = []).
  { induction l as [|y l IHl]; intros Hni; [reflexivity|].
    simpl. destruct (Z.eqb_spec (OBJECTID y) (OBJECTID s)) as [e|_].
    - exfalso. apply Hni. left. exact e.
    - apply IHl. intros Hc. apply Hni. right. exact Hc. }
  simpl. destruct Hin as [->|Hin].
  - rewrite Z.eqb_refl. f_equal. apply Hnone. exact Hx.
  - destruct (Z.eqb_spec (OBJECTID x) (OBJECTID s)) as [e|_].
    + exfalso. apply Hx. rewrite e. apply in_map. exact Hin.
    + apply IH; assumption.
Qed.

Lemma select_by_id_nonempty (streams : list Segment) (s : Segment) :
  In s streams ->
  List.filter (fun x => (OBJECTID x =? OBJECTID s)%Z) streams <> [].
Proof.
  intros Hin Hnil.
  assert (Hs : In s (List.filter (fun x => (OBJECTID x =? OBJECTID s)%Z) streams)).
  { apply filter_In. split; [exact Hin | apply Z.eqb_refl]. }
  rewrite Hnil in Hs. destruct Hs.
Qed.

(** ** Running a computation step by step *)

Lemma bind_Ok {A B} (m : M A) (k : A -> M B) (w w' : World) (a : A) :
  m w = (Ok a, w') -> bind m k w = k a w'.
Proof. intros E. unfold bind. rewrite E. reflexivity. Qed.

Lemma bind_Raise {A B} (m : M A) (k : A -> M B) (w w' : World) (e : PyExn) :
  m w = (Raise e, w') -> bind m k w = (Raise e, w').
Proof. intros E. unfold bind. rewrite E. reflexivity. Qed.

Lemma bind_OutOfFuel {A B} (m : M A) (k : A -> M B) (w w' : World) :
  m w = (OutOfFuel, w') -> bind m k w = (OutOfFuel, w').
Proof. intros E. unfold bind. rewrite E. reflexivity. Qed.

Lemma bind_ret {A B} (a : A) (k : A -> M B) (w : World) :
  bind (ret a) k w = k a w.
Proof. reflexivity. Qed.

Lemma bind_AddMessage {B} (m : Msg) (k : unit -> M B) (w : World) :
  bind (AddMessage m) k w = k tt (log m w).
Proof. reflexivity. Qed.

Lemma bind_AddError {B} (m : Msg) (k : unit -> M B) (w : World) :
  bind (AddError m) k w = k tt (log m w).
Proof. reflexivity. Qed.

Lemma get_layer_Some (name : string) (l : Layer) (w : World) :
  layers w !! name = Some l -> get_layer name w = (Ok l, w).
Proof. intros E. unfold get_layer. rewrite E. reflexivity. Qed.

Lemma layers_reselect (lyr : string) (fields : list string)
    (streams sel : list Segment) (w : World) :
  layers (reselect lyr fields streams sel w) !! lyr =
  Some (StreamLayer fields streams sel).
Proof. unfold reselect. simpl. apply lookup_insert_eq. Qed.

Lemma select_FROM_NODE (lyr : string) (fields : list string)
    (all sel : list Segment) (v : Z) (w : World) :
  layers w !! lyr = Some (StreamLayer fields all sel) ->
  has_field "FROM_NODE" fields = true ->
  SelectLayerByAttribute_management lyr fFROM_NODE v w =
  (Ok tt, reselect lyr fields all (leaving all v) w).
Proof.
  intros E Hf. unfold SelectLayerByAttribute_management.
  rewrite (bind_Ok _ _ _ _ _ (get_layer_Some _ _ _ E)). rewrite Hf. reflexivity.
Qed.

Lemma select_OBJECTID (lyr : string) (fields : list string)
    (all sel : list Segment) (v : Z) (w : World) :
  layers w !! lyr = Some (StreamLayer fields all sel) ->
  has_field "OBJECTID" fields = true ->
  SelectLayerByAttribute_management lyr fOBJECTID v w =
  (Ok tt, reselect lyr fields all (List.filter (fun x => (OBJECTID x =? v)%Z) all) w).
Proof.
  intros E Hf. unfold SelectLayerByAttribute_management.
  rewrite (bind_Ok _ _ _ _ _ (get_layer_Some _ _ _ E)). rewrite Hf. reflexivity.
Qed.

Lemma dictionary_of_stream_layer (lyr : string) (fields : list string)
    (all sel : list Segment) (w : World) :
  layers w !! lyr = Some (StreamLayer fields all sel) ->
  DictionaryOfLayerFeatures lyr w =
  (Ok (match last sel with Some d => DictSegment fields d | None => DictEmpty end), w).
Proof.
  intros E. unfold DictionaryOfLayerFeatures.
  rewrite (bind_Ok _ _ _ _ _ (get_layer_Some _ _ _ E)).
  unfold ret. rewrite dict_of_rows_last. reflexivity.
Qed.

(** ** One turn of the loop *)

(** On a layer with the four required fields.  A same-order successor is
    visited when its length can be read and added: the subscript raises
    [KeyError] when the table has no Shape_Length, and the addition raises
    [TypeError] when the length is NULL. *)
Lemma swim_turn (fuel : nat) (lyr : string) (init : Z) (fields : list string)
    (streams sel : list Segment) (s : Segment) (vis : list Z) (len : F) (w : World) :
  layers w !! lyr = Some (StreamLayer fields streams sel) ->
  validated fields ->
  swim (S fuel) lyr init (DictSegment fields s) vis len w =
  let w1 := reselect lyr fields streams (leaving streams (TO_NODE s)) w in
  match successor streams s with
  | None => (Raise (KeyError "StrahlerOr"), w1)
  | Some d =>
      if (StrahlerOr d =? init)%Z then
        if has_field "Shape_Length" fields then
          match Shape_Length d with
          | Some l =>
              swim fuel lyr init (DictSegment fields d) (vis ++ [OBJECTID d])
                (Fadd len l) (log MsgKeepSwimming w1)
          | None => (Raise TypeError, w1)
          end
        else (Raise (KeyError "Shape_Length"), w1)
      else if (StrahlerOr d >? init)%Z then
        let w2 := log MsgBacktracking (log MsgFinalReached w1) in
        match last vis with
        | Some back =>
            (Ok None,
             log (MsgTotalDistance len)
               (log (MsgStrahlerOrder (StrahlerOr d))
                  (reselect lyr fields streams
                     (List.filter (fun x => (OBJECTID x =? back)%Z) streams) w2)))
        | None => (Raise IndexError, w2)
        end
      else (Ok (Some PyFalse), log ErrOrderLess w1)
  end.
Proof.
  intros Hl Hv. destruct (validated_fields _ Hv) as (Hoid & Hso & Hfrom & Hto).
  simpl swim. rewrite Hto, bind_ret.
  rewrite (bind_Ok _ _ _ _ _ (select_FROM_NODE _ _ _ _ _ _ Hl Hfrom)).
  rewrite (bind_Ok _ _ _ _ _
             (dictionary_of_stream_layer _ _ _ _ _ (layers_reselect _ _ _ _ _))).
  unfold successor. cbv zeta.
  destruct (last (leaving streams (TO_NODE s))) as [d|]; [|reflexivity].
  unfold getitem_StrahlerOr, getitem_OBJECTID, getitem_Shape_Length.
  rewrite Hso, Hoid.
  rewrite (bind_Ok _ _ _ _ (StrahlerOr d) eq_refl).
  destruct (StrahlerOr d =? init)%Z.
  { rewrite bind_ret.
    destruct (has_field "Shape_Length" fields); [|reflexivity].
    rewrite bind_ret. unfold iadd.
    destruct (Shape_Length d) as [l|]; reflexivity. }
  destruct (StrahlerOr d >? init)%Z; [|reflexivity].
  rewrite !bind_AddMessage.
  unfold getitem_last.
  destruct (last vis) as [back|]; [|reflexivity].
  rewrite bind_ret.
  erewrite bind_Ok; [reflexivity|].
  apply select_OBJECTID with (sel := leaving streams (TO_NODE s)); [|exact Hoid].
  apply layers_reselect.
Qed.

(** ** Resolving the starting segment *)

Lemma select_by_location (site_lyr stream_lyr : string) (tolerance : Tol)
    (site : Site) (fields : list string) (streams sel : list Segment) (w : World) :
  ready w site_lyr stream_lyr site streams ->
  layers w !! stream_lyr = Some (StreamLayer fields streams sel) ->
  SelectLayerByLocation_management stream_lyr site_lyr tolerance w =
  (Ok tt, reselect stream_lyr fields streams (nearest streams site tolerance) w).
Proof.
  intros (_ & [all Hsite] & _) Hstream.
  unfold SelectLayerByLocation_management.
  rewrite (bind_Ok _ _ _ _ _ (get_layer_Some _ _ _ Hstream)).
  rewrite (bind_Ok _ _ _ _ _ (get_layer_Some _ _ _ Hsite)).
  reflexivity.
Qed.

Lemma count_selected (lyr : string) (l : Layer) (w : World) :
  layers w !! lyr = Some l ->
  GetCount_management lyr w = (Ok (selected_count l), w).
Proof.
  intros E. unfold GetCount_management.
  rewrite (bind_Ok _ _ _ _ _ (get_layer_Some _ _ _ E)). reflexivity.
Qed.

(** Zero or several rows selected: the trace returns [False]. *)
Lemma find_unresolved (fuel : nat) (site_lyr stream_lyr : string) (tolerance : Tol)
    (site : Site) (fields : list string) (streams sel : list Segment) (w : World) :
  ready w site_lyr stream_lyr site streams ->
  layers w !! stream_lyr = Some (StreamLayer fields streams sel) ->
  length (nearest streams site tolerance) <> 1 ->
  FindDownstreamPoint fuel site_lyr stream_lyr tolerance w =
  (Ok PyFalse,
   log ErrNoClosestStream
     (reselect stream_lyr fields streams (nearest streams site tolerance)
        (log MsgFindingNearest w))).
Proof.
  intros Hr Hl Hn. unfold FindDownstreamPoint.
  rewrite bind_AddMessage.
  assert (Hr' : ready (log MsgFindingNearest w) site_lyr stream_lyr site streams)
    by exact Hr.
  assert (Hl' : layers (log MsgFindingNearest w) !! stream_lyr =
                Some (StreamLayer fields streams sel)) by exact Hl.
  rewrite (bind_Ok _ _ _ _ _ (select_by_location _ _ tolerance _ _ _ _ _ Hr' Hl')).
  rewrite (bind_Ok _ _ _ _ _ (count_selected _ _ _ (layers_reselect _ _ _ _ _))).
  cbn [selected_count].
  destruct (Nat.eqb_spec (length (nearest streams site tolerance)) 1) as [e|_];
    [contradiction|].
  reflexivity.
Qed.

(** One row selected: the loop starts from it. *)
Lemma find_resolved (fuel : nat) (site_lyr stream_lyr : string) (tolerance : Tol)
    (site : Site) (fields : list string) (streams sel : list Segment)
    (s0 : Segment) (w : World) :
  ready w site_lyr stream_lyr site streams ->
  layers w !! stream_lyr = Some (StreamLayer fields streams sel) ->
  validated fields ->
  nearest streams site tolerance = [s0] ->
  FindDownstreamPoint fuel site_lyr stream_lyr tolerance w =
  bind (swim fuel stream_lyr (StrahlerOr s0) (DictSegment fields s0)
          [OBJECTID s0] Fzero)
    (after_swim stream_lyr) (at_loop_entry stream_lyr fields streams s0 w).
Proof.
  intros Hr Hl Hv Hn. destruct (validated_fields _ Hv) as (Hoid & Hso & _ & _).
  unfold FindDownstreamPoint.
  rewrite bind_AddMessage.
  assert (Hr' : ready (log MsgFindingNearest w) site_lyr stream_lyr site streams)
    by exact Hr.
  assert (Hl' : layers (log MsgFindingNearest w) !! stream_lyr =
                Some (StreamLayer fields streams sel)) by exact Hl.
  rewrite (bind_Ok _ _ _ _ _ (select_by_location _ _ tolerance _ _ _ _ _ Hr' Hl')).
  rewrite (bind_Ok _ _ _ _ _ (count_selected _ _ _ (layers_reselect _ _ _ _ _))).
  rewrite Hn. cbn [selected_count length Nat.eqb].
  rewrite bind_AddMessage.
  unfold MakeFeatureLayer_management.
  erewrite bind_Ok; [|erewrite bind_Ok; [reflexivity|];
                      apply get_layer_Some; apply layers_reselect].
  erewrite bind_Ok;
    [|apply dictionary_of_stream_layer with (all := [s0]) (sel := [s0]);
      simpl; apply lookup_insert_eq].
  cbn [last]. unfold getitem_StrahlerOr, getitem_OBJECTID. rewrite Hso, Hoid.
  reflexivity.
Qed.

(** The stream layer of a state in which the trace is called. *)
Lemma ready_stream_layer (w : World) (site_lyr stream_lyr : string) (site : Site)
    (streams : list Segment) :
  ready w site_lyr stream_lyr site streams ->
  exists fields sel,
    layers w !! stream_lyr = Some (StreamLayer fields streams sel) /\
    validated fields.
Proof. intros (_ & _ & H). exact H. Qed.

Lemma stream_layer_at_loop_entry (stream_lyr : string) (fields : list string)
    (streams : list Segment) (s0 : Segment) (w : World) :
  stream_lyr <> "start"%string ->
  layers (at_loop_entry stream_lyr fields streams s0 w) !! stream_lyr =
  Some (StreamLayer fields streams [s0]).
Proof.
  intros Hne. unfold at_loop_entry, reselect. simpl.
  rewrite lookup_insert_ne by congruence. apply lookup_insert_eq.
Qed.

(** What [lengths_read] says of the fields of the stream layer. *)
Lemma lengths_read_field (w : World) (lyr : string) (fields : list string)
    (streams sel path : list Segment) (lens : list F) :
  layers w !! lyr = Some (StreamLayer fields streams sel) ->
  lengths_read w lyr path lens ->
  path <> [] -> has_field "Shape_Length" fields = true.
Proof.
  intros Hl (_ & Hf) Hne.
  destruct (Hf Hne) as (fields' & all' & sel' & Hl' & Hh).
  rewrite Hl in Hl'. injection Hl' as -> _ _. exact Hh.
Qed.

(** ** Messages and the rest of the world *)

Lemma emits_refl (w : World) : emits w w [].
Proof. unfold emits. rewrite app_nil_r. auto. Qed.

Lemma emits_trans (w1 w2 w3 : World) (m1 m2 : list Msg) :
  emits w1 w2 m1 -> emits w2 w3 m2 -> emits w1 w3 (m1 ++ m2).
Proof.
  unfold emits. intros (a1 & b1 & c1 & d1) (a2 & b2 & c2 & d2).
  rewrite a2, a1, b2, b1, c2, c1, d2, d1, app_assoc. auto.
Qed.

Lemma emits_log (w w' : World) (ms : list Msg) (m : Msg) :
  emits w w' ms -> emits w (log m w') (ms ++ [m]).
Proof.
  unfold emits. simpl. intros (a & b & c & d).
  rewrite a, app_assoc. auto.
Qed.

Lemma emits_set_layers (w w' : World) (ms : list Msg) f :
  emits w w' ms -> emits w (set_layers f w') ms.
Proof. unfold emits. simpl. auto. Qed.

Lemma emits_reselect (w w' : World) (ms : list Msg) lyr fields streams sel :
  emits w w' ms -> emits w (reselect lyr fields streams sel w') ms.
Proof. apply emits_set_layers. Qed.

Create HintDb emits.
#[local] Hint Resolve emits_refl emits_log emits_set_layers emits_reselect : emits.

(** ** Along a chain of equal order *)

Lemma last_visited_cons (s d : Segment) (path : list Segment) :
  last_visited s (d :: path) = last_visited d path.
Proof.
  unfold last_visited. revert s d. induction path as [|e path IH]; intros s d.
  - reflexivity.
  - change (List.last (d :: e :: path) s) with (List.last (e :: path) s).
    rewrite !IH. reflexivity.
Qed.

Lemma last_visited_In (streams : list Segment) (o : Z) (path : list Segment) :
  forall s, In s streams -> same_order_chain streams o s path ->
  In (last_visited s path) streams.
Proof.
  induction path as [|d path IH]; intros s Hin Hch.
  - exact Hin.
  - rewrite last_visited_cons. destruct Hch as (Hs & _ & Hch).
    apply IH; [eapply successor_In; exact Hs | exact Hch].
Qed.

Lemma last_visited_order (streams : list Segment) (path : list Segment) :
  forall s, same_order_chain streams (StrahlerOr s) s path ->
  StrahlerOr (last_visited s path) = StrahlerOr s.
Proof.
  induction path as [|d path IH]; intros s Hch.
  - reflexivity.
  - rewrite last_visited_cons. destruct Hch as (_ & Ho & Hch).
    rewrite <- Ho in Hch. rewrite (IH d Hch). exact Ho.
Qed.

Lemma last_visited_id (path : list Segment) :
  forall (s : Segment) (vis : list Z),
  last vis = Some (OBJECTID s) ->
  last (vis ++ map OBJECTID path) = Some (OBJECTID (last_visited s path)).
Proof.
  induction path as [|d path IH]; intros s vis Hv.
  - simpl. rewrite app_nil_r. exact Hv.
  - rewrite last_visited_cons.
    change (vis ++ map OBJECTID (d :: path))
      with (vis ++ [OBJECTID d] ++ map OBJECTID path).
    rewrite app_assoc. apply IH. apply last_snoc.
Qed.

(** [length path] turns of the loop walk down [path], adding the lengths
    they read. *)
Lemma swim_chain (lyr : string) (init : Z) (fields : list string)
    (streams : list Segment) (fuel : nat) (path : list Segment) :
  forall (lens : list F) (s : Segment) (vis : list Z) (len : F) (w : World)
         (sel : list Segment),
  layers w !! lyr = Some (StreamLayer fields streams sel) ->
  validated fields ->
  same_order_chain streams init s path ->
  map Shape_Length path = map Some lens ->
  (path <> [] -> has_field "Shape_Length" fields = true) ->
  exists (w' : World) (sel' : list Segment),
    layers w' !! lyr = Some (StreamLayer fields streams sel') /\
    emits w w' (repeat MsgKeepSwimming (length path)) /\
    swim (length path + fuel) lyr init (DictSegment fields s) vis len w =
    swim fuel lyr init (DictSegment fields (last_visited s path))
      (vis ++ map OBJECTID path)
      (fold_left Fadd lens len) w'.
Proof.
  induction path as [|d path IH]; intros lens s vis len w sel Hl Hv Hch Hlens Hf.
  - destruct lens; [|discriminate].
    exists w, sel. simpl. rewrite app_nil_r. auto with emits.
  - destruct lens as [|l lens]; [discriminate|].
    simpl in Hlens. injection Hlens as Hd Hlens.
    destruct Hch as (Hs & Ho & Hch).
    simpl length. simpl Nat.add. rewrite (swim_turn _ _ _ _ _ _ _ _ _ _ Hl Hv).
    cbv zeta. rewrite Hs. rewrite Ho, Z.eqb_refl.
    rewrite (Hf ltac:(discriminate)), Hd.
    destruct (IH lens d (vis ++ [OBJECTID d]) (Fadd len l)
                (log MsgKeepSwimming
                   (reselect lyr fields streams (leaving streams (TO_NODE s)) w))
                (leaving streams (TO_NODE s)))
      as (w' & sel' & Hl' & He & Hsw).
    { apply layers_reselect. }
    { exact Hv. }
    { exact Hch. }
    { exact Hlens. }
    { intros _. apply Hf. discriminate. }
    exists w', sel'. split; [exact Hl'|]. split.
    + change (repeat MsgKeepSwimming (S (length path)))
        with ([MsgKeepSwimming] ++ repeat MsgKeepSwimming (length path)).
      eapply emits_trans; [|exact He].
      change [MsgKeepSwimming] with ([] ++ [MsgKeepSwimming]).
      auto with emits.
    + rewrite Hsw, last_visited_cons. simpl map. simpl fold_left.
      rewrite <- app_assoc. reflexivity.
Qed.

Lemma last_map {A B} (f : A -> B) (l : list A) :
  last (map f l) = option_map f (last l).
Proof.
  induction l as [|x l IH]; [reflexivity|].
  destruct l as [|y l]; [reflexivity|].
  change (last (map f (x :: y :: l))) with (last (map f (y :: l))).
  rewrite IH. reflexivity.
Qed.

(** The endpoint is read from the selected rows of the stream layer. *)
Lemma after_swim_None (lyr : string) (fields : list string)
    (streams sel : list Segment) (w : World) :
  layers w !! lyr = Some (StreamLayer fields streams sel) ->
  after_swim lyr None w =
  bind (last_firstPoint (map segment_shape sel))
    (fun p => bind (AddMessage (MsgXY (X p) (Y p)))
                (fun _ => ret (PyXY (X p) (Y p))))
    (log MsgGettingCoords w).
Proof.
  intros Hl. unfold after_swim. rewrite bind_AddMessage.
  unfold SearchCursor_SHAPE.
  erewrite bind_Ok;
    [|erewrite bind_Ok; [reflexivity|]; apply get_layer_Some; exact Hl].
  reflexivity.
Qed.

(** With one row selected the endpoint is the first point of its geometry,
    and a NULL geometry raises. *)
Lemma after_swim_one (lyr : string) (fields : list string)
    (streams : list Segment) (s : Segment) (w : World) :
  layers w !! lyr = Some (StreamLayer fields streams [s]) ->
  after_swim lyr None w =
  match SHAPE s with
  | Some g =>
      let p := firstPoint g in
      (Ok (PyXY (X p) (Y p)), log (MsgXY (X p) (Y p)) (log MsgGettingCoords w))
  | None => (Raise AttributeError, log MsgGettingCoords w)
  end.
Proof.
  intros Hl. rewrite (after_swim_None _ _ _ _ _ Hl).
  cbn [map]. unfold bind at 1. rewrite last_firstPoint_one.
  unfold segment_shape. destruct (SHAPE s) as [g|]; reflexivity.
Qed.

Lemma nearest_In (streams : list Segment) (site : Site) (tolerance : Tol)
    (s0 : Segment) :
  nearest streams site tolerance = [s0] -> In s0 streams.
Proof.
  intros Hn.
  assert (Hin : In s0 (nearest streams site tolerance))
    by (rewrite Hn; left; reflexivity).
  apply filter_In in Hin. tauto.
Qed.

(** A segment within the tolerance of a site has a geometry. *)
Lemma nearest_geometry (streams : list Segment) (site : Site) (tolerance : Tol)
    (s0 : Segment) :
  nearest streams site tolerance = [s0] -> exists g, SHAPE s0 = Some g.
Proof.
  intros Hn.
  assert (Hin : In s0 (nearest streams site tolerance))
    by (rewrite Hn; left; reflexivity).
  apply filter_In in Hin as [_ Hnear].
  unfold near_any, segment_shape in Hnear.
  destruct (SHAPE s0) as [g|]; [eauto|discriminate Hnear].
Qed.

(** ** A trace down a chain *)

Lemma find_along_chain (site_lyr stream_lyr : string) (tolerance : Tol)
    (site : Site) (fields : list string) (streams sel : list Segment)
    (s0 : Segment) (path : list Segment) (lens : list F) (w : World) (fuel : nat) :
  ready w site_lyr stream_lyr site streams ->
  layers w !! stream_lyr = Some (StreamLayer fields streams sel) ->
  validated fields ->
  nearest streams site tolerance = [s0] ->
  same_order_chain streams (StrahlerOr s0) s0 path ->
  lengths_read w stream_lyr path lens ->
  exists (w' : World) (sel' : list Segment),
    layers w' !! stream_lyr = Some (StreamLayer fields streams sel') /\
    emits w w' (hop_messages (StrahlerOr s0) (length path)) /\
    FindDownstreamPoint (length path + fuel) site_lyr stream_lyr tolerance w =
    bind (swim fuel stream_lyr (StrahlerOr s0)
            (DictSegment fields (last_visited s0 path))
            ([OBJECTID s0] ++ map OBJECTID path)
            (fold_left Fadd lens Fzero))
      (after_swim stream_lyr) w'.
Proof.
  intros Hr Hl Hv Hn Hch Hlens.
  rewrite (find_resolved _ _ _ _ _ _ _ _ _ _ Hr Hl Hv Hn).
  pose proof (lengths_read_field _ _ _ _ _ _ _ Hl Hlens) as Hf.
  destruct Hlens as (Hlens & _).
  destruct Hr as (Hne & _ & _).
  destruct (swim_chain stream_lyr (StrahlerOr s0) fields streams fuel path lens s0
              [OBJECTID s0] Fzero (at_loop_entry stream_lyr fields streams s0 w) [s0]
              (stream_layer_at_loop_entry _ _ _ _ _ Hne) Hv Hch Hlens Hf)
    as (w' & sel' & Hl' & He & Hsw).
  exists w', sel'. split; [exact Hl'|]. split.
  - unfold hop_messages. eapply emits_trans; [|exact He].
    unfold at_loop_entry, emits. simpl. rewrite <- !app_assoc. auto.
  - unfold bind at 1. rewrite Hsw. reflexivity.
Qed.

(** The chain ends at a segment of higher order: the trace returns the
    first point of the last segment of the chain. *)
Lemma trace_to_boundary (site_lyr stream_lyr : string) (tolerance : Tol)
    (site : Site) (streams : list Segment) (s0 b : Segment)
    (path : list Segment) (lens : list F) (g : Polyline) (w : World) (fuel : nat) :
  ready w site_lyr stream_lyr site streams ->
  List.NoDup (map OBJECTID streams) ->
  nearest streams site tolerance = [s0] ->
  same_order_chain streams (StrahlerOr s0) s0 path ->
  successor streams (last_visited s0 path) = Some b ->
  (StrahlerOr s0 < StrahlerOr b)%Z ->
  length path < fuel ->
  lengths_read w stream_lyr path lens ->
  SHAPE (last_visited s0 path) = Some g ->
  let p := firstPoint g in
  exists w' : World,
    FindDownstreamPoint fuel site_lyr stream_lyr tolerance w =
    (Ok (PyXY (X p) (Y p)), w') /\
    emits w w'
      (trace_messages (StrahlerOr s0) (length path) (StrahlerOr b)
         (fold_left Fadd lens Fzero) p).
Proof.
  intros Hr Hnd Hn Hch Hs Hlt Hfuel Hlens Hg p.
  destruct (ready_stream_layer _ _ _ _ _ Hr) as (fields & sel & Hl & Hv).
  destruct (find_along_chain _ _ tolerance _ _ _ _ _ _ _ _ (fuel - length path)
              Hr Hl Hv Hn Hch Hlens)
    as (w1 & sel1 & Hl1 & He1 & Hfind).
  replace (length path + (fuel - length path)) with fuel in Hfind by lia.
  rewrite Hfind.
  destruct (fuel - length path) as [|k] eqn:Hk; [lia|].
  unfold bind at 1. rewrite (swim_turn _ _ _ _ _ _ _ _ _ _ Hl1 Hv). cbv zeta.
  rewrite Hs.
  destruct (Z.eqb_spec (StrahlerOr b) (StrahlerOr s0)) as [e|_]; [lia|].
  destruct (Z.gtb_spec (StrahlerOr b) (StrahlerOr s0)) as [_|n]; [|lia].
  rewrite (last_visited_id path s0 [OBJECTID s0] eq_refl).
  rewrite (select_by_id_unique _ _ Hnd
             (last_visited_In _ _ _ _ (nearest_In _ _ _ _ Hn) Hch)).
  erewrite after_swim_one; [|simpl; apply lookup_insert_eq].
  rewrite Hg. cbv zeta. eexists. split; [reflexivity|].
  unfold trace_messages. eapply emits_trans; [exact He1|].
  unfold emits. simpl. rewrite <- !app_assoc. auto.
Qed.

(** The chain ends at a segment of lower order: the trace returns [False]. *)
Lemma trace_to_inversion (site_lyr stream_lyr : string) (tolerance : Tol)
    (site : Site) (streams : list Segment) (s0 b : Segment)
    (path : list Segment) (lens : list F) (w : World) (fuel : nat) :
  ready w site_lyr stream_lyr site streams ->
  nearest streams site tolerance = [s0] ->
  same_order_chain streams (StrahlerOr s0) s0 path ->
  successor streams (last_visited s0 path) = Some b ->
  (StrahlerOr b < StrahlerOr s0)%Z ->
  length path < fuel ->
  lengths_read w stream_lyr path lens ->
  exists w' : World,
    FindDownstreamPoint fuel site_lyr stream_lyr tolerance w = (Ok PyFalse, w') /\
    emits w w' (hop_messages (StrahlerOr s0) (length path) ++ [ErrOrderLess]).
Proof.
  intros Hr Hn Hch Hs Hlt Hfuel Hlens.
  destruct (ready_stream_layer _ _ _ _ _ Hr) as (fields & sel & Hl & Hv).
  destruct (find_along_chain _ _ tolerance _ _ _ _ _ _ _ _ (fuel - length path)
              Hr Hl Hv Hn Hch Hlens)
    as (w1 & sel1 & Hl1 & He1 & Hfind).
  replace (length path + (fuel - length path)) with fuel in Hfind by lia.
  rewrite Hfind.
  destruct (fuel - length path) as [|k] eqn:Hk; [lia|].
  unfold bind at 1. rewrite (swim_turn _ _ _ _ _ _ _ _ _ _ Hl1 Hv). cbv zeta.
  rewrite Hs.
  destruct (Z.eqb_spec (StrahlerOr b) (StrahlerOr s0)) as [e|_]; [lia|].
  destruct (Z.gtb_spec (StrahlerOr b) (StrahlerOr s0)) as [g|_]; [lia|].
  eexists. split; [reflexivity|]. auto with emits.
Qed.

(** Nothing leaves the end of the chain: the subscript on the empty
    dictionary raises. *)
Lemma trace_to_sink (site_lyr stream_lyr : string) (tolerance : Tol)
    (site : Site) (streams : list Segment) (s0 : Segment)
    (path : list Segment) (lens : list F) (w : World) (fuel : nat) :
  ready w site_lyr stream_lyr site streams ->
  nearest streams site tolerance = [s0] ->
  same_order_chain streams (StrahlerOr s0) s0 path ->
  successor streams (last_visited s0 path) = None ->
  length path < fuel ->
  lengths_read w stream_lyr path lens ->
  exists w' : World,
    FindDownstreamPoint fuel site_lyr stream_lyr tolerance w =
    (Raise (KeyError "StrahlerOr"), w') /\
    emits w w' (hop_messages (StrahlerOr s0) (length path)).
Proof.
  intros Hr Hn Hch Hs Hfuel Hlens.
  destruct (ready_stream_layer _ _ _ _ _ Hr) as (fields & sel & Hl & Hv).
  destruct (find_along_chain _ _ tolerance _ _ _ _ _ _ _ _ (fuel - length path)
              Hr Hl Hv Hn Hch Hlens)
    as (w1 & sel1 & Hl1 & He1 & Hfind).
  replace (length path + (fuel - length path)) with fuel in Hfind by lia.
  rewrite Hfind.
  destruct (fuel - length path) as [|k] eqn:Hk; [lia|].
  unfold bind at 1. rewrite (swim_turn _ _ _ _ _ _ _ _ _ _ Hl1 Hv). cbv zeta.
  rewrite Hs.
  eexists. split; [reflexivity|]. auto with emits.
Qed.

(** ** Where the trace ends *)

Lemma PyXY_of_point_inj (p q : Point) :
  PyXY (X p) (Y p) = PyXY (X q) (Y q) -> p = q.
Proof. destruct p, q. simpl. intros E. injection E as -> ->. reflexivity. Qed.

(** C1.  When a trace ends because the next downstream segment has a
    strictly higher Strahler order than the starting segment, the returned
    coordinate is the first point of the last same-order segment visited,
    whose object id is the final element of the visited sequence.  It is no
    other point: not that segment's last point, nor an end point of the
    higher-order segment, wherever those differ from it.  Such a trace has
    read a length off every segment it visited after the first ([lens]) and
    the geometry [g] of the last one. *)
Theorem C1_boundary_returns_first_point_of_last_visited
    (site_lyr stream_lyr : string) (tolerance : Tol)
    (site : Site) (streams : list Segment) (s0 b : Segment)
    (path : list Segment) (lens : list F) (g : Polyline)
    (w : World) (fuel : nat) :
  ready w site_lyr stream_lyr site streams ->
  List.NoDup (map OBJECTID streams) ->
  nearest streams site tolerance = [s0] ->
  same_order_chain streams (StrahlerOr s0) s0 path ->
  successor streams (last_visited s0 path) = Some b ->
  (StrahlerOr s0 < StrahlerOr b)%Z ->
  length path < fuel ->
  lengths_read w stream_lyr path lens ->
  SHAPE (last_visited s0 path) = Some g ->
  let v := last_visited s0 path in
  let r := fst (FindDownstreamPoint fuel site_lyr stream_lyr tolerance w) in
  last ([OBJECTID s0] ++ map OBJECTID path) = Some (OBJECTID v) /\
  r = Ok (PyXY (X (firstPoint g)) (Y (firstPoint g))) /\
  (forall q : Point, q <> firstPoint g -> r <> Ok (PyXY (X q) (Y q))).
Proof.
  intros Hr Hnd Hn Hch Hs Hlt Hfuel Hlens Hg v r.
  destruct (trace_to_boundary _ _ _ _ _ _ _ _ _ _ _ _
              Hr Hnd Hn Hch Hs Hlt Hfuel Hlens Hg)
    as (w' & Hfind & _).
  assert (Hres : r = Ok (PyXY (X (firstPoint g)) (Y (firstPoint g)))).
  { unfold r. rewrite Hfind. reflexivity. }
  split; [apply last_visited_id; reflexivity|].
  split; [exact Hres|].
  intros q Hq Hrq. apply Hq. rewrite Hres in Hrq.
  injection Hrq as Hx Hy. symmetry. apply PyXY_of_point_inj. congruence.
Qed.

(** C2.  On a chain of same-order segments that ends at a segment of
    strictly higher order, the trace reports as total distance the lengths
    of the segments visited after the starting one, added up in the order of
    the visit from 0: the starting segment and the higher-order segment add
    nothing.  The coordinate it returns is the first point of the last
    same-order segment.  (On orders [2,2,2,3] with lengths [10,20,30,5]: 50
    and the first point of the third segment.)  [lens] are the lengths of
    the segments of the chain and [g] is the geometry of its last segment. *)
Theorem C2_total_distance_sums_hops_after_start
    (site_lyr stream_lyr : string) (tolerance : Tol)
    (site : Site) (streams : list Segment) (s0 b : Segment)
    (path : list Segment) (lens : list F) (g : Polyline)
    (w : World) (fuel : nat) :
  ready w site_lyr stream_lyr site streams ->
  List.NoDup (map OBJECTID streams) ->
  nearest streams site tolerance = [s0] ->
  same_order_chain streams (StrahlerOr s0) s0 path ->
  successor streams (last_visited s0 path) = Some b ->
  (StrahlerOr s0 < StrahlerOr b)%Z ->
  length path < fuel ->
  lengths_read w stream_lyr path lens ->
  SHAPE (last_visited s0 path) = Some g ->
  let total := fold_left Fadd lens Fzero in
  let p := firstPoint g in
  exists w' : World,
    FindDownstreamPoint fuel site_lyr stream_lyr tolerance w =
    (Ok (PyXY (X p) (Y p)), w') /\
    messages w' =
    messages w ++
    [MsgFindingNearest; MsgStreamSelected 1; MsgInitialOrder (StrahlerOr s0);
     MsgSwimming]
    ++ repeat MsgKeepSwimming (length path)
    ++ [MsgFinalReached; MsgBacktracking; MsgStrahlerOrder (StrahlerOr b);
        MsgTotalDistance total; MsgGettingCoords; MsgXY (X p) (Y p)].
Proof.
  intros Hr Hnd Hn Hch Hs Hlt Hfuel Hlens Hg total p.
  destruct (trace_to_boundary _ _ _ _ _ _ _ _ _ _ _ _
              Hr Hnd Hn Hch Hs Hlt Hfuel Hlens Hg)
    as (w' & Hfind & Hm & _).
  exists w'. split; [exact Hfind|].
  rewrite Hm. unfold trace_messages, hop_messages.
  rewrite <- !app_assoc. reflexivity.
Qed.

(** C8.  When the first successor of the starting segment already has a
    strictly higher order, the trace ends without a single "keep swimming"
    hop, reports the total distance 0 and returns the first point of the
    starting segment itself.  (The starting segment has a geometry, [g],
    since it lies within the tolerance of the site; no length is read, so
    the stream table need not have the field Shape_Length.) *)
Theorem C8_immediate_boundary_returns_start_of_start
    (site_lyr stream_lyr : string) (tolerance : Tol)
    (site : Site) (streams : list Segment) (s0 b : Segment)
    (w : World) (fuel : nat) :
  ready w site_lyr stream_lyr site streams ->
  List.NoDup (map OBJECTID streams) ->
  nearest streams site tolerance = [s0] ->
  successor streams s0 = Some b ->
  (StrahlerOr s0 < StrahlerOr b)%Z ->
  0 < fuel ->
  exists (g : Polyline) (w' : World),
    SHAPE s0 = Some g /\
    let p := firstPoint g in
    FindDownstreamPoint fuel site_lyr stream_lyr tolerance w =
    (Ok (PyXY (X p) (Y p)), w') /\
    messages w' =
    messages w ++
    [MsgFindingNearest; MsgStreamSelected 1; MsgInitialOrder (StrahlerOr s0);
     MsgSwimming; MsgFinalReached; MsgBacktracking;
     MsgStrahlerOrder (StrahlerOr b); MsgTotalDistance Fzero;
     MsgGettingCoords; MsgXY (X p) (Y p)] /\
    ~ In MsgKeepSwimming
        (skipn (length (messages w)) (messages w')).
Proof.
  intros Hr Hnd Hn Hs Hlt Hfuel.
  destruct (nearest_geometry _ _ _ _ Hn) as [g Hg].
  assert (Hlens : lengths_read w stream_lyr [] []).
  { split; [reflexivity|]. intros Hne. contradiction. }
  destruct (trace_to_boundary site_lyr stream_lyr tolerance site streams s0 b []
              [] g w fuel Hr Hnd Hn I Hs Hlt Hfuel Hlens Hg)
    as (w' & Hfind & Hm & _).
  exists g, w'. split; [exact Hg|]. cbv zeta. split; [exact Hfind|].
  split; [exact Hm|].
  rewrite Hm. rewrite skipn_app, Nat.sub_diag, skipn_all. simpl.
  intuition discriminate.
Qed.

(** ** When the loop stops *)

(** The outcome of the code after the loop is never that of a loop still
    running. *)
Lemma after_swim_stops (lyr : string) (r : option PyVal) (w : World) :
  fst (after_swim lyr r w) <> OutOfFuel.
Proof.
  destruct r as [v|]; [discriminate|].
  unfold after_swim. rewrite bind_AddMessage.
  unfold SearchCursor_SHAPE, get_layer. unfold bind at 1. unfold bind at 1.
  destruct (layers (log MsgGettingCoords w) !! lyr) as [l|]; [|discriminate].
  cbn [ret]. unfold bind at 1, last_firstPoint.
  destruct (cursor_firstPoint_cases (selected_shapes l) None
              (log MsgGettingCoords w)) as [[p H]|[H|(_ & _ & H)]];
    rewrite H; discriminate.
Qed.

(** If some segment of another order lies [n] hops downstream and the
    lengths on the way can be read, the trace stops on enough fuel. *)
Lemma swim_reaches (lyr : string) (init : Z) (fields : list string)
    (streams : list Segment) (d : Segment) (n : nat) :
  forall (s : Segment) (vis : list Z) (len : F) (w : World) (sel : list Segment),
  layers w !! lyr = Some (StreamLayer fields streams sel) ->
  validated fields ->
  has_field "Shape_Length" fields = true ->
  (forall k x, hops streams (S k) s = Some x -> Shape_Length x <> None) ->
  StrahlerOr s = init ->
  hops streams n s = Some d ->
  StrahlerOr d <> init ->
  exists fuel : nat,
    fst (bind (swim fuel lyr init (DictSegment fields s) vis len) (after_swim lyr) w)
    <> OutOfFuel.
Proof.
  induction n as [|n IH]; intros s vis len w sel Hl Hv Hf Hlen Ho Hh Hd.
  - simpl in Hh. injection Hh as <-. contradiction.
  - simpl in Hh. destruct (successor streams s) as [s1|] eqn:Hs; [|discriminate].
    destruct (Z.eqb_spec (StrahlerOr s1) init) as [e|ne].
    + destruct (Shape_Length s1) as [l|] eqn:Hl1.
      2:{ exfalso. apply (Hlen 0 s1); [simpl; rewrite Hs; reflexivity | exact Hl1]. }
      destruct (IH s1 (vis ++ [OBJECTID s1]) (Fadd len l)
                  (log MsgKeepSwimming
                     (reselect lyr fields streams (leaving streams (TO_NODE s)) w))
                  (leaving streams (TO_NODE s)))
        as (fuel & Hrun); try assumption.
      { apply layers_reselect. }
      { intros k x Hx. apply (Hlen (S k) x).
        change (hops streams (S (S k)) s) with
          (match successor streams s with
           | Some d0 => hops streams (S k) d0
           | None => None
           end).
        rewrite Hs. exact Hx. }
      exists (S fuel).
      unfold bind at 1. rewrite (swim_turn _ _ _ _ _ _ _ _ _ _ Hl Hv). cbv zeta.
      rewrite Hs. rewrite (proj2 (Z.eqb_eq _ _) e), Hf, Hl1. exact Hrun.
    + exists 1.
      unfold bind at 1. rewrite (swim_turn _ _ _ _ _ _ _ _ _ _ Hl Hv). cbv zeta.
      rewrite Hs. rewrite (proj2 (Z.eqb_neq _ _) ne).
      destruct (StrahlerOr s1 >? init)%Z; [|discriminate].
      destruct (last vis) as [back|]; [|discriminate].
      apply after_swim_stops.
Qed.

(** If the trace stops on a chain that never runs out and whose lengths can
    be read, some segment of another order lies downstream. *)
Lemma swim_stops (lyr : string) (init : Z) (fields : list string)
    (streams : list Segment) (fuel : nat) :
  forall (s : Segment) (vis : list Z) (len : F) (w : World) (sel : list Segment),
  layers w !! lyr = Some (StreamLayer fields streams sel) ->
  validated fields ->
  has_field "Shape_Length" fields = true ->
  (forall k x, hops streams (S k) s = Some x -> Shape_Length x <> None) ->
  (forall k, exists x, hops streams k s = Some x) ->
  fst (bind (swim fuel lyr init (DictSegment fields s) vis len) (after_swim lyr) w)
  <> OutOfFuel ->
  exists (n : nat) (d : Segment),
    hops streams n s = Some d /\ StrahlerOr d <> init.
Proof.
  induction fuel as [|fuel IH]; intros s vis len w sel Hl Hv Hf Hlen Hnext Hrun.
  - exfalso. apply Hrun. reflexivity.
  - unfold bind at 1 in Hrun. rewrite (swim_turn _ _ _ _ _ _ _ _ _ _ Hl Hv) in Hrun.
    cbv zeta in Hrun.
    destruct (Hnext 1) as (s1 & Hh). simpl in Hh.
    destruct (successor streams s) as [s1'|] eqn:Hs; [|discriminate].
    injection Hh as ->.
    destruct (Z.eqb_spec (StrahlerOr s1) init) as [e|ne].
    + rewrite Hf in Hrun.
      destruct (Shape_Length s1) as [l|] eqn:Hl1.
      2:{ exfalso. apply (Hlen 0 s1); [simpl; rewrite Hs; reflexivity | exact Hl1]. }
      destruct (IH s1 (vis ++ [OBJECTID s1]) (Fadd len l)
                  (log MsgKeepSwimming
                     (reselect lyr fields streams (leaving streams (TO_NODE s)) w))
                  (leaving streams (TO_NODE s))
                  (layers_reselect _ _ _ _ _) Hv Hf) as (n & d & Hh & Hd).
      { intros k x Hx. apply (Hlen (S k) x).
        change (hops streams (S (S k)) s) with
          (match successor streams s with
           | Some d0 => hops streams (S k) d0
           | None => None
           end).
        rewrite Hs. exact Hx. }
      { intros k. destruct (Hnext (S k)) as (x & Hx).
        simpl in Hx. rewrite Hs in Hx. eauto. }
      { exact Hrun. }
      exists (S n), d. simpl. rewrite Hs. auto.
    + exists 1, s1. simpl. rewrite Hs. auto.
Qed.

(** If every segment downstream has the order of the start and a length, no
    amount of fuel is enough. *)
Lemma swim_forever (lyr : string) (init : Z) (fields : list string)
    (streams : list Segment) (fuel : nat) :
  forall (s : Segment) (vis : list Z) (len : F) (w : World) (sel : list Segment),
  layers w !! lyr = Some (StreamLayer fields streams sel) ->
  validated fields ->
  has_field "Shape_Length" fields = true ->
  (forall k x, hops streams (S k) s = Some x -> Shape_Length x <> None) ->
  (forall n, exists d, hops streams n s = Some d /\ StrahlerOr d = init) ->
  fst (bind (swim fuel lyr init (DictSegment fields s) vis len) (after_swim lyr) w)
  = OutOfFuel.
Proof.
  induction fuel as [|fuel IH]; intros s vis len w sel Hl Hv Hf Hlen Hall.
  - reflexivity.
  - unfold bind at 1. rewrite (swim_turn _ _ _ _ _ _ _ _ _ _ Hl Hv). cbv zeta.
    destruct (Hall 1) as (s1 & Hh & Ho). simpl in Hh.
    destruct (successor streams s) as [s1'|] eqn:Hs; [|discriminate].
    injection Hh as ->. rewrite Ho, Z.eqb_refl, Hf.
    destruct (Shape_Length s1) as [l|] eqn:Hl1.
    2:{ exfalso. apply (Hlen 0 s1); [simpl; rewrite Hs; reflexivity | exact Hl1]. }
    apply (IH s1 (vis ++ [OBJECTID s1]) (Fadd len l)
             (log MsgKeepSwimming
                (reselect lyr fields streams (leaving streams (TO_NODE s)) w))
             (leaving streams (TO_NODE s)) (layers_reselect _ _ _ _ _) Hv Hf).
    + intros k x Hx. apply (Hlen (S k) x).
      change (hops streams (S (S k)) s) with
        (match successor streams s with
         | Some d0 => hops streams (S k) d0
         | None => None
         end).
      rewrite Hs. exact Hx.
    + intros n. destruct (Hall (S n)) as (d & Hd & Hod).
      simpl in Hd. rewrite Hs in Hd. eauto.
Qed.

Lemma hops_In (streams : list Segment) (n : nat) :
  forall s x, In s streams -> hops streams n s = Some x -> In x streams.
Proof.
  induction n as [|n IH]; intros s x Hin Hh.
  - injection Hh as <-. exact Hin.
  - simpl in Hh. destruct (successor streams s) as [d|] eqn:Hs; [|discriminate].
    apply (IH d x); [eapply successor_In; exact Hs | exact Hh].
Qed.

(** C9, as the code has it.  The loop has no bound on its hops.  Take a
    stream table with the field Shape_Length and a length on every segment
    downstream of the starting one.  If, some finite number of hops
    downstream, there is a segment whose Strahler order differs from the
    initial order, the trace stops.  Along a chain on which every segment has
    a next one, it stops in no other case.  And when every segment downstream
    has the initial order, as round a same-order cycle, the trace never
    stops.  Nothing is said of a chain that runs out at a segment nothing
    leaves. *)
Theorem C9_trace_stops_iff_order_changes_on_endless_chain
    (site_lyr stream_lyr : string) (tolerance : Tol)
    (site : Site) (streams : list Segment) (s0 : Segment) (w : World) :
  ready w site_lyr stream_lyr site streams ->
  nearest streams site tolerance = [s0] ->
  length_field w stream_lyr ->
  (forall k x, hops streams (S k) s0 = Some x -> Shape_Length x <> None) ->
  let stops :=
    exists fuel : nat,
      fst (FindDownstreamPoint fuel site_lyr stream_lyr tolerance w) <> OutOfFuel in
  let order_changes :=
    exists (n : nat) (d : Segment),
      hops streams n s0 = Some d /\ StrahlerOr d <> StrahlerOr s0 in
  (order_changes -> stops) /\
  ((forall n, exists d, hops streams n s0 = Some d) -> stops -> order_changes) /\
  ((forall n, exists d,
      hops streams n s0 = Some d /\ StrahlerOr d = StrahlerOr s0) ->
   forall fuel : nat,
     fst (FindDownstreamPoint fuel site_lyr stream_lyr tolerance w) = OutOfFuel).
Proof.
  intros Hr Hn Hlf Hlen stops order_changes.
  destruct (ready_stream_layer _ _ _ _ _ Hr) as (fields & sel & Hw & Hv).
  assert (Hf : has_field "Shape_Length" fields = true).
  { destruct Hlf as (fields' & all' & sel' & Hw' & Hh).
    rewrite Hw in Hw'. injection Hw' as -> _ _. exact Hh. }
  assert (Hl := stream_layer_at_loop_entry stream_lyr fields streams s0 w (proj1 Hr)).
  split; [|split].
  - intros (n & d & Hh & Hd).
    destruct (swim_reaches stream_lyr (StrahlerOr s0) fields streams d n s0
                [OBJECTID s0] Fzero _ _ Hl Hv Hf Hlen eq_refl Hh Hd)
      as (fuel & Hrun).
    exists fuel. rewrite (find_resolved _ _ _ _ _ _ _ _ _ _ Hr Hw Hv Hn).
    exact Hrun.
  - intros Hnext (fuel & Hrun).
    rewrite (find_resolved _ _ _ _ _ _ _ _ _ _ Hr Hw Hv Hn) in Hrun.
    exact (swim_stops _ _ _ _ _ _ _ _ _ _ Hl Hv Hf Hlen Hnext Hrun).
  - intros Hall fuel. rewrite (find_resolved _ _ _ _ _ _ _ _ _ _ Hr Hw Hv Hn).
    exact (swim_forever _ _ _ _ _ _ _ _ _ _ Hl Hv Hf Hlen Hall).
Qed.

(** ** The preparation in [Main] *)

Lemma issubset_true (small big : list string) :
  issubset small big = true <-> (forall f, In f small -> In f big).
Proof.
  unfold issubset. rewrite forallb_forall. split; intros Hs f Hf.
  - apply Hs in Hf. apply existsb_exists in Hf as (g & Hg & Heq).
    apply String.eqb_eq in Heq. subst g. exact Hg.
  - apply existsb_exists. exists f. split; [auto|apply String.eqb_refl].
Qed.

Lemma random_join_run (n : nat) :
  forall w : World,
  random_join n w = (Ok (name_from (rng w) (rng_pos w) n), after_draws n w).
Proof.
  induction n as [|n IH]; intros w; [reflexivity|].
  simpl random_join. unfold bind at 1. unfold random_choice at 1.
  unfold bind at 1. rewrite IH. reflexivity.
Qed.

Lemma after_draws_fields (n : nat) :
  forall w : World,
  layers (after_draws n w) = layers w /\
  out_fc (after_draws n w) = out_fc w /\
  messages (after_draws n w) = messages w /\
  rng (after_draws n w) = rng w /\
  rng_pos (after_draws n w) = rng_pos w + n.
Proof.
  induction n as [|n IH]; intros w; simpl.
  - rewrite Nat.add_0_r. auto.
  - destruct (IH (advance_rng w)) as (a & b & c & d & e).
    rewrite a, b, c, d, e. simpl. repeat split; lia.
Qed.

Lemma list_site_ids_run (ids : list Z) :
  forall w : World,
  list_site_ids ids w = (Ok tt, fold_left (fun v s => log (MsgSiteId s) v) ids w).
Proof.
  induction ids as [|s ids IH]; intros w; [reflexivity|].
  simpl list_site_ids. rewrite bind_AddMessage. apply IH.
Qed.

Lemma fold_log_fields (ms : list Msg) :
  forall w : World,
  layers (fold_left (fun v m => log m v) ms w) = layers w /\
  out_fc (fold_left (fun v m => log m v) ms w) = out_fc w /\
  messages (fold_left (fun v m => log m v) ms w) = messages w ++ ms /\
  rng (fold_left (fun v m => log m v) ms w) = rng w /\
  rng_pos (fold_left (fun v m => log m v) ms w) = rng_pos w.
Proof.
  induction ms as [|m ms IH]; intros w; simpl.
  - rewrite app_nil_r. auto.
  - destruct (IH (log m w)) as (a & b & c & d & e).
    rewrite a, b, c, d, e. simpl. rewrite <- app_assoc. auto.
Qed.

Lemma fold_log_site_ids (ids : list Z) (w : World) :
  fold_left (fun v s => log (MsgSiteId s) v) ids w =
  fold_left (fun v m => log m v) (map MsgSiteId ids) w.
Proof. revert w. induction ids as [|s ids IH]; intros w; simpl; auto. Qed.

Lemma Main_fields_missing (fuel : nat) (sites : list Site) (streams : StreamFC)
    (tolerance : Tol) (w : World) :
  issubset req_fields (fc_fields streams) = false ->
  Main fuel sites streams tolerance w =
  (Ok RetFalse,
   log ErrFieldsNotCompatible
     (log MsgValidating
        (log MsgOutputFile (log MsgOutputDirectory (log MsgPreparingData w))))).
Proof.
  intros Hf. unfold Main, ValidateInputStreams.
  rewrite !bind_AddMessage. unfold bind at 1. rewrite bind_AddMessage.
  rewrite Hf. reflexivity.
Qed.

Lemma Main_fields_present (fuel : nat) (sites : list Site) (streams : StreamFC)
    (tolerance : Tol) (w : World) :
  issubset req_fields (fc_fields streams) = true ->
  Main fuel sites streams tolerance w =
  bind (for_sites fuel sites (name_from (rng w) (rng_pos w) 7) tolerance
          (map site_OBJECTID sites))
    after_sites (at_iteration sites streams w).
Proof.
  intros Hf. unfold Main, ValidateInputStreams.
  rewrite !bind_AddMessage. unfold bind at 1. rewrite bind_AddMessage.
  rewrite Hf. rewrite bind_AddMessage. unfold ret at 1. cbv beta iota.
  erewrite bind_Ok; [|apply random_join_run].
  unfold bind at 1. unfold put_layer at 1.
  erewrite bind_Ok;
    [|apply count_selected; simpl; apply lookup_insert_eq].
  rewrite !bind_AddMessage. unfold bind at 1.
  unfold CreateFeatureclass_management at 1.
  rewrite bind_AddMessage.
  erewrite bind_Ok; [|apply list_site_ids_run].
  reflexivity.
Qed.

Lemma at_iteration_fields (sites : list Site) (streams : StreamFC) (w : World) :
  let w' := at_iteration sites streams w in
  out_fc w' = Some [] /\
  layers w' !! name_from (rng w) (rng_pos w) 7 =
    Some (StreamLayer (fc_fields streams) (fc_rows streams) (fc_rows streams)) /\
  messages w' =
    messages w ++
    [MsgPreparingData; MsgOutputDirectory; MsgOutputFile; MsgValidating;
     MsgFieldsCompatible; MsgStreamCount (length (fc_rows streams));
     MsgPreparingResults; MsgSiteIdList]
    ++ map MsgSiteId (map site_OBJECTID sites) /\
  rng w' = rng w /\ rng_pos w' = rng_pos w + 7.
Proof.
  unfold at_iteration. cbv zeta. rewrite fold_log_site_ids.
  match goal with
  | |- context [fold_left _ ?ms ?v] =>
      pose proof (fold_log_fields ms v) as Hx
  end.
  destruct Hx as (a & b & c & d & e).
  rewrite a, b, c, d, e. clear a b c d e. simpl.
  rewrite lookup_insert_eq. rewrite <- !app_assoc. simpl.
  repeat split; lia.
Qed.

(** C7.  If one of the fields OBJECTID, StrahlerOr, FROM_NODE, TO_NODE is
    missing from the stream feature class, [Main] reports the error and
    returns [False] at once: no layer is made, no site is looked at, and the
    output feature class is not created.  If all four are there, the check
    passes, and the iteration over the sites starts in a world in which the
    output feature class has been created, empty, and no site has been
    looked at yet. *)
Theorem C7_missing_field_aborts_before_output
    (fuel : nat) (sites : list Site) (streams : StreamFC)
    (tolerance : Tol) (w : World) :
  ((exists f, In f req_fields /\ ~ In f (fc_fields streams)) ->
   exists w' : World,
     Main fuel sites streams tolerance w = (Ok RetFalse, w') /\
     out_fc w' = out_fc w /\ layers w' = layers w /\
     rng_pos w' = rng_pos w /\
     messages w' =
       messages w ++
       [MsgPreparingData; MsgOutputDirectory; MsgOutputFile; MsgValidating;
        ErrFieldsNotCompatible])
  /\
  ((forall f, In f req_fields -> In f (fc_fields streams)) ->
   exists (stream_lyr : string) (w' : World),
     Main fuel sites streams tolerance w =
       bind (for_sites fuel sites stream_lyr tolerance (map site_OBJECTID sites))
         after_sites w' /\
     out_fc w' = Some [] /\
     layers w' !! stream_lyr =
       Some (StreamLayer (fc_fields streams) (fc_rows streams) (fc_rows streams)) /\
     messages w' =
       messages w ++
       [MsgPreparingData; MsgOutputDirectory; MsgOutputFile; MsgValidating;
        MsgFieldsCompatible; MsgStreamCount (length (fc_rows streams));
        MsgPreparingResults; MsgSiteIdList]
       ++ map MsgSiteId (map site_OBJECTID sites)).
Proof.
  split.
  - intros (f & Hin & Hnot).
    assert (Hf : issubset req_fields (fc_fields streams) = false).
    { destruct (issubset req_fields (fc_fields streams)) eqn:E; [|reflexivity].
      exfalso. apply Hnot. exact (proj1 (issubset_true _ _) E f Hin). }
    eexists. split; [apply Main_fields_missing; exact Hf|].
    simpl. rewrite <- !app_assoc. auto.
  - intros Hall. apply issubset_true in Hall.
    exists (name_from (rng w) (rng_pos w) 7), (at_iteration sites streams w).
    split; [apply Main_fields_present; exact Hall|].
    destruct (at_iteration_fields sites streams w) as (a & b & c & _).
    auto.
Qed.

(** ** One site in the loop of [Main] *)

Lemma labels_of_site_layer (lyr : string) (all sel : list Site) (w : World) :
  layers w !! lyr = Some (SiteLayer all sel) ->
  SearchCursor_Sites lyr w = (Ok (map site_Sites sel), w).
Proof.
  intros E. unfold SearchCursor_Sites.
  rewrite (bind_Ok _ _ _ _ _ (get_layer_Some _ _ _ E)). reflexivity.
Qed.

(** When the object id selects one site, the body of the loop comes down to
    the trace and what follows it. *)
Lemma site_body_calls_trace (fuel : nat) (sites : list Site) (stream_lyr : string)
    (tolerance : Tol) (s : Z) (site : Site) (w : World) :
  List.filter (fun p => (site_OBJECTID p =? s)%Z) sites = [site] ->
  site_body fuel sites stream_lyr tolerance s w =
  bind (FindDownstreamPoint fuel (name_from (rng w) (rng_pos w) 7) stream_lyr tolerance)
    (after_trace (name_from (rng w) (rng_pos w) 7) (replace_spaces (site_Sites site)))
    (at_trace_call s site w).
Proof.
  intros Hsel. unfold site_body.
  rewrite !bind_AddMessage.
  erewrite bind_Ok; [|apply random_join_run].
  cbv zeta. rewrite Hsel.
  unfold bind at 1. unfold put_layer at 1.
  erewrite bind_Ok;
    [|apply labels_of_site_layer with (all := [site]) (sel := [site]);
      simpl; apply lookup_insert_eq].
  cbn [map getitem_first]. rewrite bind_ret.
  erewrite bind_Ok; [|apply count_selected; simpl; apply lookup_insert_eq].
  cbn [selected_count length Nat.eqb].
  rewrite bind_AddMessage. reflexivity.
Qed.

(** The trace is called in a state that is [ready], unless the site layer
    took the name of the stream layer. *)
Lemma ready_at_trace_call (stream_lyr : string) (fields : list string)
    (streams sel : list Segment) (s : Z) (site : Site) (w : World) :
  layers w !! stream_lyr = Some (StreamLayer fields streams sel) ->
  validated fields ->
  name_from (rng w) (rng_pos w) 7 <> stream_lyr ->
  stream_lyr <> "start"%string ->
  ready (at_trace_call s site w) (name_from (rng w) (rng_pos w) 7) stream_lyr
    site streams.
Proof.
  intros Hl Hv Hne Hst. split; [exact Hst|].
  unfold at_trace_call. simpl. split.
  - exists [site]. apply lookup_insert_eq.
  - exists fields, sel. rewrite lookup_insert_ne by exact Hne. auto.
Qed.

(** The lengths the trace can read off the stream layer when it is called. *)
Lemma lengths_read_at_trace_call (stream_lyr : string) (fields : list string)
    (streams sel : list Segment) (s : Z) (site : Site) (w : World)
    (path : list Segment) (lens : list F) :
  layers w !! stream_lyr = Some (StreamLayer fields streams sel) ->
  name_from (rng w) (rng_pos w) 7 <> stream_lyr ->
  map Shape_Length path = map Some lens ->
  (path <> [] -> has_field "Shape_Length" fields = true) ->
  lengths_read (at_trace_call s site w) stream_lyr path lens.
Proof.
  intros Hl Hne Hlens Hf. split; [exact Hlens|].
  intros Hp. exists fields, streams, sel. split; [|exact (Hf Hp)].
  unfold at_trace_call. simpl. rewrite lookup_insert_ne by exact Hne. exact Hl.
Qed.

(** Whatever the trace returns, a coordinate or [False], goes to the insert
    cursor with the label of the site, and the loop goes on. *)
Lemma site_body_writes_what_the_trace_returns (fuel : nat) (sites : list Site)
    (stream_lyr : string) (tolerance : Tol) (s : Z) (site : Site)
    (w w' : World) (xy : PyVal) (rows : list Row) :
  List.filter (fun p => (site_OBJECTID p =? s)%Z) sites = [site] ->
  FindDownstreamPoint fuel (name_from (rng w) (rng_pos w) 7) stream_lyr tolerance
    (at_trace_call s site w) = (Ok xy, w') ->
  out_fc w' = Some rows ->
  exists w'' : World,
    site_body fuel sites stream_lyr tolerance s w = (Ok None, w'') /\
    out_fc w'' = Some (rows ++ [(xy, replace_spaces (site_Sites site))]).
Proof.
  intros Hsel Hfind Ho.
  rewrite (site_body_calls_trace _ _ _ _ _ _ _ Hsel).
  rewrite (bind_Ok _ _ _ _ _ Hfind).
  unfold after_trace. rewrite bind_AddMessage.
  unfold bind at 1. unfold insertRow at 1. simpl out_fc. rewrite Ho.
  rewrite bind_AddMessage.
  eexists. split; [reflexivity|]. reflexivity.
Qed.

(** So a site whose chain runs into a segment of lower order gets the row
    [[False, label]]. *)
Lemma site_body_after_inversion (fuel : nat) (sites : list Site)
    (stream_lyr : string) (tolerance : Tol) (s : Z) (site : Site)
    (fields : list string) (streams sel : list Segment) (s0 b : Segment)
    (path : list Segment) (lens : list F) (w : World) (rows : list Row) :
  List.filter (fun p => (site_OBJECTID p =? s)%Z) sites = [site] ->
  layers w !! stream_lyr = Some (StreamLayer fields streams sel) ->
  validated fields ->
  name_from (rng w) (rng_pos w) 7 <> stream_lyr ->
  stream_lyr <> "start"%string ->
  out_fc w = Some rows ->
  nearest streams site tolerance = [s0] ->
  same_order_chain streams (StrahlerOr s0) s0 path ->
  successor streams (last_visited s0 path) = Some b ->
  (StrahlerOr b < StrahlerOr s0)%Z ->
  length path < fuel ->
  map Shape_Length path = map Some lens ->
  (path <> [] -> has_field "Shape_Length" fields = true) ->
  exists w' : World,
    site_body fuel sites stream_lyr tolerance s w = (Ok None, w') /\
    out_fc w' = Some (rows ++ [(PyFalse, replace_spaces (site_Sites site))]).
Proof.
  intros Hsel Hl Hv Hne Hst Ho Hn Hch Hs Hlt Hfuel Hlens Hf.
  destruct (trace_to_inversion _ _ tolerance _ _ _ _ _ _ _ fuel
              (ready_at_trace_call _ _ _ _ s site _ Hl Hv Hne Hst) Hn Hch Hs Hlt Hfuel
              (lengths_read_at_trace_call _ _ _ _ s site _ _ _ Hl Hne Hlens Hf))
    as (w1 & Hfind & _ & Hout & _).
  apply (site_body_writes_what_the_trace_returns _ _ _ _ _ _ _ _ _ _ Hsel Hfind).
  rewrite Hout. unfold at_trace_call. simpl.
  destruct (after_draws_fields 7 (log (MsgSelectionQuery s) (log MsgSelectingSite w)))
    as (_ & o & _).
  simpl in o. simpl. exact Ho.
Qed.

(** And so does a site with no segment, or several, within the tolerance. *)
Lemma site_body_after_unresolved (fuel : nat) (sites : list Site)
    (stream_lyr : string) (tolerance : Tol) (s : Z) (site : Site)
    (fields : list string) (streams sel : list Segment) (w : World)
    (rows : list Row) :
  List.filter (fun p => (site_OBJECTID p =? s)%Z) sites = [site] ->
  layers w !! stream_lyr = Some (StreamLayer fields streams sel) ->
  validated fields ->
  name_from (rng w) (rng_pos w) 7 <> stream_lyr ->
  stream_lyr <> "start"%string ->
  out_fc w = Some rows ->
  length (nearest streams site tolerance) <> 1 ->
  exists w' : World,
    site_body fuel sites stream_lyr tolerance s w = (Ok None, w') /\
    out_fc w' = Some (rows ++ [(PyFalse, replace_spaces (site_Sites site))]).
Proof.
  intros Hsel Hl Hv Hne Hst Ho Hn.
  assert (Hl' : layers (at_trace_call s site w) !! stream_lyr =
                Some (StreamLayer fields streams sel)).
  { unfold at_trace_call. simpl. rewrite lookup_insert_ne by exact Hne. exact Hl. }
  apply (site_body_writes_what_the_trace_returns _ _ _ _ _ _ _ _ _ _ Hsel
           (find_unresolved fuel _ _ tolerance _ _ _ _ _
              (ready_at_trace_call _ _ _ _ s site _ Hl Hv Hne Hst) Hl' Hn)).
  exact Ho.
Qed.

(** A site whose chain ends where nothing leaves: the exception leaves the
    loop body, and with it the loop and [Main]. *)
Lemma site_body_at_sink (fuel : nat) (sites : list Site)
    (stream_lyr : string) (tolerance : Tol) (s : Z) (site : Site)
    (fields : list string) (streams sel : list Segment) (s0 : Segment)
    (path : list Segment) (lens : list F) (w : World) (rest : list Z) :
  List.filter (fun p => (site_OBJECTID p =? s)%Z) sites = [site] ->
  layers w !! stream_lyr = Some (StreamLayer fields streams sel) ->
  validated fields ->
  name_from (rng w) (rng_pos w) 7 <> stream_lyr ->
  stream_lyr <> "start"%string ->
  nearest streams site tolerance = [s0] ->
  same_order_chain streams (StrahlerOr s0) s0 path ->
  successor streams (last_visited s0 path) = None ->
  length path < fuel ->
  map Shape_Length path = map Some lens ->
  (path <> [] -> has_field "Shape_Length" fields = true) ->
  exists w' : World,
    for_sites fuel sites stream_lyr tolerance (s :: rest) w =
    (Raise (KeyError "StrahlerOr"), w') /\
    out_fc w' = out_fc w.
Proof.
  intros Hsel Hl Hv Hne Hst Hn Hch Hs Hfuel Hlens Hf.
  destruct (trace_to_sink _ _ tolerance _ _ _ _ _ _ fuel
              (ready_at_trace_call _ _ _ _ s site _ Hl Hv Hne Hst) Hn Hch Hs Hfuel
              (lengths_read_at_trace_call _ _ _ _ s site _ _ _ Hl Hne Hlens Hf))
    as (w1 & Hfind & _ & Hout & _).
  exists w1. simpl for_sites.
  rewrite (bind_Raise _ _ _ w1 (KeyError "StrahlerOr")).
  - split; [reflexivity|]. rewrite Hout. unfold at_trace_call. simpl.
    destruct (after_draws_fields 7 (log (MsgSelectionQuery s) (log MsgSelectingSite w)))
      as (_ & o & _).
    exact o.
  - rewrite (site_body_calls_trace _ _ _ _ _ _ _ Hsel).
    apply bind_Raise. exact Hfind.
Qed.

(** ** Two runs side by side *)

Lemma sim_bind {A B} (P : World -> World -> Prop) (m1 m2 : M A)
    (Q : A -> A -> World -> World -> Prop) (k1 k2 : A -> M B)
    (Q' : B -> B -> World -> World -> Prop) :
  sim P m1 m2 Q ->
  (forall a1 a2, sim (Q a1 a2) (k1 a1) (k2 a2) Q') ->
  sim P (bind m1 k1) (bind m2 k2) Q'.
Proof.
  intros Hm Hk w1 w2 HP. specialize (Hm w1 w2 HP). unfold bind.
  destruct (m1 w1) as [[a1|e1|] w1'], (m2 w2) as [[a2|e2|] w2'];
    try contradiction; try exact Hm.
  apply Hk. exact Hm.
Qed.

Lemma sim_bind_eq {A B} (P R : World -> World -> Prop) (m1 m2 : M A)
    (k1 k2 : A -> M B) (Q' : B -> B -> World -> World -> Prop) :
  sim P m1 m2 (eqr R) ->
  (forall a, sim R (k1 a) (k2 a) Q') ->
  sim P (bind m1 k1) (bind m2 k2) Q'.
Proof.
  intros Hm Hk. apply sim_bind with (Q := eqr R); [exact Hm|].
  intros a1 a2 w1 w2 [-> HR]. apply Hk. exact HR.
Qed.

Lemma sim_weaken {A} (P P' : World -> World -> Prop) (m1 m2 : M A)
    (Q Q' : A -> A -> World -> World -> Prop) :
  (forall w1 w2, P' w1 w2 -> P w1 w2) ->
  (forall a1 a2 w1 w2, Q a1 a2 w1 w2 -> Q' a1 a2 w1 w2) ->
  sim P m1 m2 Q -> sim P' m1 m2 Q'.
Proof.
  intros HP HQ Hm w1 w2 Hw. specialize (Hm w1 w2 (HP _ _ Hw)).
  destruct (m1 w1) as [[a1|e1|] w1'], (m2 w2) as [[a2|e2|] w2'];
    try contradiction; try exact Hm.
  apply HQ. exact Hm.
Qed.

Section Rel.
Variables (g1 g2 : nat -> nat).

#[local] Abbreviation R ns p1 p2 := (rel ns g1 p1 g2 p2).

Lemma rel_out_fc ns p1 p2 w1 w2 : R ns p1 p2 w1 w2 -> out_fc w1 = out_fc w2.
Proof. intros H1. apply H1. Qed.

Lemma rel_incl ns ns' p1 p2 w1 w2 :
  (forall x, In x ns' -> In x ns) -> R ns p1 p2 w1 w2 -> R ns' p1 p2 w1 w2.
Proof.
  intros Hi (a & b & c & d). repeat split; try tauto.
  intros n1 n2 Hn. apply d, Hi, Hn.
Qed.

Lemma sim_ret {A} ns p1 p2 (a : A) : sim (R ns p1 p2) (ret a) (ret a) (eqr (R ns p1 p2)).
Proof. intros w1 w2 Hw. simpl. split; [reflexivity|exact Hw]. Qed.

Lemma sim_raise {A} ns p1 p2 (e : PyExn) (Q : A -> A -> World -> World -> Prop) :
  sim (R ns p1 p2) (raise e) (raise e) Q.
Proof. intros w1 w2 Hw. simpl. split; [reflexivity|]. apply Hw. Qed.

Lemma sim_out_of_fuel {A} ns p1 p2 (Q : A -> A -> World -> World -> Prop) :
  sim (R ns p1 p2) out_of_fuel out_of_fuel Q.
Proof. intros w1 w2 Hw. simpl. apply Hw. Qed.

Lemma sim_AddMessage ns p1 p2 (m : Msg) :
  sim (R ns p1 p2) (AddMessage m) (AddMessage m) (eqr (R ns p1 p2)).
Proof. intros w1 w2 Hw. simpl. split; [reflexivity|exact Hw]. Qed.

Lemma sim_AddError ns p1 p2 (m : Msg) :
  sim (R ns p1 p2) (AddError m) (AddError m) (eqr (R ns p1 p2)).
Proof. intros w1 w2 Hw. simpl. split; [reflexivity|exact Hw]. Qed.

Lemma sim_get_layer ns p1 p2 (n1 n2 : string) :
  In (n1, n2) ns ->
  sim (R ns p1 p2) (get_layer n1) (get_layer n2) (eqr (R ns p1 p2)).
Proof.
  intros Hin w1 w2 Hw. unfold get_layer.
  destruct Hw as (a & b & c & d). rewrite (d _ _ Hin).
  destruct (layers w2 !! n2); simpl.
  - split; [reflexivity|]. repeat split; tauto.
  - auto.
Qed.

(** Writing the same layer under a name in each run: the pair of names is
    related afterwards, and so is every pair whose names were not written. *)
Lemma sim_put_layer ns ns' p1 p2 (n1 n2 : string) (l : Layer) :
  (forall m1 m2, In (m1, m2) ns' ->
     (m1 = n1 /\ m2 = n2) \/ (In (m1, m2) ns /\ m1 <> n1 /\ m2 <> n2)) ->
  sim (R ns p1 p2) (put_layer n1 l) (put_layer n2 l) (eqr (R ns' p1 p2)).
Proof.
  intros Hns w1 w2 (a & b & c & d). simpl.
  split; [reflexivity|]. repeat split; try tauto.
  intros m1 m2 Hm. simpl.
  destruct (Hns _ _ Hm) as [[-> ->]|(Hin & Hn1 & Hn2)].
  - rewrite !lookup_insert_eq. reflexivity.
  - rewrite !lookup_insert_ne by congruence. apply d, Hin.
Qed.

Lemma sim_Delete ns ns' p1 p2 (n1 n2 : string) :
  (forall m1 m2, In (m1, m2) ns' ->
     (m1 = n1 /\ m2 = n2) \/ (In (m1, m2) ns /\ m1 <> n1 /\ m2 <> n2)) ->
  sim (R ns p1 p2) (Delete_management n1) (Delete_management n2)
    (eqr (R ns' p1 p2)).
Proof.
  intros Hns w1 w2 (a & b & c & d). simpl.
  split; [reflexivity|]. repeat split; try tauto.
  intros m1 m2 Hm. simpl.
  destruct (Hns _ _ Hm) as [[-> ->]|(Hin & Hn1 & Hn2)].
  - rewrite !lookup_delete_eq. reflexivity.
  - rewrite !lookup_delete_ne by congruence. apply d, Hin.
Qed.

Lemma sim_CreateFeatureclass ns p1 p2 :
  sim (R ns p1 p2) CreateFeatureclass_management CreateFeatureclass_management
    (eqr (R ns p1 p2)).
Proof.
  intros w1 w2 (a & b & c & d). simpl.
  split; [reflexivity|]. repeat split; tauto.
Qed.

Lemma sim_insertRow ns p1 p2 (xy : PyVal) (point_name : string) :
  sim (R ns p1 p2) (insertRow xy point_name) (insertRow xy point_name)
    (eqr (R ns p1 p2)).
Proof.
  intros w1 w2 (a & b & c & d). unfold insertRow. rewrite a.
  destruct (out_fc w2) as [rows|] eqn:E; simpl.
  - split; [reflexivity|]. repeat split; tauto.
  - split; [reflexivity|]. congruence.
Qed.

Lemma sim_random_join ns (n : nat) :
  forall p1 p2,
  sim (R ns p1 p2) (random_join n) (random_join n)
    (fun a1 a2 w1 w2 =>
       a1 = name_from g1 p1 n /\ a2 = name_from g2 p2 n /\
       R ns (p1 + n) (p2 + n) w1 w2).
Proof.
  intros p1 p2 w1 w2 (a & (b1 & b2) & (c1 & c2) & d).
  rewrite !random_join_run.
  destruct (after_draws_fields n w1) as (l1 & o1 & _ & r1 & q1).
  destruct (after_draws_fields n w2) as (l2 & o2 & _ & r2 & q2).
  split; [congruence|]. split; [congruence|].
  unfold rel. rewrite l1, l2, o1, o2, r1, r2, q1, q2.
  repeat split; try congruence. exact d.
Qed.

(** The tools that read a layer. *)

Lemma sim_GetCount ns p1 p2 (n1 n2 : string) :
  In (n1, n2) ns ->
  sim (R ns p1 p2) (GetCount_management n1) (GetCount_management n2)
    (eqr (R ns p1 p2)).
Proof.
  intros Hin. unfold GetCount_management.
  eapply sim_bind_eq; [apply sim_get_layer; exact Hin|].
  intros l. apply sim_ret.
Qed.

Lemma sim_DictionaryOfLayerFeatures ns p1 p2 (n1 n2 : string) :
  In (n1, n2) ns ->
  sim (R ns p1 p2) (DictionaryOfLayerFeatures n1) (DictionaryOfLayerFeatures n2)
    (eqr (R ns p1 p2)).
Proof.
  intros Hin. unfold DictionaryOfLayerFeatures.
  eapply sim_bind_eq; [apply sim_get_layer; exact Hin|].
  intros [fields all sel|all sel]; apply sim_ret.
Qed.

Lemma sim_SearchCursor_SHAPE ns p1 p2 (n1 n2 : string) :
  In (n1, n2) ns ->
  sim (R ns p1 p2) (SearchCursor_SHAPE n1) (SearchCursor_SHAPE n2)
    (eqr (R ns p1 p2)).
Proof.
  intros Hin. unfold SearchCursor_SHAPE.
  eapply sim_bind_eq; [apply sim_get_layer; exact Hin|].
  intros l. apply sim_ret.
Qed.

Lemma sim_SearchCursor_Sites ns p1 p2 (n1 n2 : string) :
  In (n1, n2) ns ->
  sim (R ns p1 p2) (SearchCursor_Sites n1) (SearchCursor_Sites n2)
    (eqr (R ns p1 p2)).
Proof.
  intros Hin. unfold SearchCursor_Sites.
  eapply sim_bind_eq; [apply sim_get_layer; exact Hin|].
  intros [fields all sel|all sel]; [apply sim_raise|apply sim_ret].
Qed.

(** The tools that select. *)

Lemma only_pair (n1 n2 m1 m2 : string) (ns : list (string * string)) :
  In (m1, m2) [(n1, n2)] ->
  (m1 = n1 /\ m2 = n2) \/ (In (m1, m2) ns /\ m1 <> n1 /\ m2 <> n2).
Proof. intros [E|[]]. injection E as -> ->. left. auto. Qed.

Lemma sim_SelectLayerByLocation ns p1 p2 (t1 t2 s1 s2 : string) (d : Tol) :
  In (t1, t2) ns -> In (s1, s2) ns ->
  sim (R ns p1 p2)
    (SelectLayerByLocation_management t1 s1 d)
    (SelectLayerByLocation_management t2 s2 d)
    (eqr (R [(t1, t2)] p1 p2)).
Proof.
  intros Ht Hs. unfold SelectLayerByLocation_management.
  eapply sim_bind_eq; [apply sim_get_layer; exact Ht|]. intros t.
  eapply sim_bind_eq; [apply sim_get_layer; exact Hs|]. intros s.
  apply sim_put_layer. intros m1 m2. apply only_pair.
Qed.

Lemma sim_SelectLayerByAttribute ns p1 p2 (n1 n2 : string) (fld : Field) (v : Z) :
  In (n1, n2) ns ->
  sim (R ns p1 p2)
    (SelectLayerByAttribute_management n1 fld v)
    (SelectLayerByAttribute_management n2 fld v)
    (eqr (R [(n1, n2)] p1 p2)).
Proof.
  intros Hin. unfold SelectLayerByAttribute_management.
  eapply sim_bind_eq; [apply sim_get_layer; exact Hin|].
  intros [fields all sel|all sel]; destruct fld;
    try match goal with
        | |- context [has_field ?f ?fs] => destruct (has_field f fs)
        end;
    try (apply sim_put_layer; intros m1 m2; apply only_pair);
    apply sim_raise.
Qed.

Lemma sim_MakeFeatureLayer ns p1 p2 (i1 i2 o : string) :
  In (i1, i2) ns -> i1 <> o -> i2 <> o ->
  sim (R ns p1 p2)
    (MakeFeatureLayer_management i1 o) (MakeFeatureLayer_management i2 o)
    (eqr (R [(o, o); (i1, i2)] p1 p2)).
Proof.
  intros Hin H1 H2. unfold MakeFeatureLayer_management.
  eapply sim_bind_eq; [apply sim_get_layer; exact Hin|]. intros l.
  apply sim_put_layer. intros m1 m2 [E|[E|[]]]; injection E as <- <-; auto.
Qed.

(** Subscripts read no layer. *)

Lemma sim_getitem_StrahlerOr ns p1 p2 (d : Dict) :
  sim (R ns p1 p2) (getitem_StrahlerOr d) (getitem_StrahlerOr d) (eqr (R ns p1 p2)).
Proof.
  destruct d as [|fields s|p]; simpl; try destruct (has_field _ fields);
    first [apply sim_ret | apply sim_raise].
Qed.

Lemma sim_getitem_OBJECTID ns p1 p2 (d : Dict) :
  sim (R ns p1 p2) (getitem_OBJECTID d) (getitem_OBJECTID d) (eqr (R ns p1 p2)).
Proof.
  destruct d as [|fields s|p]; simpl; try destruct (has_field _ fields);
    first [apply sim_ret | apply sim_raise].
Qed.

Lemma sim_getitem_TO_NODE ns p1 p2 (d : Dict) :
  sim (R ns p1 p2) (getitem_TO_NODE d) (getitem_TO_NODE d) (eqr (R ns p1 p2)).
Proof.
  destruct d as [|fields s|p]; simpl; try destruct (has_field _ fields);
    first [apply sim_ret | apply sim_raise].
Qed.

Lemma sim_getitem_Shape_Length ns p1 p2 (d : Dict) :
  sim (R ns p1 p2) (getitem_Shape_Length d) (getitem_Shape_Length d)
    (eqr (R ns p1 p2)).
Proof.
  destruct d as [|fields s|p]; simpl; try destruct (has_field _ fields);
    first [apply sim_ret | apply sim_raise].
Qed.

Lemma sim_iadd ns p1 p2 (total : F) (value : option F) :
  sim (R ns p1 p2) (iadd total value) (iadd total value) (eqr (R ns p1 p2)).
Proof. destruct value; [apply sim_ret | apply sim_raise]. Qed.

Lemma sim_getitem_last ns p1 p2 (l : list Z) :
  sim (R ns p1 p2) (getitem_last l) (getitem_last l) (eqr (R ns p1 p2)).
Proof. unfold getitem_last. destruct (last l); [apply sim_ret | apply sim_raise]. Qed.

Lemma sim_getitem_first ns p1 p2 (l : list string) :
  sim (R ns p1 p2) (getitem_first l) (getitem_first l) (eqr (R ns p1 p2)).
Proof. destruct l; [apply sim_raise | apply sim_ret]. Qed.

Lemma sim_last_firstPoint ns p1 p2 (shapes : list (option Shape)) :
  sim (R ns p1 p2) (last_firstPoint shapes) (last_firstPoint shapes)
    (eqr (R ns p1 p2)).
Proof.
  unfold last_firstPoint. generalize (@None Point).
  induction shapes as [|g shapes IH]; intros xy.
  - destruct xy; [apply sim_ret | apply sim_raise].
  - destruct g as [g|]; [apply IH | apply sim_raise].
Qed.

(** The loop, the trace, the site, the sites. *)

Lemma sim_swim p1 p2 (st1 st2 : string) (init : Z) (fuel : nat) :
  forall (start : Dict) (vis : list Z) (len : F),
  sim (R [(st1, st2)] p1 p2)
    (swim fuel st1 init start vis len) (swim fuel st2 init start vis len)
    (eqr (R [(st1, st2)] p1 p2)).
Proof.
  assert (Hin : In (st1, st2) [(st1, st2)]) by (left; reflexivity).
  induction fuel as [|fuel IH]; intros start vis len.
  - apply sim_out_of_fuel.
  - simpl swim.
    eapply sim_bind_eq; [apply sim_getitem_TO_NODE|]. intros to_node.
    eapply sim_bind_eq; [apply sim_SelectLayerByAttribute; exact Hin|]. intros _.
    eapply sim_bind_eq; [apply sim_DictionaryOfLayerFeatures; exact Hin|].
    intros downstream.
    eapply sim_bind_eq; [apply sim_getitem_StrahlerOr|]. intros cur.
    destruct (cur =? init)%Z.
    + eapply sim_bind_eq; [apply sim_getitem_OBJECTID|]. intros oid.
      eapply sim_bind_eq; [apply sim_getitem_Shape_Length|]. intros l.
      eapply sim_bind_eq; [apply sim_iadd|]. intros total.
      eapply sim_bind_eq; [apply sim_AddMessage|]. intros _.
      apply IH.
    + destruct (cur >? init)%Z.
      * eapply sim_bind_eq; [apply sim_AddMessage|]. intros _.
        eapply sim_bind_eq; [apply sim_AddMessage|]. intros _.
        eapply sim_bind_eq; [apply sim_getitem_last|]. intros back.
        eapply sim_bind_eq; [apply sim_SelectLayerByAttribute; exact Hin|].
        intros _.
        eapply sim_bind_eq; [apply sim_getitem_StrahlerOr|]. intros o.
        eapply sim_bind_eq; [apply sim_AddMessage|]. intros _.
        eapply sim_bind_eq; [apply sim_AddMessage|]. intros _.
        apply sim_ret.
      * eapply sim_bind_eq; [apply sim_AddError|]. intros _.
        apply sim_ret.
Qed.

Lemma sim_FindDownstreamPoint ns p1 p2 (si1 si2 st1 st2 : string)
    (fuel : nat) (tolerance : Tol) :
  In (st1, st2) ns -> In (si1, si2) ns ->
  st1 <> "start"%string -> st2 <> "start"%string ->
  sim (R ns p1 p2)
    (FindDownstreamPoint fuel si1 st1 tolerance)
    (FindDownstreamPoint fuel si2 st2 tolerance)
    (eqr (R [(st1, st2)] p1 p2)).
Proof.
  intros Hst Hsi H1 H2.
  assert (Hin : In (st1, st2) [(st1, st2)]) by (left; reflexivity).
  unfold FindDownstreamPoint.
  eapply sim_bind_eq; [apply sim_AddMessage|]. intros _.
  eapply sim_bind_eq;
    [apply sim_SelectLayerByLocation; [exact Hst|exact Hsi]|]. intros _.
  eapply sim_bind_eq; [apply sim_GetCount; exact Hin|]. intros matchcount.
  destruct (matchcount =? 1).
  - eapply sim_bind_eq; [apply sim_AddMessage|]. intros _.
    eapply sim_bind_eq; [apply sim_MakeFeatureLayer; [exact Hin|exact H1|exact H2]|].
    intros _.
    eapply sim_bind_eq;
      [apply sim_DictionaryOfLayerFeatures; left; reflexivity|]. intros start.
    eapply sim_bind_eq; [apply sim_getitem_StrahlerOr|]. intros init.
    eapply sim_bind_eq; [apply sim_AddMessage|]. intros _.
    eapply sim_bind_eq; [apply sim_getitem_OBJECTID|]. intros oid.
    eapply sim_bind_eq; [apply sim_AddMessage|]. intros _.
    eapply sim_bind_eq with (R := R [(st1, st2)] p1 p2).
    { eapply sim_weaken; [| |apply sim_swim].
      - intros w1 w2. apply rel_incl. intros x [<-|[]]. right. left. reflexivity.
      - auto. }
    intros [v|].
    + apply sim_ret.
    + eapply sim_bind_eq; [apply sim_AddMessage|]. intros _.
      eapply sim_bind_eq; [apply sim_SearchCursor_SHAPE; exact Hin|]. intros shapes.
      eapply sim_bind_eq; [apply sim_last_firstPoint|]. intros p.
      eapply sim_bind_eq; [apply sim_AddMessage|]. intros _.
      apply sim_ret.
  - eapply sim_bind_eq; [apply sim_AddError|]. intros _.
    apply sim_ret.
Qed.

Lemma sim_bind_from {A B} (P : World -> World -> Prop) (m1 m2 : M A)
    (Q : A -> A -> World -> World -> Prop) (k1 k2 : A -> M B)
    (Q' : B -> B -> World -> World -> Prop) :
  sim P m1 m2 Q ->
  (forall a1 a2 w1 w2, Q a1 a2 w1 w2 ->
     exists P', P' w1 w2 /\ sim P' (k1 a1) (k2 a2) Q') ->
  sim P (bind m1 k1) (bind m2 k2) Q'.
Proof.
  intros Hm Hk. apply sim_bind with (Q := Q); [exact Hm|].
  intros a1 a2 w1 w2 HQ. destruct (Hk _ _ _ _ HQ) as (P' & HP' & Hs).
  apply Hs. exact HP'.
Qed.

Lemma name_from_length (g : nat -> nat) (n : nat) :
  forall p, String.length (name_from g p n) = n.
Proof. induction n as [|n IH]; intros p; simpl; [reflexivity|]. rewrite IH. reflexivity. Qed.

Lemma name_from_not_start (g : nat -> nat) (p : nat) :
  name_from g p 7 <> "start"%string.
Proof.
  intros E. apply (f_equal String.length) in E.
  rewrite name_from_length in E. discriminate E.
Qed.

Lemma sim_site_body p1 p2 (st1 st2 : string) (fuel : nat) (sites : list Site)
    (tolerance : Tol) (s : Z) :
  st1 <> "start"%string -> st2 <> "start"%string ->
  name_from g1 p1 7 <> st1 -> name_from g2 p2 7 <> st2 ->
  sim (R [(st1, st2)] p1 p2)
    (site_body fuel sites st1 tolerance s) (site_body fuel sites st2 tolerance s)
    (eqr (R [(st1, st2)] (p1 + 7) (p2 + 7))).
Proof.
  intros H1 H2 Hn1 Hn2. unfold site_body.
  eapply sim_bind_eq; [apply sim_AddMessage|]. intros _.
  eapply sim_bind_eq; [apply sim_AddMessage|]. intros _.
  eapply sim_bind_from; [apply sim_random_join|].
  intros n1 n2 w1 w2 (E1 & E2 & HR). subst n1 n2.
  exists (R [(st1, st2)] (p1 + 7) (p2 + 7)). split; [exact HR|]. clear w1 w2 HR.
  set (n1 := name_from g1 p1 7) in *. set (n2 := name_from g2 p2 7) in *.
  cbv zeta.
  eapply sim_bind_eq with (R := R [(n1, n2); (st1, st2)] (p1 + 7) (p2 + 7)).
  { apply sim_put_layer. intros m1 m2 [E|[E|[]]]; injection E as <- <-.
    - left. auto.
    - right. split; [left; reflexivity|]. split; congruence. }
  intros _.
  assert (Hsi : In (n1, n2) [(n1, n2); (st1, st2)]) by (left; reflexivity).
  assert (Hst : In (st1, st2) [(n1, n2); (st1, st2)]) by (right; left; reflexivity).
  assert (Hdrop : forall w1 w2,
            R [(n1, n2); (st1, st2)] (p1 + 7) (p2 + 7) w1 w2 ->
            R [(st1, st2)] (p1 + 7) (p2 + 7) w1 w2).
  { intros w1 w2. apply rel_incl. intros x [<-|[]]. exact Hst. }
  eapply sim_bind_eq; [apply sim_SearchCursor_Sites; exact Hsi|]. intros labels.
  eapply sim_bind_eq; [apply sim_getitem_first|]. intros label.
  eapply sim_bind_eq; [apply sim_GetCount; exact Hsi|]. intros matchcount.
  destruct (matchcount =? 1).
  - eapply sim_bind_eq; [apply sim_AddMessage|]. intros _.
    eapply sim_bind_eq;
      [apply sim_FindDownstreamPoint; [exact Hst|exact Hsi|exact H1|exact H2]|].
    intros xy.
    eapply sim_bind_eq; [apply sim_AddMessage|]. intros _.
    eapply sim_bind_eq; [apply sim_insertRow|]. intros _.
    eapply sim_bind_eq; [apply sim_AddMessage|]. intros _.
    eapply sim_bind_eq with (R := R [(st1, st2)] (p1 + 7) (p2 + 7)).
    { apply sim_Delete. intros m1 m2 [E|[]]. injection E as <- <-.
      right. split; [left; reflexivity|]. split; congruence. }
    intros _. apply sim_ret.
  - eapply sim_bind_eq; [apply sim_AddError|]. intros _.
    eapply sim_weaken; [| |apply sim_ret].
    + intros w1 w2 Hw. exact Hw.
    + intros a1 a2 w1 w2 [E Hw]. split; [exact E|]. apply Hdrop. exact Hw.
Qed.

Lemma sim_for_sites (st1 st2 : string) (fuel : nat) (sites : list Site)
    (tolerance : Tol) (site_list : list Z) :
  st1 <> "start"%string -> st2 <> "start"%string ->
  forall p1 p2,
  (forall j, j < length site_list ->
     name_from g1 (p1 + 7 * j) 7 <> st1 /\ name_from g2 (p2 + 7 * j) 7 <> st2) ->
  sim (R [(st1, st2)] p1 p2)
    (for_sites fuel sites st1 tolerance site_list)
    (for_sites fuel sites st2 tolerance site_list)
    (fun r1 r2 w1 w2 => r1 = r2 /\ out_fc w1 = out_fc w2).
Proof.
  intros H1 H2.
  induction site_list as [|s rest IH]; intros p1 p2 Hav.
  - intros w1 w2 Hw. simpl. split; [reflexivity|]. apply Hw.
  - simpl for_sites.
    eapply sim_bind_eq.
    { apply sim_site_body; try assumption.
      - destruct (Hav 0) as [a _]; [simpl; lia|].
        rewrite Nat.mul_0_r, Nat.add_0_r in a. exact a.
      - destruct (Hav 0) as [_ b]; [simpl; lia|].
        rewrite Nat.mul_0_r, Nat.add_0_r in b. exact b. }
    intros [v|].
    + intros w1 w2 Hw. simpl. split; [reflexivity|]. apply Hw.
    + apply IH. intros j Hj.
      destruct (Hav (S j)) as [a b]; [simpl; lia|].
      replace (p1 + 7 + 7 * j) with (p1 + 7 * S j) by lia.
      replace (p2 + 7 + 7 * j) with (p2 + 7 * S j) by lia.
      auto.
Qed.

End Rel.

(** Once the field check has passed, two runs on the same inputs that keep
    their site layers apart from their stream layer end the same way and
    leave the same output, whatever worlds they started in. *)
Lemma Main_two_runs (fuel : nat) (sites : list Site) (streams : StreamFC)
    (tolerance : Tol) (w1 w2 : World) :
  issubset req_fields (fc_fields streams) = true ->
  site_names_avoid_stream_name w1 (length sites) ->
  site_names_avoid_stream_name w2 (length sites) ->
  fst (Main fuel sites streams tolerance w1) =
  fst (Main fuel sites streams tolerance w2) /\
  out_fc (snd (Main fuel sites streams tolerance w1)) =
  out_fc (snd (Main fuel sites streams tolerance w2)).
Proof.
  intros Hf Ha1 Ha2.
  rewrite !(Main_fields_present _ _ _ _ _ Hf).
  set (st1 := name_from (rng w1) (rng_pos w1) 7).
  set (st2 := name_from (rng w2) (rng_pos w2) 7).
  assert (Hsim :
    sim (rel [(st1, st2)] (rng w1) (rng_pos w1 + 7) (rng w2) (rng_pos w2 + 7))
      (bind (for_sites fuel sites st1 tolerance (map site_OBJECTID sites)) after_sites)
      (bind (for_sites fuel sites st2 tolerance (map site_OBJECTID sites)) after_sites)
      (fun r1 r2 v1 v2 => r1 = r2 /\ out_fc v1 = out_fc v2)).
  { eapply sim_bind.
    - apply sim_for_sites; try apply name_from_not_start.
      intros j Hj. rewrite length_map in Hj. split.
      + replace (rng_pos w1 + 7 + 7 * j) with (rng_pos w1 + 7 * S j) by lia.
        apply Ha1. lia.
      + replace (rng_pos w2 + 7 + 7 * j) with (rng_pos w2 + 7 * S j) by lia.
        apply Ha2. lia.
    - intros r1 r2 v1 v2 [-> Ho]. destruct r2 as [v|]; simpl; auto. }
  specialize (Hsim (at_iteration sites streams w1) (at_iteration sites streams w2)).
  destruct (at_iteration_fields sites streams w1) as (o1 & l1 & _ & r1 & q1).
  destruct (at_iteration_fields sites streams w2) as (o2 & l2 & _ & r2 & q2).
  assert (Hrel : rel [(st1, st2)] (rng w1) (rng_pos w1 + 7) (rng w2) (rng_pos w2 + 7)
                   (at_iteration sites streams w1) (at_iteration sites streams w2)).
  { unfold rel. rewrite o1, o2. repeat split; try assumption.
    intros n1 n2 [E|[]]. injection E as <- <-. fold st1 in l1. fold st2 in l2.
    rewrite l1, l2. reflexivity. }
  specialize (Hsim Hrel).
  destruct (bind _ _ (at_iteration sites streams w1)) as [[a1|e1|] v1],
           (bind _ _ (at_iteration sites streams w2)) as [[a2|e2|] v2];
    simpl; try contradiction.
  - destruct Hsim as [-> Ho]. auto.
  - destruct Hsim as [-> Ho]. auto.
  - auto.
Qed.

(** C10, as the code has it.  Two runs of the program on the same stream
    network, sites and tolerance, each of which draws for its site layers
    names other than the name it drew for its stream layer, return the same
    value and leave the same rows in the output feature class, whatever
    names they drew and whatever layers existed before.  The output target
    of the second run is as it was before the first run or as the first run
    left it. *)
Theorem C10_runs_agree_unless_layer_names_collide
    (fuel : nat) (sites : list Site) (streams : StreamFC)
    (tolerance : Tol) (w1 w2 : World) :
  site_names_avoid_stream_name w1 (length sites) ->
  site_names_avoid_stream_name w2 (length sites) ->
  (out_fc w2 = out_fc w1 \/
   out_fc w2 = out_fc (snd (Main fuel sites streams tolerance w1))) ->
  fst (Main fuel sites streams tolerance w2) =
  fst (Main fuel sites streams tolerance w1) /\
  out_fc (snd (Main fuel sites streams tolerance w2)) =
  out_fc (snd (Main fuel sites streams tolerance w1)).
Proof.
  intros Ha1 Ha2 Ho.
  destruct (issubset req_fields (fc_fields streams)) eqn:Hf.
  - destruct (Main_two_runs fuel sites streams tolerance w1 w2 Hf Ha1 Ha2)
      as [a b].
    split; congruence.
  - rewrite (Main_fields_missing fuel sites streams tolerance w1 Hf) in *.
    rewrite (Main_fields_missing fuel sites streams tolerance w2 Hf).
    simpl in *. split; [reflexivity|]. destruct Ho; assumption.
Qed.

End Trace.

(** * The script on concrete networks *)

Section Runs.
Import Examples.
#[local] Existing Instance ZFloat.
#[local] Existing Instance ZSpatial.

Lemma called_ready (rows : list Segment) (s : Site) :
  ready (called rows s) "SITELYR" "STREAMS" s rows.
Proof.
  split; [discriminate|].
  split; [exists [s]; reflexivity|].
  exists all_fields, rows. split; reflexivity.
Qed.

Lemma called_length_field (rows : list Segment) (s : Site) :
  length_field (called rows s) "STREAMS".
Proof. exists all_fields, rows, rows. split; reflexivity. Qed.

Lemma called_lengths_read (rows : list Segment) (s : Site)
    (path : list Segment) (lens : list Z) :
  map Shape_Length path = map Some lens ->
  lengths_read (called rows s) "STREAMS" path lens.
Proof. intros H. split; [exact H|]. intros _. apply called_length_field. Qed.

(** Every segment of the example networks has a length. *)
Lemma seg_between_length (id order from to len : Z) (a b : Point) :
  Shape_Length (seg_between id order from to len a b) <> None.
Proof. discriminate. Qed.

(** C3.  On the chain of orders [2,1] the trace reports "Final Strahler
    Order is less than initial!" and returns [False], with no coordinate;
    [Main] does not test the value and hands the row [[False, "Site_A"]] to
    the insert cursor. *)
Theorem C3_order_inversion_reaches_the_insert_cursor :
  let trace := FindDownstreamPoint 5 "SITELYR" "STREAMS" 1%Z (called inverted site_A) in
  let run := Main 5 [site_A] (fc inverted) 1%Z (fresh counting) in
  fst trace = Ok PyFalse /\
  messages (snd trace) =
    [MsgFindingNearest; MsgStreamSelected 1; MsgInitialOrder 2; MsgSwimming;
     ErrOrderLess] /\
  fst run = Ok RetOutput /\
  out_fc (snd run) = Some [(PyFalse, "Site_A"%string)].
Proof. vm_compute. auto. Qed.

(** C4.  With no segment within the tolerance of the site, and with two,
    the trace reports "Could not find closest stream." and returns [False];
    with exactly one it goes on from that segment.  [Main] does not test the
    value: the row [[False, label]] goes to the insert cursor. *)
Theorem C4_unresolved_site_reaches_the_insert_cursor :
  let trace s := FindDownstreamPoint 5 "SITELYR" "STREAMS" 1%Z (called chain4 s) in
  let run s := Main 5 [s] (fc chain4) 1%Z (fresh counting) in
  (nearest chain4 site_far 1%Z = [] /\
   fst (trace site_far) = Ok PyFalse /\
   messages (snd (trace site_far)) = [MsgFindingNearest; ErrNoClosestStream] /\
   out_fc (snd (run site_far)) = Some [(PyFalse, "Far_away"%string)]) /\
  (nearest chain4 site_node2 1%Z = [seg 1 2 1 2 10; seg 2 2 2 3 20]%Z /\
   fst (trace site_node2) = Ok PyFalse /\
   messages (snd (trace site_node2)) = [MsgFindingNearest; ErrNoClosestStream] /\
   out_fc (snd (run site_node2)) = Some [(PyFalse, "Node_two"%string)]) /\
  (nearest chain4 site_A 1%Z = [seg 1 2 1 2 10]%Z /\
   fst (trace site_A) = Ok (PyXY 300 0)%Z).
Proof. vm_compute. repeat split; reflexivity. Qed.

(** C5.  Where two segments leave the to-node of the current segment, the
    trace raises nothing and reports no error: it goes on with the one that
    comes last in the table (here segment 3, of order 2, rather than segment
    2, of order 3) and returns a coordinate.  Where no segment leaves it,
    the subscript [downstream['StrahlerOr']] raises [KeyError]. *)
Theorem C5_two_successors_last_row_wins :
  let trace rows := FindDownstreamPoint 5 "SITELYR" "STREAMS" 1%Z (called rows site_A) in
  leaving forked 2%Z = [seg 2 3 2 3 20; seg 3 2 2 4 30]%Z /\
  successor forked (seg 1 2 1 2 10)%Z = Some (seg 3 2 2 4 30)%Z /\
  fst (trace forked) = Ok (PyXY 200 0)%Z /\
  messages (snd (trace forked)) =
    [MsgFindingNearest; MsgStreamSelected 1; MsgInitialOrder 2; MsgSwimming;
     MsgKeepSwimming; MsgFinalReached; MsgBacktracking; MsgStrahlerOrder 3;
     MsgTotalDistance 30%Z; MsgGettingCoords; MsgXY 200%Z 0%Z] /\
  leaving outlet 2%Z = [] /\
  fst (trace outlet) = Raise (KeyError "StrahlerOr").
Proof. vm_compute. repeat split; reflexivity. Qed.

(** C6.  A site on the last segment of the network, which nothing leaves,
    ends the whole run with [KeyError]: the site after it, which alone gives
    a row, is never looked at, and [Main] returns nothing.  A site for which
    the trace returns [False] does not end the run, but its row
    [[False, label]] goes to the insert cursor. *)
Theorem C6_site_at_the_outlet_ends_the_run :
  let run ss := Main 5 ss (fc chain4) 1%Z (fresh counting) in
  (fst (run [site_A]) = Ok RetOutput /\
   out_fc (snd (run [site_A])) = Some [(PyXY 300 0, "Site_A"%string)]%Z) /\
  (fst (run [site_B; site_A]) = Raise (KeyError "StrahlerOr") /\
   out_fc (snd (run [site_B; site_A])) = Some []) /\
  (fst (run [site_A; site_B]) = Raise (KeyError "StrahlerOr")) /\
  (fst (run [site_far; site_A]) = Ok RetOutput /\
   out_fc (snd (run [site_far; site_A])) =
     Some [(PyFalse, "Far_away"%string); (PyXY 300 0, "Site_A"%string)]%Z).
Proof. vm_compute. repeat split; reflexivity. Qed.

(** The claim C10 as it is written fails when [random] gives a site layer
    the name of the stream layer: the site layer replaces the stream layer,
    the trace reads the site's attributes, and the run ends with [KeyError]
    and an empty output, where the run with distinct names writes a row. *)
Lemma C10_counterexample_layer_names_collide :
  let run draws := Main 5 [site_A] (fc chain4) 1%Z (fresh draws) in
  out_fc (snd (run counting)) = Some [(PyXY 300 0, "Site_A"%string)]%Z /\
  out_fc (snd (run stuck)) = Some [] /\
  fst (run stuck) = Raise (KeyError "StrahlerOr") /\
  out_fc (snd (run counting)) <> out_fc (snd (run stuck)).
Proof. vm_compute. repeat split; try reflexivity. discriminate. Qed.

(** ** The general statements at work *)

Lemma chain4_ids_unique : List.NoDup (map OBJECTID chain4).
Proof.
  repeat (constructor; [simpl; intuition discriminate|]). constructor.
Qed.

Lemma step_up_ids_unique : List.NoDup (map OBJECTID step_up).
Proof.
  repeat (constructor; [simpl; intuition discriminate|]). constructor.
Qed.

Lemma chain4_path :
  same_order_chain chain4 2 (seg 1 2 1 2 10)%Z [seg 2 2 2 3 20; seg 3 2 3 4 30]%Z.
Proof. simpl. repeat split; reflexivity. Qed.

(** On [chain4] the trace from a site on segment 1 returns the first point
    of segment 3, at x = 300. *)
Lemma C1_witness_chain4 :
  fst (FindDownstreamPoint 3 "SITELYR" "STREAMS" 1%Z (called chain4 site_A))
  = Ok (PyXY 300 0)%Z.
Proof.
  destruct (C1_boundary_returns_first_point_of_last_visited (SP := ZSpatial)
              "SITELYR" "STREAMS" 1%Z site_A chain4
              (seg 1 2 1 2 10)%Z (seg 4 3 4 5 5)%Z
              [seg 2 2 2 3 20; seg 3 2 3 4 30]%Z [20; 30]%Z
              {| firstPoint := pt 300 0; lastPoint := pt 400 0 |}
              (called chain4 site_A) 3
              (called_ready chain4 site_A) chain4_ids_unique)
    as (_ & Hr & _).
  - vm_compute. reflexivity.
  - exact chain4_path.
  - reflexivity.
  - reflexivity.
  - simpl. lia.
  - apply called_lengths_read. reflexivity.
  - reflexivity.
  - exact Hr.
Defined.

(** Orders [2,2,2,3], lengths [10,20,30,5]: total distance 50, coordinate
    the first point of the third segment. *)
Lemma C2_witness_chain4 :
  exists w' : World,
    FindDownstreamPoint 3 "SITELYR" "STREAMS" 1%Z (called chain4 site_A) =
    (Ok (PyXY 300 0)%Z, w') /\
    messages w' =
    [MsgFindingNearest; MsgStreamSelected 1; MsgInitialOrder 2; MsgSwimming;
     MsgKeepSwimming; MsgKeepSwimming; MsgFinalReached; MsgBacktracking;
     MsgStrahlerOrder 3; MsgTotalDistance 50%Z; MsgGettingCoords;
     MsgXY 300%Z 0%Z].
Proof.
  apply (C2_total_distance_sums_hops_after_start (SP := ZSpatial)
           "SITELYR" "STREAMS" 1%Z site_A chain4
           (seg 1 2 1 2 10)%Z (seg 4 3 4 5 5)%Z
           [seg 2 2 2 3 20; seg 3 2 3 4 30]%Z [20; 30]%Z
           {| firstPoint := pt 300 0; lastPoint := pt 400 0 |}
           (called chain4 site_A) 3
           (called_ready chain4 site_A) chain4_ids_unique).
  - vm_compute. reflexivity.
  - exact chain4_path.
  - reflexivity.
  - reflexivity.
  - simpl. lia.
  - apply called_lengths_read. reflexivity.
  - reflexivity.
Defined.

(** Orders [2,3]: no hop, total distance 0, the first point of segment 1. *)
Lemma C8_witness_step_up :
  exists w' : World,
    FindDownstreamPoint 1 "SITELYR" "STREAMS" 1%Z (called step_up site_A) =
    (Ok (PyXY 100 0)%Z, w') /\
    messages w' =
    [MsgFindingNearest; MsgStreamSelected 1; MsgInitialOrder 2; MsgSwimming;
     MsgFinalReached; MsgBacktracking; MsgStrahlerOrder 3;
     MsgTotalDistance 0%Z; MsgGettingCoords; MsgXY 100%Z 0%Z] /\
    ~ In MsgKeepSwimming (skipn 0 (messages w')).
Proof.
  destruct (C8_immediate_boundary_returns_start_of_start (SP := ZSpatial)
              "SITELYR" "STREAMS" 1%Z site_A step_up
              (seg 1 2 1 2 10)%Z (seg 2 3 2 3 20)%Z
              (called step_up site_A) 1
              (called_ready step_up site_A) step_up_ids_unique)
    as (g & w' & Hg & Hfind & Hm & Hno).
  - vm_compute. reflexivity.
  - reflexivity.
  - reflexivity.
  - lia.
  - injection Hg as <-. exists w'. split; [exact Hfind|].
    split; [exact Hm|exact Hno].
Defined.

(** A stream feature class without the field StrahlerOr, and one with all
    the fields. *)
Lemma C7_witness_fields :
  (exists w' : World,
     Main 5 [site_A]
       {| fc_fields := ["OBJECTID"; "FROM_NODE"; "TO_NODE"]%string;
          fc_rows := chain4 |} 1%Z (fresh counting) = (Ok RetFalse, w') /\
     out_fc w' = None) /\
  (exists (stream_lyr : string) (w' : World),
     Main 5 [site_A] (fc chain4) 1%Z (fresh counting) =
       bind (for_sites 5 [site_A] stream_lyr 1%Z [1%Z]) after_sites w' /\
     out_fc w' = Some []).
Proof.
  split.
  - destruct (proj1 (C7_missing_field_aborts_before_output (SP := ZSpatial) 5 [site_A]
                       {| fc_fields := ["OBJECTID"; "FROM_NODE"; "TO_NODE"]%string;
                          fc_rows := chain4 |} 1%Z (fresh counting)))
      as (w' & Hrun & Ho & _).
    + exists "StrahlerOr"%string. split.
      * right. left. reflexivity.
      * simpl. intuition discriminate.
    + exists w'. split; [exact Hrun|exact Ho].
  - destruct (proj2 (C7_missing_field_aborts_before_output (SP := ZSpatial) 5 [site_A]
                       (fc chain4) 1%Z (fresh counting)))
      as (lyr & w' & Hrun & Ho & _).
    + intros f Hf. simpl in Hf. simpl.
      intuition (subst; auto).
    + exists lyr, w'. split; [exact Hrun|exact Ho].
Defined.

Lemma ring_hops (n : nat) :
  forall s, In s ring ->
  exists d, hops ring n s = Some d /\ In d ring.
Proof.
  induction n as [|n IH]; intros s Hs.
  - exists s. split; [reflexivity|exact Hs].
  - simpl in Hs. destruct Hs as [<-|[<-|[<-|[]]]].
    + apply (IH (seg_between 2 2 2 3 94 (pt 200 0) (pt 150 80))%Z).
      simpl. auto.
    + apply (IH (seg_between 3 2 3 1 94 (pt 150 80) (pt 100 0))%Z).
      simpl. auto.
    + apply (IH (seg 1 2 1 2 100)%Z). simpl. auto.
Qed.

Lemma ring_same_order_forever (n : nat) :
  exists d, hops ring n (seg 1 2 1 2 100)%Z = Some d /\
            StrahlerOr d = StrahlerOr (seg 1 2 1 2 100)%Z.
Proof.
  destruct (ring_hops n (seg 1 2 1 2 100)%Z) as (d & Hd & Hin).
  - simpl. auto.
  - exists d. split; [exact Hd|].
    simpl in Hin. destruct Hin as [<-|[<-|[<-|[]]]]; reflexivity.
Qed.

(** The claim C9 as it is written fails in two ways.  On a network with an
    outlet the trace from the single segment stops, with the [KeyError] of
    [downstream['StrahlerOr']], although no segment of another order lies
    downstream.  And on the ring of order 2, where every segment downstream
    has the initial order, the trace stops at once when the stream table has
    no field Shape_Length, with the [KeyError] of
    [downstream['Shape_Length']]. *)
Lemma C9_counterexample_trace_stops_without_order_change :
  ~ ((exists fuel : nat,
        fst (FindDownstreamPoint fuel "SITELYR" "STREAMS" 1%Z (called outlet site_A))
        <> OutOfFuel)
     <->
     (exists (n : nat) (d : Segment),
        hops outlet n (seg 1 2 1 2 10)%Z = Some d /\
        StrahlerOr d <> StrahlerOr (seg 1 2 1 2 10)%Z))
  /\
  ((forall n : nat, exists d : Segment,
      hops ring n (seg 1 2 1 2 100)%Z = Some d /\
      StrahlerOr d = StrahlerOr (seg 1 2 1 2 100)%Z) /\
   fst (FindDownstreamPoint 1 "SITELYR" "STREAMS" 1%Z
          (called_without_length ring site_A))
   = Raise (KeyError "Shape_Length")).
Proof.
  split.
  - intros [Hstop _].
    destruct Hstop as (n & d & Hh & Hd).
    + exists 1. vm_compute. discriminate.
    + destruct n as [|n].
      * injection Hh as <-. apply Hd. reflexivity.
      * discriminate Hh.
  - split; [exact ring_same_order_forever|]. vm_compute. reflexivity.
Qed.

Lemma chain4_lengths (k : nat) (x : Segment) :
  hops chain4 (S k) (seg 1 2 1 2 10)%Z = Some x -> Shape_Length x <> None.
Proof.
  intros H. apply (hops_In (FL := ZFloat)) in H; [|simpl; auto].
  simpl in H. destruct H as [<-|[<-|[<-|[<-|[]]]]]; discriminate.
Qed.

Lemma ring_lengths (k : nat) (x : Segment) :
  hops ring (S k) (seg 1 2 1 2 100)%Z = Some x -> Shape_Length x <> None.
Proof.
  intros H. apply (hops_In (FL := ZFloat)) in H; [|simpl; auto].
  simpl in H. destruct H as [<-|[<-|[<-|[]]]]; discriminate.
Qed.

(** On [chain4] the order changes three hops down and the trace stops; on
    the ring of order 2 every segment has a next one, the order never
    changes and the trace never stops. *)
Lemma C9_witness_chain_and_ring :
  (exists fuel : nat,
     fst (FindDownstreamPoint fuel "SITELYR" "STREAMS" 1%Z (called chain4 site_A))
     <> OutOfFuel) /\
  (forall fuel : nat,
     fst (FindDownstreamPoint fuel "SITELYR" "STREAMS" 1%Z (called ring site_A))
     = OutOfFuel).
Proof.
  split.
  - apply (proj1 (C9_trace_stops_iff_order_changes_on_endless_chain (SP := ZSpatial)
                    "SITELYR" "STREAMS" 1%Z site_A chain4 (seg 1 2 1 2 10)%Z
                    (called chain4 site_A) (called_ready chain4 site_A)
                    ltac:(vm_compute; reflexivity)
                    (called_length_field chain4 site_A) chain4_lengths)).
    exists 3, (seg 4 3 4 5 5)%Z. split; [reflexivity|discriminate].
  - apply (proj2 (proj2
             (C9_trace_stops_iff_order_changes_on_endless_chain (SP := ZSpatial)
                "SITELYR" "STREAMS" 1%Z site_A ring (seg 1 2 1 2 100)%Z
                (called ring site_A) (called_ready ring site_A)
                ltac:(vm_compute; reflexivity)
                (called_length_field ring site_A) ring_lengths))).
    exact ring_same_order_forever.
Defined.

Lemma counting_avoids : site_names_avoid_stream_name (fresh counting) 1.
Proof.
  intros k Hk. assert (k = 1) as -> by lia. vm_compute. discriminate.
Qed.

Lemma skipping_avoids : site_names_avoid_stream_name (fresh skipping) 1.
Proof.
  intros k Hk. assert (k = 1) as -> by lia. vm_compute. discriminate.
Qed.

(** Two runs with different, non-colliding draws. *)
Lemma C10_witness_counting_and_skipping :
  fst (Main 5 [site_A] (fc chain4) 1%Z (fresh skipping)) =
  fst (Main 5 [site_A] (fc chain4) 1%Z (fresh counting)) /\
  out_fc (snd (Main 5 [site_A] (fc chain4) 1%Z (fresh skipping))) =
  out_fc (snd (Main 5 [site_A] (fc chain4) 1%Z (fresh counting))).
Proof.
  apply (C10_runs_agree_unless_layer_names_collide (SP := ZSpatial)
           5 [site_A] (fc chain4) 1%Z (fresh counting) (fresh skipping)
           counting_avoids skipping_avoids).
  left. reflexivity.
Defined.

End Runs.

(** * Further properties of the script *)

Section Further.
Context {FL : Float} {SP : Spatial}.

(** ** Labels *)

Lemma replace_spaces_length (s : string) :
  String.length (replace_spaces s) = String.length s.
Proof. induction s as [|c s IH]; simpl; [reflexivity|]. rewrite IH. reflexivity. Qed.

Lemma replace_spaces_no_space (s : string) :
  ~ In " "%char (chars (replace_spaces s)).
Proof.
  induction s as [|c s IH]; simpl; [tauto|].
  intros [E|Hin]; [|exact (IH Hin)].
  destruct (Ascii.eqb_spec c " "%char) as [->|ne]; [discriminate E|].
  apply ne. exact E.
Qed.

Lemma replace_spaces_id (s : string) :
  ~ In " "%char (chars s) -> replace_spaces s = s.
Proof.
  induction s as [|c s IH]; simpl; [reflexivity|].
  intros Hn. destruct (Ascii.eqb_spec c " "%char) as [->|ne].
  - exfalso. apply Hn. left. reflexivity.
  - rewrite IH; [reflexivity|]. intros Hin. apply Hn. right. exact Hin.
Qed.

(** X1.  The point name [str(label).replace(" ", "_")] has the length of
    the label and holds no space; a label without spaces is kept as it is,
    so replacing twice changes nothing more. *)
Theorem X1_point_name_has_no_space (label : string) :
  String.length (replace_spaces label) = String.length label /\
  ~ In " "%char (chars (replace_spaces label)) /\
  (~ In " "%char (chars label) -> replace_spaces label = label) /\
  replace_spaces (replace_spaces label) = replace_spaces label.
Proof.
  split; [apply replace_spaces_length|].
  split; [apply replace_spaces_no_space|].
  split; [apply replace_spaces_id|].
  apply replace_spaces_id, replace_spaces_no_space.
Qed.

(** ** Layer names *)

Lemma name_from_chars (g : nat -> nat) (n : nat) :
  forall p, Forall (fun c => In c alphabet) (chars (name_from g p n)).
Proof.
  induction n as [|n IH]; intros p; [constructor|].
  change (chars (name_from g p (S n)))
    with (nth (g p mod length alphabet) alphabet "A"%char
            :: chars (name_from g (S p) n)).
  constructor; [|apply IH].
  apply nth_In. apply Nat.mod_upper_bound.
  intros E. vm_compute in E. discriminate E.
Qed.

(** X2.  [''.join(random.choice(string.ascii_uppercase + string.digits)
    for _ in range(7))] always returns: a name of exactly seven characters,
    each an upper-case letter or a digit, hence never the name "start" of
    the layer the trace makes for itself.  It takes seven draws from
    [random] and changes nothing else. *)
Theorem X2_random_layer_name (w : World) :
  exists (name : string) (w' : World),
    random_join 7 w = (Ok name, w') /\
    String.length name = 7 /\
    Forall (fun c => In c alphabet) (chars name) /\
    name <> "start"%string /\
    layers w' = layers w /\ out_fc w' = out_fc w /\
    messages w' = messages w /\
    rng w' = rng w /\ rng_pos w' = rng_pos w + 7.
Proof.
  exists (name_from (rng w) (rng_pos w) 7), (after_draws 7 w).
  split; [apply random_join_run|].
  split; [apply name_from_length|].
  split; [apply name_from_chars|].
  split; [apply name_from_not_start|].
  apply after_draws_fields.
Qed.

(** ** The attribute dictionary *)

Lemma dictionary_of_site_layer (lyr : string) (all sel : list Site) (w : World) :
  layers w !! lyr = Some (SiteLayer all sel) ->
  DictionaryOfLayerFeatures lyr w =
  (Ok (match last sel with Some p => DictSite p | None => DictEmpty end), w).
Proof.
  intros E. unfold DictionaryOfLayerFeatures.
  rewrite (bind_Ok _ _ _ _ _ (get_layer_Some _ _ _ E)).
  unfold ret. rewrite dict_of_rows_last. reflexivity.
Qed.

(** X3.  [DictionaryOfLayerFeatures] on a stream layer changes nothing and
    returns a dictionary that depends on the selected rows only: with the
    one feature its docstring asks for, the attributes of that feature;
    with several, the attributes of the last row of the cursor alone; with
    none, the empty dictionary, on which every subscript the script makes
    raises [KeyError].  The keys are the fields of the layer: on a layer
    without the field Shape_Length the subscript for it raises [KeyError]
    whatever the rows. *)
Theorem X3_dictionary_keeps_the_last_row
    (lyr : string) (fields : list string) (all sel : list Segment) (w : World) :
  layers w !! lyr = Some (StreamLayer fields all sel) ->
  exists d : Dict,
    DictionaryOfLayerFeatures lyr w = (Ok d, w) /\
    (forall r, sel = [r] -> d = DictSegment fields r) /\
    (forall rows r, sel = rows ++ [r] -> d = DictSegment fields r) /\
    (sel = [] ->
       d = DictEmpty /\
       fst (getitem_StrahlerOr d w) = Raise (KeyError "StrahlerOr") /\
       fst (getitem_OBJECTID d w) = Raise (KeyError "OBJECTID") /\
       fst (getitem_TO_NODE d w) = Raise (KeyError "TO_NODE") /\
       fst (getitem_Shape_Length d w) = Raise (KeyError "Shape_Length")) /\
    (has_field "Shape_Length" fields = false ->
       fst (getitem_Shape_Length d w) = Raise (KeyError "Shape_Length")).
Proof.
  intros Hl. eexists. split; [apply (dictionary_of_stream_layer _ _ _ _ _ Hl)|].
  split; [|split; [|split]].
  - intros r ->. reflexivity.
  - intros rows r ->. rewrite last_snoc. reflexivity.
  - intros ->. simpl. auto.
  - intros Hf. destruct (last sel); simpl; [rewrite Hf|]; reflexivity.
Qed.

(** ** What a trace can touch *)

Lemma confined_weaken {A} (names names' : list string) (m : M A) :
  (forall n, In n names -> In n names') -> confined names m -> confined names' m.
Proof.
  intros Hi Hc w. destruct (Hc w) as [He Hl]. split; [exact He|].
  intros n Hn. apply Hl. intros Hin. apply Hn, Hi, Hin.
Qed.

Lemma confined_bind {A B} (names : list string) (m : M A) (k : A -> M B) :
  confined names m -> (forall a, confined names (k a)) ->
  confined names (bind m k).
Proof.
  intros Hm Hk w. destruct (Hm w) as [[ms He] Hl]. unfold bind.
  destruct (m w) as [[a|e|] w1]; simpl in *; try (split; [eauto|exact Hl]).
  destruct (Hk a w1) as [[ms' He'] Hl']. split.
  - exists (ms ++ ms'). eapply emits_trans; eassumption.
  - intros n Hn. rewrite (Hl' n Hn). apply Hl, Hn.
Qed.

Lemma confined_same {A} (names : list string) (m : M A) :
  (forall w, snd (m w) = w) -> confined names m.
Proof.
  intros Hs w. rewrite Hs. split; [exists []; apply emits_refl|reflexivity].
Qed.

Lemma confined_ret {A} (names : list string) (a : A) : confined names (ret a).
Proof. apply confined_same. reflexivity. Qed.

Lemma confined_raise {A} (names : list string) (e : PyExn) :
  confined names (@raise _ A e).
Proof. apply confined_same. reflexivity. Qed.

Lemma confined_out_of_fuel {A} (names : list string) :
  confined names (@out_of_fuel _ A).
Proof. apply confined_same. reflexivity. Qed.

Lemma confined_AddMessage (names : list string) (m : Msg) :
  confined names (AddMessage m).
Proof.
  intros w. split; [|reflexivity].
  exists [m]. change [m] with ([] ++ [m]). apply emits_log, emits_refl.
Qed.

Lemma confined_AddError (names : list string) (m : Msg) :
  confined names (AddError m).
Proof. apply confined_AddMessage. Qed.

Lemma confined_get_layer (names : list string) (n : string) :
  confined names (get_layer n).
Proof.
  apply confined_same. intros w. unfold get_layer.
  destruct (layers w !! n); reflexivity.
Qed.

Lemma confined_put_layer (names : list string) (n : string) (l : Layer) :
  In n names -> confined names (put_layer n l).
Proof.
  intros Hin w. split.
  - exists []. apply emits_set_layers, emits_refl.
  - intros n' Hn'. simpl. apply lookup_insert_ne. intros ->. exact (Hn' Hin).
Qed.

Lemma confined_getitem_StrahlerOr names d : confined names (getitem_StrahlerOr d).
Proof.
  destruct d as [|fields s|p]; simpl; try destruct (has_field _ fields);
    first [apply confined_ret | apply confined_raise].
Qed.

Lemma confined_getitem_OBJECTID names d : confined names (getitem_OBJECTID d).
Proof.
  destruct d as [|fields s|p]; simpl; try destruct (has_field _ fields);
    first [apply confined_ret | apply confined_raise].
Qed.

Lemma confined_getitem_TO_NODE names d : confined names (getitem_TO_NODE d).
Proof.
  destruct d as [|fields s|p]; simpl; try destruct (has_field _ fields);
    first [apply confined_ret | apply confined_raise].
Qed.

Lemma confined_getitem_Shape_Length names d :
  confined names (getitem_Shape_Length d).
Proof.
  destruct d as [|fields s|p]; simpl; try destruct (has_field _ fields);
    first [apply confined_ret | apply confined_raise].
Qed.

Lemma confined_iadd names (total : F) (value : option F) :
  confined names (iadd total value).
Proof. destruct value; [apply confined_ret | apply confined_raise]. Qed.

Lemma confined_getitem_last names (l : list Z) : confined names (getitem_last l).
Proof.
  unfold getitem_last. destruct (last l);
    first [apply confined_ret | apply confined_raise].
Qed.

Lemma confined_last_firstPoint names (shapes : list (option Shape)) :
  confined names (last_firstPoint shapes).
Proof.
  apply confined_same. intros w. unfold last_firstPoint.
  destruct (cursor_firstPoint_cases shapes None w) as [[p H]|[H|(_ & _ & H)]];
    rewrite H; reflexivity.
Qed.

Lemma confined_GetCount names (n : string) : confined names (GetCount_management n).
Proof.
  apply confined_bind; [apply confined_get_layer|]. intros l. apply confined_ret.
Qed.

Lemma confined_Dictionary names (n : string) :
  confined names (DictionaryOfLayerFeatures n).
Proof.
  apply confined_bind; [apply confined_get_layer|].
  intros [fields all sel|all sel]; apply confined_ret.
Qed.

Lemma confined_SearchCursor_SHAPE names (n : string) :
  confined names (SearchCursor_SHAPE n).
Proof.
  apply confined_bind; [apply confined_get_layer|]. intros l. apply confined_ret.
Qed.

Lemma confined_SelectLayerByLocation names (t s : string) (d : Tol) :
  In t names -> confined names (SelectLayerByLocation_management t s d).
Proof.
  intros Hin.
  apply confined_bind; [apply confined_get_layer|]. intros l.
  apply confined_bind; [apply confined_get_layer|]. intros l'.
  apply confined_put_layer. exact Hin.
Qed.

Lemma confined_SelectLayerByAttribute names (n : string) (fld : Field) (v : Z) :
  In n names -> confined names (SelectLayerByAttribute_management n fld v).
Proof.
  intros Hin.
  apply confined_bind; [apply confined_get_layer|].
  intros [fields all sel|all sel]; destruct fld;
    try match goal with
        | |- context [has_field ?f ?fs] => destruct (has_field f fs)
        end;
    first [apply confined_put_layer; exact Hin | apply confined_raise].
Qed.

Lemma confined_MakeFeatureLayer names (i o : string) :
  In o names -> confined names (MakeFeatureLayer_management i o).
Proof.
  intros Hin.
  apply confined_bind; [apply confined_get_layer|]. intros l.
  apply confined_put_layer. exact Hin.
Qed.

Lemma confined_swim names (lyr : string) (init : Z) (fuel : nat) :
  In lyr names ->
  forall (start : Dict) (vis : list Z) (len : F),
  confined names (swim fuel lyr init start vis len).
Proof.
  intros Hin. induction fuel as [|fuel IH]; intros start vis len.
  - apply confined_out_of_fuel.
  - simpl swim.
    apply confined_bind; [apply confined_getitem_TO_NODE|]. intros to_node.
    apply confined_bind; [apply confined_SelectLayerByAttribute; exact Hin|].
    intros _.
    apply confined_bind; [apply confined_Dictionary|]. intros downstream.
    apply confined_bind; [apply confined_getitem_StrahlerOr|]. intros cur.
    destruct (cur =? init)%Z; [|destruct (cur >? init)%Z].
    + apply confined_bind; [apply confined_getitem_OBJECTID|]. intros oid.
      apply confined_bind; [apply confined_getitem_Shape_Length|]. intros l.
      apply confined_bind; [apply confined_iadd|]. intros total.
      apply confined_bind; [apply confined_AddMessage|]. intros _.
      apply IH.
    + apply confined_bind; [apply confined_AddMessage|]. intros _.
      apply confined_bind; [apply confined_AddMessage|]. intros _.
      apply confined_bind; [apply confined_getitem_last|]. intros back.
      apply confined_bind; [apply confined_SelectLayerByAttribute; exact Hin|].
      intros _.
      apply confined_bind; [apply confined_getitem_StrahlerOr|]. intros o.
      apply confined_bind; [apply confined_AddMessage|]. intros _.
      apply confined_bind; [apply confined_AddMessage|]. intros _.
      apply confined_ret.
    + apply confined_bind; [apply confined_AddError|]. intros _.
      apply confined_ret.
Qed.

Lemma confined_FindDownstreamPoint (fuel : nat) (site_lyr stream_lyr : string)
    (tolerance : Tol) :
  confined [stream_lyr; "start"%string]
    (FindDownstreamPoint fuel site_lyr stream_lyr tolerance).
Proof.
  assert (Hst : In stream_lyr [stream_lyr; "start"%string]) by (left; reflexivity).
  assert (Hs : In "start"%string [stream_lyr; "start"%string])
    by (right; left; reflexivity).
  unfold FindDownstreamPoint.
  apply confined_bind; [apply confined_AddMessage|]. intros _.
  apply confined_bind; [apply confined_SelectLayerByLocation; exact Hst|].
  intros _.
  apply confined_bind; [apply confined_GetCount|]. intros matchcount.
  destruct (matchcount =? 1).
  - apply confined_bind; [apply confined_AddMessage|]. intros _.
    apply confined_bind; [apply confined_MakeFeatureLayer; exact Hs|]. intros _.
    apply confined_bind; [apply confined_Dictionary|]. intros start.
    apply confined_bind; [apply confined_getitem_StrahlerOr|]. intros init.
    apply confined_bind; [apply confined_AddMessage|]. intros _.
    apply confined_bind; [apply confined_getitem_OBJECTID|]. intros oid.
    apply confined_bind; [apply confined_AddMessage|]. intros _.
    apply confined_bind; [apply confined_swim; exact Hst|]. intros [v|].
    + apply confined_ret.
    + apply confined_bind; [apply confined_AddMessage|]. intros _.
      apply confined_bind; [apply confined_SearchCursor_SHAPE|]. intros shapes.
      apply confined_bind; [apply confined_last_firstPoint|]. intros p.
      apply confined_bind; [apply confined_AddMessage|]. intros _.
      apply confined_ret.
  - apply confined_bind; [apply confined_AddError|]. intros _.
    apply confined_ret.
Qed.

(** X4.  Whatever the state it is called in and however it ends (a
    coordinate, [False], an exception, or never), [FindDownstreamPoint]
    writes nothing to the output feature class, takes nothing from [random],
    removes no message and only adds its own, and makes, changes or deletes
    no layer other than the stream layer it was given and the layer
    "start". *)
Theorem X4_trace_touches_only_its_layers
    (fuel : nat) (site_lyr stream_lyr : string) (tolerance : Tol) (w : World) :
  let w' := snd (FindDownstreamPoint fuel site_lyr stream_lyr tolerance w) in
  out_fc w' = out_fc w /\
  rng w' = rng w /\ rng_pos w' = rng_pos w /\
  (exists ms : list Msg, messages w' = messages w ++ ms) /\
  (forall n : string,
     n <> stream_lyr -> n <> "start"%string -> layers w' !! n = layers w !! n).
Proof.
  destruct (confined_FindDownstreamPoint fuel site_lyr stream_lyr tolerance w)
    as [[ms (a & b & c & d)] Hl].
  cbv zeta. repeat split; try assumption.
  - exists ms. exact a.
  - intros n H1 H2. apply Hl. simpl. intuition congruence.
Qed.

(** ** The stream layer keeps the network *)

Lemma preserves_bind {A B} (I : World -> Prop) (m : M A) (k : A -> M B) :
  preserves I m -> (forall a, preserves I (k a)) -> preserves I (bind m k).
Proof.
  intros Hm Hk w Hw. specialize (Hm w Hw). unfold bind.
  destruct (m w) as [[a|e|] w1]; simpl in *; try exact Hm.
  apply Hk. exact Hm.
Qed.

Lemma preserves_same {A} (I : World -> Prop) (m : M A) :
  (forall w, snd (m w) = w) -> preserves I m.
Proof. intros Hs w Hw. rewrite Hs. exact Hw. Qed.

Lemma preserves_layers {A} (I : World -> Prop) (m : M A) :
  (forall w w', layers w' = layers w -> I w -> I w') ->
  (forall w, layers (snd (m w)) = layers w) -> preserves I m.
Proof. intros HI Hs w Hw. exact (HI w _ (Hs w) Hw). Qed.

Section Holds.
Variables (st : string) (fields : list string) (streams : list Segment).

Let I := holds_streams st fields streams.

Lemma holds_AddMessage (m : Msg) : preserves I (AddMessage m).
Proof. intros w Hw. exact Hw. Qed.

Lemma holds_get_layer (n : string) : preserves I (get_layer n).
Proof.
  apply preserves_same. intros w. unfold get_layer.
  destruct (layers w !! n); reflexivity.
Qed.

Lemma holds_pure {A} (m : M A) : (forall w, snd (m w) = w) -> preserves I m.
Proof. apply preserves_same. Qed.

Lemma holds_SelectLayerByLocation (si : string) (d : Tol) :
  preserves I (SelectLayerByLocation_management st si d).
Proof.
  intros w [sel Hl]. unfold SelectLayerByLocation_management.
  rewrite (bind_Ok _ _ _ _ _ (get_layer_Some _ _ _ Hl)).
  unfold bind, get_layer. destruct (layers w !! si) as [l|]; simpl.
  - eexists. apply lookup_insert_eq.
  - exists sel. exact Hl.
Qed.

Lemma holds_SelectLayerByAttribute (fld : Field) (v : Z) :
  preserves I (SelectLayerByAttribute_management st fld v).
Proof.
  intros w [sel Hl]. unfold SelectLayerByAttribute_management.
  rewrite (bind_Ok _ _ _ _ _ (get_layer_Some _ _ _ Hl)).
  destruct fld;
    match goal with
    | |- context [has_field ?f ?fs] => destruct (has_field f fs)
    end; simpl;
    first [eexists; apply lookup_insert_eq | exists sel; exact Hl].
Qed.

Lemma holds_MakeFeatureLayer_start :
  st <> "start"%string ->
  preserves I (MakeFeatureLayer_management st "start").
Proof.
  intros st_not_start w [sel Hl]. unfold MakeFeatureLayer_management.
  rewrite (bind_Ok _ _ _ _ _ (get_layer_Some _ _ _ Hl)).
  exists sel. simpl. rewrite lookup_insert_ne by congruence. exact Hl.
Qed.

Lemma same_world_getitem_StrahlerOr d w : snd (getitem_StrahlerOr d w) = w.
Proof.
  destruct d as [|fs s|p]; simpl; try destruct (has_field _ fs); reflexivity.
Qed.

Lemma same_world_getitem_OBJECTID d w : snd (getitem_OBJECTID d w) = w.
Proof.
  destruct d as [|fs s|p]; simpl; try destruct (has_field _ fs); reflexivity.
Qed.

Lemma same_world_getitem_TO_NODE d w : snd (getitem_TO_NODE d w) = w.
Proof.
  destruct d as [|fs s|p]; simpl; try destruct (has_field _ fs); reflexivity.
Qed.

Lemma same_world_getitem_Shape_Length d w : snd (getitem_Shape_Length d w) = w.
Proof.
  destruct d as [|fs s|p]; simpl; try destruct (has_field _ fs); reflexivity.
Qed.

Lemma same_world_getitem_last (l : list Z) w : snd (getitem_last l w) = w.
Proof. unfold getitem_last. destruct (last l); reflexivity. Qed.

Lemma same_world_iadd (total : F) (value : option F) w :
  snd (iadd total value w) = w.
Proof. destruct value; reflexivity. Qed.

Lemma same_world_last_firstPoint (shapes : list (option Shape)) w :
  snd (last_firstPoint shapes w) = w.
Proof.
  unfold last_firstPoint.
  destruct (cursor_firstPoint_cases shapes None w) as [[p H]|[H|(_ & _ & H)]];
    rewrite H; reflexivity.
Qed.

Lemma same_world_get_then {A} (n : string) (f : Layer -> A) w :
  snd (bind (get_layer n) (fun l => ret (f l)) w) = w.
Proof. unfold bind, get_layer. destruct (layers w !! n); reflexivity. Qed.

Lemma same_world_Dictionary (n : string) w :
  snd (DictionaryOfLayerFeatures n w) = w.
Proof.
  unfold DictionaryOfLayerFeatures, bind, get_layer.
  destruct (layers w !! n) as [[fs all sel|all sel]|]; reflexivity.
Qed.

Lemma holds_swim (init : Z) (fuel : nat) :
  forall (start : Dict) (vis : list Z) (len : F),
  preserves I (swim fuel st init start vis len).
Proof.
  induction fuel as [|fuel IH]; intros start vis len.
  - apply holds_pure. reflexivity.
  - simpl swim.
    apply preserves_bind; [apply holds_pure, same_world_getitem_TO_NODE|].
    intros to_node.
    apply preserves_bind; [apply holds_SelectLayerByAttribute|]. intros _.
    apply preserves_bind; [apply holds_pure, same_world_Dictionary|].
    intros downstream.
    apply preserves_bind; [apply holds_pure, same_world_getitem_StrahlerOr|].
    intros cur.
    destruct (cur =? init)%Z; [|destruct (cur >? init)%Z].
    + apply preserves_bind; [apply holds_pure, same_world_getitem_OBJECTID|].
      intros oid.
      apply preserves_bind; [apply holds_pure, same_world_getitem_Shape_Length|].
      intros l.
      apply preserves_bind; [apply holds_pure, same_world_iadd|].
      intros total.
      apply preserves_bind; [apply holds_AddMessage|]. intros _.
      apply IH.
    + apply preserves_bind; [apply holds_AddMessage|]. intros _.
      apply preserves_bind; [apply holds_AddMessage|]. intros _.
      apply preserves_bind; [apply holds_pure, same_world_getitem_last|].
      intros back.
      apply preserves_bind; [apply holds_SelectLayerByAttribute|]. intros _.
      apply preserves_bind; [apply holds_pure, same_world_getitem_StrahlerOr|].
      intros o.
      apply preserves_bind; [apply holds_AddMessage|]. intros _.
      apply preserves_bind; [apply holds_AddMessage|]. intros _.
      apply holds_pure. reflexivity.
    + apply preserves_bind; [apply holds_AddMessage|]. intros _.
      apply holds_pure. reflexivity.
Qed.

Lemma holds_FindDownstreamPoint (fuel : nat) (si : string) (tolerance : Tol) :
  st <> "start"%string ->
  preserves I (FindDownstreamPoint fuel si st tolerance).
Proof.
  intros st_not_start. unfold FindDownstreamPoint.
  apply preserves_bind; [apply holds_AddMessage|]. intros _.
  apply preserves_bind; [apply holds_SelectLayerByLocation|]. intros _.
  apply preserves_bind; [apply holds_pure; intros w; apply same_world_get_then|].
  intros matchcount.
  destruct (matchcount =? 1).
  - apply preserves_bind; [apply holds_AddMessage|]. intros _.
    apply preserves_bind; [apply holds_MakeFeatureLayer_start, st_not_start|].
    intros _.
    apply preserves_bind; [apply holds_pure, same_world_Dictionary|].
    intros start.
    apply preserves_bind; [apply holds_pure, same_world_getitem_StrahlerOr|].
    intros init.
    apply preserves_bind; [apply holds_AddMessage|]. intros _.
    apply preserves_bind; [apply holds_pure, same_world_getitem_OBJECTID|].
    intros oid.
    apply preserves_bind; [apply holds_AddMessage|]. intros _.
    apply preserves_bind; [apply holds_swim|]. intros [v|].
    + apply holds_pure. reflexivity.
    + apply preserves_bind; [apply holds_AddMessage|]. intros _.
      apply preserves_bind;
        [apply holds_pure; intros w; apply same_world_get_then|].
      intros shapes.
      apply preserves_bind; [apply holds_pure, same_world_last_firstPoint|].
      intros p.
      apply preserves_bind; [apply holds_AddMessage|]. intros _.
      apply holds_pure. reflexivity.
  - apply preserves_bind; [apply holds_AddMessage|]. intros _.
    apply holds_pure. reflexivity.
Qed.

End Holds.

(** X5.  A stream layer that shows the whole network when the trace starts
    still shows the whole network, with the same fields, however the trace
    ends: the trace changes the selection of the layer and never its rows.
    (The layer must not be the layer "start", which the trace overwrites.) *)
Theorem X5_stream_layer_keeps_its_rows
    (fuel : nat) (site_lyr stream_lyr : string) (tolerance : Tol)
    (fields : list string) (streams sel : list Segment) (w : World) :
  stream_lyr <> "start"%string ->
  layers w !! stream_lyr = Some (StreamLayer fields streams sel) ->
  exists sel' : list Segment,
    layers (snd (FindDownstreamPoint fuel site_lyr stream_lyr tolerance w))
      !! stream_lyr = Some (StreamLayer fields streams sel').
Proof.
  intros Hne Hl.
  apply (holds_FindDownstreamPoint stream_lyr fields streams fuel site_lyr
           tolerance Hne w).
  exists sel. exact Hl.
Qed.

(** ** The selection a trace finds *)

(** X6.  [SelectLayerByLocation] and [SelectLayerByAttribute] are called with
    NEW_SELECTION: in the state [Main] calls it in, the outcome of a trace
    and the whole state it leaves are the same whatever selection an earlier
    trace left on the stream layer.  ([fields] and [sel] name the fields and
    the selection the stream layer has.) *)
Theorem X6_trace_ignores_the_selection_left_behind
    (fuel : nat) (site_lyr stream_lyr : string) (tolerance : Tol)
    (site : Site) (fields : list string) (streams sel sel' : list Segment)
    (w : World) :
  ready w site_lyr stream_lyr site streams ->
  layers w !! stream_lyr = Some (StreamLayer fields streams sel) ->
  FindDownstreamPoint fuel site_lyr stream_lyr tolerance
    (reselect stream_lyr fields streams sel' w) =
  FindDownstreamPoint fuel site_lyr stream_lyr tolerance w.
Proof.
  intros Hr Hl.
  assert (Hv : validated fields).
  { destruct Hr as (_ & _ & (fields' & sel0 & Hst & Hv)).
    rewrite Hl in Hst. injection Hst as <- _. exact Hv. }
  assert (Hne : site_lyr <> stream_lyr).
  { destruct Hr as (_ & [all Hsi] & _). intros ->. congruence. }
  assert (Hl' : layers (reselect stream_lyr fields streams sel' w) !! stream_lyr =
                Some (StreamLayer fields streams sel')) by apply layers_reselect.
  assert (Hr' : ready (reselect stream_lyr fields streams sel' w) site_lyr
                  stream_lyr site streams).
  { destruct Hr as (Hs & [all Hsi] & _). split; [exact Hs|]. split.
    - exists all. unfold reselect. simpl.
      rewrite lookup_insert_ne by congruence. exact Hsi.
    - exists fields, sel'. auto. }
  assert (Hsame : forall x,
            reselect stream_lyr fields streams x
              (log MsgFindingNearest (reselect stream_lyr fields streams sel' w)) =
            reselect stream_lyr fields streams x (log MsgFindingNearest w)).
  { intros x. unfold reselect, set_layers, log. simpl.
    rewrite insert_insert_eq. reflexivity. }
  destruct (Nat.eq_dec (length (nearest streams site tolerance)) 1) as [e|ne].
  - destruct (nearest streams site tolerance) as [|s0 [|? ?]] eqn:Hn;
      try discriminate e.
    rewrite (find_resolved _ _ _ _ _ _ _ _ _ _ Hr' Hl' Hv Hn).
    rewrite (find_resolved _ _ _ _ _ _ _ _ _ _ Hr Hl Hv Hn).
    unfold at_loop_entry. rewrite Hsame. reflexivity.
  - rewrite (find_unresolved _ _ _ _ _ _ _ _ _ Hr' Hl' ne).
    rewrite (find_unresolved _ _ _ _ _ _ _ _ _ Hr Hl ne).
    rewrite Hsame. reflexivity.
Qed.
(** ** The exceptions of a trace *)

Lemma get_layer_None (name : string) (w : World) :
  layers w !! name = None -> get_layer name w = (Raise ExecuteError, w).
Proof. intros E. unfold get_layer. rewrite E. reflexivity. Qed.

(** A where clause on a field the stream layer does not have. *)
Lemma select_missing_field (lyr : string) (fields : list string)
    (all sel : list Segment) (fld : Field) (v : Z) (w : World) :
  layers w !! lyr = Some (StreamLayer fields all sel) ->
  has_field (match fld with fFROM_NODE => "FROM_NODE" | fOBJECTID => "OBJECTID" end)
    fields = false ->
  SelectLayerByAttribute_management lyr fld v w = (Raise ExecuteError, w).
Proof.
  intros E Hf. unfold SelectLayerByAttribute_management.
  rewrite (bind_Ok _ _ _ _ _ (get_layer_Some _ _ _ E)).
  destruct fld; rewrite Hf; reflexivity.
Qed.

(** One turn of the loop on a stream layer with any fields, from the
    dictionary of a row read with the fields [fs]. *)
Lemma swim_turn_any (fuel : nat) (lyr : string) (init : Z) (fs fields : list string)
    (streams sel : list Segment) (s : Segment) (vis : list Z) (len : F) (w : World) :
  layers w !! lyr = Some (StreamLayer fields streams sel) ->
  swim (S fuel) lyr init (DictSegment fs s) vis len w =
  if has_field "TO_NODE" fs then
    if has_field "FROM_NODE" fields then
      let w1 := reselect lyr fields streams (leaving streams (TO_NODE s)) w in
      match successor streams s with
      | None => (Raise (KeyError "StrahlerOr"), w1)
      | Some d =>
          if has_field "StrahlerOr" fields then
            if (StrahlerOr d =? init)%Z then
              if has_field "OBJECTID" fields then
                if has_field "Shape_Length" fields then
                  match Shape_Length d with
                  | Some l =>
                      swim fuel lyr init (DictSegment fields d)
                        (vis ++ [OBJECTID d]) (Fadd len l) (log MsgKeepSwimming w1)
                  | None => (Raise TypeError, w1)
                  end
                else (Raise (KeyError "Shape_Length"), w1)
              else (Raise (KeyError "OBJECTID"), w1)
            else if (StrahlerOr d >? init)%Z then
              let w2 := log MsgBacktracking (log MsgFinalReached w1) in
              match last vis with
              | Some back =>
                  if has_field "OBJECTID" fields then
                    (Ok None,
                     log (MsgTotalDistance len)
                       (log (MsgStrahlerOrder (StrahlerOr d))
                          (reselect lyr fields streams
                             (List.filter (fun x => (OBJECTID x =? back)%Z) streams)
                             w2)))
                  else (Raise ExecuteError, w2)
              | None => (Raise IndexError, w2)
              end
            else (Ok (Some PyFalse), log ErrOrderLess w1)
          else (Raise (KeyError "StrahlerOr"), w1)
      end
    else (Raise ExecuteError, w)
  else (Raise (KeyError "TO_NODE"), w).
Proof.
  intros Hl. simpl swim.
  destruct (has_field "TO_NODE" fs); [|reflexivity].
  rewrite bind_ret.
  destruct (has_field "FROM_NODE" fields) eqn:Hfrom.
  2:{ apply bind_Raise.
      exact (select_missing_field lyr fields streams sel fFROM_NODE _ w Hl Hfrom). }
  rewrite (bind_Ok _ _ _ _ _ (select_FROM_NODE _ _ _ _ _ _ Hl Hfrom)).
  rewrite (bind_Ok _ _ _ _ _
             (dictionary_of_stream_layer _ _ _ _ _
                (layers_reselect lyr fields streams (leaving streams (TO_NODE s)) w))).
  unfold successor. cbv zeta.
  destruct (last (leaving streams (TO_NODE s))) as [d|]; [|reflexivity].
  unfold getitem_StrahlerOr, getitem_OBJECTID, getitem_Shape_Length.
  destruct (has_field "StrahlerOr" fields); [|reflexivity].
  rewrite bind_ret.
  destruct (StrahlerOr d =? init)%Z.
  { destruct (has_field "OBJECTID" fields); [|reflexivity].
    rewrite bind_ret.
    destruct (has_field "Shape_Length" fields); [|reflexivity].
    rewrite bind_ret. unfold iadd.
    destruct (Shape_Length d) as [l|]; reflexivity. }
  destruct (StrahlerOr d >? init)%Z; [|reflexivity].
  rewrite !bind_AddMessage.
  unfold getitem_last.
  destruct (last vis) as [back|]; [|reflexivity].
  rewrite bind_ret.
  destruct (has_field "OBJECTID" fields) eqn:Hoid.
  - erewrite bind_Ok; [reflexivity|].
    apply select_OBJECTID with (sel := leaving streams (TO_NODE s)); [|exact Hoid].
    apply layers_reselect.
  - apply bind_Raise.
    refine (select_missing_field lyr fields streams (leaving streams (TO_NODE s))
              fOBJECTID back _ _ Hoid).
    simpl. apply lookup_insert_eq.
Qed.

Lemma swim_no_stream_layer (fuel : nat) (lyr : string) (init : Z) (fs : list string)
    (s : Segment) (vis : list Z) (len : F) (w : World) :
  (forall fields all sel, layers w !! lyr <> Some (StreamLayer fields all sel)) ->
  swim (S fuel) lyr init (DictSegment fs s) vis len w =
  if has_field "TO_NODE" fs then (Raise ExecuteError, w)
  else (Raise (KeyError "TO_NODE"), w).
Proof.
  intros Hl. simpl swim.
  destruct (has_field "TO_NODE" fs); [|reflexivity].
  rewrite bind_ret. apply bind_Raise.
  unfold SelectLayerByAttribute_management.
  destruct (layers w !! lyr) as [[fields all sel|all sel]|] eqn:E.
  - exfalso. exact (Hl fields all sel eq_refl).
  - rewrite (bind_Ok _ _ _ _ _ (get_layer_Some _ _ _ E)). reflexivity.
  - rewrite (bind_Raise _ _ _ _ _ (get_layer_None _ _ E)). reflexivity.
Qed.

Lemma filter_nonempty_shapes (streams : list Segment) (s : Segment) :
  In s streams ->
  map segment_shape (List.filter (fun x => (OBJECTID x =? OBJECTID s)%Z) streams)
  <> [].
Proof.
  intros Hin E. apply map_eq_nil in E.
  exact (select_by_id_nonempty _ _ Hin E).
Qed.

(** After the loop the cursor has a row: what it raises is the
    [AttributeError] of a NULL geometry. *)
Lemma after_swim_raises (lyr : string) (fields : list string)
    (streams sel : list Segment) (w w' : World) (e : PyExn) :
  layers w !! lyr = Some (StreamLayer fields streams sel) ->
  sel <> [] ->
  after_swim lyr None w = (Raise e, w') -> e = AttributeError.
Proof.
  intros Hl Hne Hrun. rewrite (after_swim_None _ _ _ _ _ Hl) in Hrun.
  unfold bind at 1, last_firstPoint in Hrun.
  destruct (cursor_firstPoint_cases (map segment_shape sel) None
              (log MsgGettingCoords w)) as [[p H]|[H|(Hnil & _ & _)]].
  - rewrite H in Hrun. discriminate Hrun.
  - rewrite H in Hrun. injection Hrun as <- _. reflexivity.
  - apply map_eq_nil in Hnil. contradiction.
Qed.

(** In the loop [downstream_segments[-1]] exists and the cursor over the
    re-selected segment has a row. *)
Lemma swim_raises_only (st : string) (init : Z) (fuel : nat) :
  forall (start : Dict) (vis : list Z) (len : F) (w w' : World) (e : PyExn),
  (forall fs s fields all sel,
     start = DictSegment fs s ->
     layers w !! st = Some (StreamLayer fields all sel) ->
     In s all /\ last vis = Some (OBJECTID s)) ->
  bind (swim fuel st init start vis len) (after_swim st) w = (Raise e, w') ->
  of_the_trace e.
Proof.
  unfold of_the_trace.
  induction fuel as [|fuel IH]; intros start vis len w w' e Hinv Hrun.
  - discriminate Hrun.
  - destruct start as [|fs s|p].
    + simpl in Hrun. injection Hrun as <- _. right. left. eauto.
    + destruct (layers w !! st) as [[fields all sel|all sel]|] eqn:Hl.
      * destruct (Hinv fs s fields all sel eq_refl eq_refl) as [Hin Hv].
        unfold bind at 1 in Hrun.
        rewrite (swim_turn_any _ _ _ _ _ _ _ _ _ _ _ Hl) in Hrun.
        cbv zeta in Hrun.
        destruct (has_field "TO_NODE" fs);
          [|injection Hrun as <- _; right; left; eauto].
        destruct (has_field "FROM_NODE" fields);
          [|injection Hrun as <- _; left; reflexivity].
        destruct (successor all s) as [d|] eqn:Hs;
          [|injection Hrun as <- _; right; left; eauto].
        destruct (has_field "StrahlerOr" fields);
          [|injection Hrun as <- _; right; left; eauto].
        destruct (StrahlerOr d =? init)%Z.
        -- destruct (has_field "OBJECTID" fields);
             [|injection Hrun as <- _; right; left; eauto].
           destruct (has_field "Shape_Length" fields);
             [|injection Hrun as <- _; right; left; eauto].
           destruct (Shape_Length d) as [l|];
             [|injection Hrun as <- _; right; right; left; reflexivity].
           apply (IH (DictSegment fields d) (vis ++ [OBJECTID d]) (Fadd len l)
                    (log MsgKeepSwimming
                       (reselect st fields all (leaving all (TO_NODE s)) w)) w' e);
             [|exact Hrun].
           intros fs' s' fields' all' sel' Es Hl'. injection Es as _ <-.
           simpl in Hl'. rewrite lookup_insert_eq in Hl'.
           injection Hl' as _ <- _.
           split; [eapply successor_In; exact Hs|apply last_snoc].
        -- destruct (StrahlerOr d >? init)%Z; [|discriminate Hrun].
           rewrite Hv in Hrun.
           destruct (has_field "OBJECTID" fields);
             [|injection Hrun as <- _; left; reflexivity].
           right. right. right.
           eapply after_swim_raises; [| |exact Hrun].
           ++ simpl. apply lookup_insert_eq.
           ++ apply select_by_id_nonempty. exact Hin.
      * rewrite (bind_Raise _ _ _ w
                   (if has_field "TO_NODE" fs then ExecuteError
                    else KeyError "TO_NODE")) in Hrun.
        -- injection Hrun as <- _.
           destruct (has_field "TO_NODE" fs); [left|right; left]; eauto.
        -- rewrite swim_no_stream_layer by (intros a b c; rewrite Hl; discriminate).
           destruct (has_field "TO_NODE" fs); reflexivity.
      * rewrite (bind_Raise _ _ _ w
                   (if has_field "TO_NODE" fs then ExecuteError
                    else KeyError "TO_NODE")) in Hrun.
        -- injection Hrun as <- _.
           destruct (has_field "TO_NODE" fs); [left|right; left]; eauto.
        -- rewrite swim_no_stream_layer by (intros a b c; rewrite Hl; discriminate).
           destruct (has_field "TO_NODE" fs); reflexivity.
    + simpl in Hrun. injection Hrun as <- _. right. left. eauto.
Qed.

Lemma filter_singleton_In {A} (f : A -> bool) (l : list A) (x : A) :
  List.filter f l = [x] -> In x l.
Proof.
  intros E. assert (Hin : In x (List.filter f l)) by (rewrite E; left; reflexivity).
  apply filter_In in Hin. tauto.
Qed.

Lemma length_one {A} (l : list A) : length l = 1 -> exists x, l = [x].
Proof. destruct l as [|x [|y l]]; try discriminate. eauto. Qed.

(** X7.  In any state, an exception that leaves [FindDownstreamPoint] is an
    error of a geoprocessing tool, a [KeyError] from a subscript on an
    attribute dictionary, the [TypeError] of adding a NULL length to the
    distance, or the [AttributeError] of taking the first point of a NULL
    geometry: [downstream_segments[-1]] never raises [IndexError], and
    [x_coord] and [y_coord] are never read unbound. *)
Theorem X7_trace_never_raises_IndexError_or_UnboundLocalError
    (fuel : nat) (site_lyr stream_lyr : string) (tolerance : Tol)
    (w : World) (e : PyExn) :
  fst (FindDownstreamPoint fuel site_lyr stream_lyr tolerance w) = Raise e ->
  (e = ExecuteError \/ (exists k, e = KeyError k) \/ e = TypeError \/
   e = AttributeError) /\
  e <> IndexError /\ e <> UnboundLocalError.
Proof.
  intros Hrun.
  assert (Hok : of_the_trace e);
    [|split; [exact Hok|];
      split; intros ->; destruct Hok as [?|[[k ?]|[?|?]]]; discriminate].
  destruct (FindDownstreamPoint fuel site_lyr stream_lyr tolerance w)
    as [r w'] eqn:Hfind.
  simpl in Hrun. subst r.
  unfold FindDownstreamPoint in Hfind. rewrite bind_AddMessage in Hfind.
  set (w0 := log MsgFindingNearest w) in *.
  unfold SelectLayerByLocation_management in Hfind.
  destruct (layers w0 !! stream_lyr) as [t|] eqn:Ht.
  2:{ rewrite (bind_Raise _ _ _ w0 ExecuteError) in Hfind.
      - injection Hfind as <- _. left. reflexivity.
      - apply bind_Raise. apply get_layer_None. exact Ht. }
  destruct (layers w0 !! site_lyr) as [s|] eqn:Hs.
  2:{ rewrite (bind_Raise _ _ _ w0 ExecuteError) in Hfind.
      - injection Hfind as <- _. left. reflexivity.
      - rewrite (bind_Ok _ _ _ _ _ (get_layer_Some _ _ _ Ht)).
        apply bind_Raise. apply get_layer_None. exact Hs. }
  erewrite (bind_Ok _ _ w0) in Hfind.
  2:{ rewrite (bind_Ok _ _ _ _ _ (get_layer_Some _ _ _ Ht)).
      rewrite (bind_Ok _ _ _ _ _ (get_layer_Some _ _ _ Hs)). reflexivity. }
  match type of Hfind with
  | context [set_layers (insert stream_lyr ?l) w0] => set (t' := l) in *
  end.
  set (w1 := set_layers (insert stream_lyr t') w0) in *.
  assert (Hl1 : layers w1 !! stream_lyr = Some t') by apply lookup_insert_eq.
  rewrite (bind_Ok _ _ _ _ _ (count_selected _ _ _ Hl1)) in Hfind.
  destruct (Nat.eqb_spec (selected_count t') 1) as [Hc|Hc].
  2:{ discriminate Hfind. }
  rewrite bind_AddMessage in Hfind.
  unfold MakeFeatureLayer_management in Hfind.
  erewrite (bind_Ok _ _ (log _ w1)) in Hfind.
  2:{ erewrite bind_Ok; [reflexivity|]. apply get_layer_Some. exact Hl1. }
  set (w2 := set_layers (insert "start"%string (layer_of_selection t'))
               (log (MsgStreamSelected (selected_count t')) w1)) in *.
  assert (Hstart : layers w2 !! "start"%string = Some (layer_of_selection t'))
    by apply lookup_insert_eq.
  destruct t' as [fields all sel|all sel] eqn:Et'.
  - simpl in Hc. destruct (length_one _ Hc) as [s0 ->].
    rewrite (bind_Ok _ _ _ _ _
               (dictionary_of_stream_layer _ _ _ _ _ Hstart)) in Hfind.
    simpl last in Hfind. cbn [getitem_StrahlerOr getitem_OBJECTID] in Hfind.
    destruct (has_field "StrahlerOr" fields);
      [|injection Hfind as <- _; right; left; eauto].
    rewrite bind_ret, bind_AddMessage in Hfind.
    destruct (has_field "OBJECTID" fields);
      [|injection Hfind as <- _; right; left; eauto].
    rewrite bind_ret, bind_AddMessage in Hfind.
    eapply (swim_raises_only stream_lyr (StrahlerOr s0) fuel (DictSegment fields s0)
              [OBJECTID s0] Fzero); [|exact Hfind].
    intros fs1 s1 fields1 all1 sel1 Es Hl. injection Es as _ <-.
    split; [|reflexivity].
    simpl in Hl. destruct (decide (stream_lyr = "start"%string)) as [->|Hne].
    + rewrite lookup_insert_eq in Hl. injection Hl as _ <- _. left. reflexivity.
    + rewrite lookup_insert_ne in Hl by congruence.
      unfold w1 in Hl. simpl in Hl. rewrite lookup_insert_eq in Hl.
      injection Hl as _ <- _.
      clear - Et'. subst t'.
      destruct t as [f a b|a b]; [|discriminate Et'].
      injection Et' as _ <- Hf. eapply filter_singleton_In. exact Hf.
  - simpl in Hc. destruct (length_one _ Hc) as [p0 ->].
    rewrite (bind_Ok _ _ _ _ _
               (dictionary_of_site_layer _ _ _ _ Hstart)) in Hfind.
    simpl in Hfind. injection Hfind as <- _. right. left. eauto.
Qed.

(** ** Where the exceptions of a trace come from *)









(** ** A length or a geometry that cannot be read *)

(** The trace at the end of a chain whose next segment has the order of the
    start: what it does there depends on the length of that segment. *)
Lemma trace_to_next_hop (site_lyr stream_lyr : string) (tolerance : Tol)
    (site : Site) (fields : list string) (streams sel : list Segment)
    (s0 d : Segment) (path : list Segment) (lens : list F) (w : World) (fuel : nat) :
  ready w site_lyr stream_lyr site streams ->
  layers w !! stream_lyr = Some (StreamLayer fields streams sel) ->
  nearest streams site tolerance = [s0] ->
  same_order_chain streams (StrahlerOr s0) s0 path ->
  lengths_read w stream_lyr path lens ->
  successor streams (last_visited s0 path) = Some d ->
  StrahlerOr d = StrahlerOr s0 ->
  length path < fuel ->
  (has_field "Shape_Length" fields = false ->
   exists w', FindDownstreamPoint fuel site_lyr stream_lyr tolerance w =
              (Raise (KeyError "Shape_Length"), w') /\
              emits w w' (hop_messages (StrahlerOr s0) (length path))) /\
  (has_field "Shape_Length" fields = true -> Shape_Length d = None ->
   exists w', FindDownstreamPoint fuel site_lyr stream_lyr tolerance w =
              (Raise TypeError, w') /\
              emits w w' (hop_messages (StrahlerOr s0) (length path))).
Proof.
  intros Hr Hl Hn Hch Hlens Hs Ho Hfuel.
  assert (Hv : validated fields).
  { destruct (ready_stream_layer _ _ _ _ _ Hr) as (fields' & sel' & Hl' & Hv).
    rewrite Hl in Hl'. injection Hl' as <- _. exact Hv. }
  destruct (find_along_chain _ _ tolerance _ _ _ _ _ _ _ _ (fuel - length path)
              Hr Hl Hv Hn Hch Hlens)
    as (w1 & sel1 & Hl1 & He1 & Hfind).
  replace (length path + (fuel - length path)) with fuel in Hfind by lia.
  rewrite Hfind.
  destruct (fuel - length path) as [|k] eqn:Hk; [lia|].
  split.
  - intros Hf.
    unfold bind at 1. rewrite (swim_turn _ _ _ _ _ _ _ _ _ _ Hl1 Hv). cbv zeta.
    rewrite Hs, Ho, Z.eqb_refl, Hf. eexists. split; [reflexivity|].
    apply emits_reselect. exact He1.
  - intros Hf Hd.
    unfold bind at 1. rewrite (swim_turn _ _ _ _ _ _ _ _ _ _ Hl1 Hv). cbv zeta.
    rewrite Hs, Ho, Z.eqb_refl, Hf, Hd. eexists. split; [reflexivity|].
    apply emits_reselect. exact He1.
Qed.

(** X15.  The field check does not ask for Shape_Length.  On a stream table
    that passes it without that field, a trace whose starting segment has a
    successor of the same order stops at the first turn of the loop: the
    subscript [downstream['Shape_Length']] raises [KeyError], after the
    messages up to "Swimming downstream..." and before any "Just keep
    swimming...". *)
Theorem X15_table_without_Shape_Length_stops_the_trace
    (site_lyr stream_lyr : string) (tolerance : Tol)
    (site : Site) (fields : list string) (streams sel : list Segment)
    (s0 d : Segment) (w : World) (fuel : nat) :
  ready w site_lyr stream_lyr site streams ->
  layers w !! stream_lyr = Some (StreamLayer fields streams sel) ->
  has_field "Shape_Length" fields = false ->
  nearest streams site tolerance = [s0] ->
  successor streams s0 = Some d ->
  StrahlerOr d = StrahlerOr s0 ->
  0 < fuel ->
  exists w' : World,
    FindDownstreamPoint fuel site_lyr stream_lyr tolerance w =
    (Raise (KeyError "Shape_Length"), w') /\
    messages w' =
    messages w ++
    [MsgFindingNearest; MsgStreamSelected 1; MsgInitialOrder (StrahlerOr s0);
     MsgSwimming].
Proof.
  intros Hr Hl Hf Hn Hs Ho Hfuel.
  destruct (proj1 (trace_to_next_hop site_lyr stream_lyr tolerance site fields
                     streams sel s0 d [] [] w fuel Hr Hl Hn I
                     (conj eq_refl (fun H => False_ind _ (H eq_refl)))
                     Hs Ho Hfuel) Hf)
    as (w' & Hfind & Hm & _).
  exists w'. split; [exact Hfind|]. rewrite Hm. reflexivity.
Qed.

(** X16.  Where the next segment of the chain has the order of the start
    and a NULL length, [downstream_length += None] raises [TypeError]: the
    trace stops there, after as many "Just keep swimming..." as it made
    hops before. *)
Theorem X16_NULL_length_stops_the_trace
    (site_lyr stream_lyr : string) (tolerance : Tol)
    (site : Site) (streams : list Segment) (s0 d : Segment)
    (path : list Segment) (lens : list F) (w : World) (fuel : nat) :
  ready w site_lyr stream_lyr site streams ->
  length_field w stream_lyr ->
  nearest streams site tolerance = [s0] ->
  same_order_chain streams (StrahlerOr s0) s0 path ->
  lengths_read w stream_lyr path lens ->
  successor streams (last_visited s0 path) = Some d ->
  StrahlerOr d = StrahlerOr s0 ->
  Shape_Length d = None ->
  length path < fuel ->
  exists w' : World,
    FindDownstreamPoint fuel site_lyr stream_lyr tolerance w =
    (Raise TypeError, w') /\
    messages w' =
    messages w ++
    [MsgFindingNearest; MsgStreamSelected 1; MsgInitialOrder (StrahlerOr s0);
     MsgSwimming] ++ repeat MsgKeepSwimming (length path).
Proof.
  intros Hr Hlf Hn Hch Hlens Hs Ho Hd Hfuel.
  destruct (ready_stream_layer _ _ _ _ _ Hr) as (fields & sel & Hl & Hv).
  assert (Hf : has_field "Shape_Length" fields = true).
  { destruct Hlf as (fields' & all' & sel' & Hw' & Hh).
    rewrite Hl in Hw'. injection Hw' as -> _ _. exact Hh. }
  destruct (proj2 (trace_to_next_hop site_lyr stream_lyr tolerance site fields
                     streams sel s0 d path lens w fuel Hr Hl Hn Hch Hlens
                     Hs Ho Hfuel) Hf Hd)
    as (w' & Hfind & Hm & _).
  exists w'. split; [exact Hfind|]. rewrite Hm. reflexivity.
Qed.

(** X17.  Where the chain ends at a segment of higher order and the last
    same-order segment has a NULL geometry, the trace reports the final
    segment and the total distance and then stops: [row[0].firstPoint] on
    [None] raises [AttributeError], and no coordinate is reported. *)
Theorem X17_NULL_geometry_stops_the_trace
    (site_lyr stream_lyr : string) (tolerance : Tol)
    (site : Site) (streams : list Segment) (s0 b : Segment)
    (path : list Segment) (lens : list F) (w : World) (fuel : nat) :
  ready w site_lyr stream_lyr site streams ->
  List.NoDup (map OBJECTID streams) ->
  nearest streams site tolerance = [s0] ->
  same_order_chain streams (StrahlerOr s0) s0 path ->
  lengths_read w stream_lyr path lens ->
  successor streams (last_visited s0 path) = Some b ->
  (StrahlerOr s0 < StrahlerOr b)%Z ->
  SHAPE (last_visited s0 path) = None ->
  length path < fuel ->
  exists w' : World,
    FindDownstreamPoint fuel site_lyr stream_lyr tolerance w =
    (Raise AttributeError, w') /\
    messages w' =
    messages w ++
    [MsgFindingNearest; MsgStreamSelected 1; MsgInitialOrder (StrahlerOr s0);
     MsgSwimming] ++ repeat MsgKeepSwimming (length path)
    ++ [MsgFinalReached; MsgBacktracking; MsgStrahlerOrder (StrahlerOr b);
        MsgTotalDistance (fold_left Fadd lens Fzero); MsgGettingCoords].
Proof.
  intros Hr Hnd Hn Hch Hlens Hs Hlt Hg Hfuel.
  destruct (ready_stream_layer _ _ _ _ _ Hr) as (fields & sel & Hl & Hv).
  destruct (find_along_chain _ _ tolerance _ _ _ _ _ _ _ _ (fuel - length path)
              Hr Hl Hv Hn Hch Hlens)
    as (w1 & sel1 & Hl1 & He1 & Hfind).
  replace (length path + (fuel - length path)) with fuel in Hfind by lia.
  rewrite Hfind.
  destruct (fuel - length path) as [|k] eqn:Hk; [lia|].
  unfold bind at 1. rewrite (swim_turn _ _ _ _ _ _ _ _ _ _ Hl1 Hv). cbv zeta.
  rewrite Hs.
  destruct (Z.eqb_spec (StrahlerOr b) (StrahlerOr s0)) as [e|_]; [lia|].
  destruct (Z.gtb_spec (StrahlerOr b) (StrahlerOr s0)) as [_|n]; [|lia].
  rewrite (last_visited_id path s0 [OBJECTID s0] eq_refl).
  rewrite (select_by_id_unique _ _ Hnd
             (last_visited_In _ _ _ _ (nearest_In _ _ _ _ Hn) Hch)).
  erewrite after_swim_one; [|simpl; apply lookup_insert_eq].
  rewrite Hg. eexists. split; [reflexivity|].
  destruct He1 as (Hm & _). simpl. rewrite Hm. unfold hop_messages.
  rewrite <- !app_assoc. reflexivity.
Qed.

(** ** The rows of the output *)

Lemma grows_bind {A B} (k1 k2 : nat) (m : M A) (k : A -> M B) :
  grows k1 m -> (forall a, grows k2 (k a)) -> grows (k1 + k2) (bind m k).
Proof.
  intros Hm Hk w rows Ho. destruct (Hm w rows Ho) as (x1 & Ho1 & Hl1).
  unfold bind. destruct (m w) as [[a|e|] w1]; simpl in *;
    try (exists x1; split; [exact Ho1|lia]).
  destruct (Hk a w1 _ Ho1) as (x2 & Ho2 & Hl2).
  exists (x1 ++ x2). rewrite Ho2, <- app_assoc, length_app. split; [reflexivity|lia].
Qed.

Lemma grows_same {A} (m : M A) :
  (forall w, out_fc (snd (m w)) = out_fc w) -> grows 0 m.
Proof.
  intros Hs w rows Ho. exists []. rewrite Hs, Ho, app_nil_r. auto.
Qed.

Lemma grows_confined {A} (names : list string) (m : M A) :
  confined names m -> grows 0 m.
Proof.
  intros Hc. apply grows_same. intros w.
  destruct (Hc w) as [[ms (_ & Ho & _)] _]. exact Ho.
Qed.

Lemma grows_insertRow (xy : PyVal) (point_name : string) :
  grows 1 (insertRow xy point_name).
Proof.
  intros w rows Ho. unfold insertRow. rewrite Ho. simpl.
  exists [(xy, point_name)]. auto.
Qed.

Lemma grows_random_join (n : nat) : grows 0 (random_join n).
Proof.
  apply grows_same. intros w. rewrite random_join_run. simpl.
  apply after_draws_fields.
Qed.

Lemma grows_bind0 {A B} (n : nat) (m : M A) (k : A -> M B) :
  grows 0 m -> (forall a, grows n (k a)) -> grows n (bind m k).
Proof. intros Hm Hk. exact (grows_bind 0 n m k Hm Hk). Qed.

Lemma grows_bind1 {A B} (m : M A) (k : A -> M B) :
  grows 1 m -> (forall a, grows 0 (k a)) -> grows 1 (bind m k).
Proof. intros Hm Hk. exact (grows_bind 1 0 m k Hm Hk). Qed.

Lemma grows_more {A} (m : M A) : grows 0 m -> grows 1 m.
Proof.
  intros Hm w rows Ho. destruct (Hm w rows Ho) as (x & Hx & Hl).
  exists x. split; [exact Hx|lia].
Qed.

Lemma grows_site_body (fuel : nat) (sites : list Site) (st : string)
    (tolerance : Tol) (s : Z) :
  grows 1 (site_body fuel sites st tolerance s).
Proof.
  unfold site_body.
  apply grows_bind0; [apply (grows_confined []), confined_AddMessage|]. intros _.
  apply grows_bind0; [apply (grows_confined []), confined_AddMessage|]. intros _.
  apply grows_bind0; [apply grows_random_join|]. intros site_lyr.
  cbv zeta.
  apply grows_bind0; [apply grows_same; reflexivity|]. intros _.
  apply grows_bind0.
  { apply grows_same. intros w. unfold SearchCursor_Sites, bind, get_layer.
    destruct (layers w !! site_lyr) as [[a b|a b]|]; reflexivity. }
  intros labels.
  apply grows_bind0; [apply grows_same; intros w; destruct labels; reflexivity|].
  intros label.
  apply grows_bind0;
    [apply (grows_confined []), confined_GetCount|]. intros matchcount.
  destruct (matchcount =? 1).
  - apply grows_bind0; [apply (grows_confined []), confined_AddMessage|]. intros _.
    apply grows_bind0;
      [eapply grows_confined, confined_FindDownstreamPoint|]. intros xy.
    apply grows_bind0; [apply (grows_confined []), confined_AddMessage|]. intros _.
    apply grows_bind1; [apply grows_insertRow|]. intros _.
    apply grows_bind0; [apply (grows_confined []), confined_AddMessage|]. intros _.
    apply grows_bind0; [apply grows_same; reflexivity|]. intros _.
    apply grows_same. reflexivity.
  - apply grows_more.
    apply grows_bind0; [apply (grows_confined []), confined_AddError|]. intros _.
    apply grows_same. reflexivity.
Qed.

Lemma grows_for_sites (fuel : nat) (sites : list Site) (st : string)
    (tolerance : Tol) (site_list : list Z) :
  grows (length site_list) (for_sites fuel sites st tolerance site_list).
Proof.
  induction site_list as [|s rest IH].
  - apply grows_same. reflexivity.
  - simpl for_sites. change (length (s :: rest)) with (1 + length rest).
    apply grows_bind; [apply grows_site_body|].
    intros [v|]; [|exact IH].
    intros w rows Ho. exists []. simpl. rewrite Ho, app_nil_r. split; [auto|lia].
Qed.

(** X9.  However the loop over the sites ends (all sites done, [return
    False], an exception, or a trace that never stops), the rows that were
    in the output feature class when it started are still there, unchanged
    and in place, followed by at most one new row per site on the list.  So
    once the field check has passed, [Main] leaves an output feature class
    with at most as many rows as there are sites. *)
Theorem X9_rows_are_only_appended
    (fuel : nat) (sites : list Site) (streams : StreamFC) (stream_lyr : string)
    (tolerance : Tol) (site_list : list Z) (w : World) (rows : list Row) :
  (out_fc w = Some rows ->
   exists extra : list Row,
     out_fc (snd (for_sites fuel sites stream_lyr tolerance site_list w)) =
       Some (rows ++ extra) /\
     length extra <= length site_list) /\
  ((forall f, In f req_fields -> In f (fc_fields streams)) ->
   exists written : list Row,
     out_fc (snd (Main fuel sites streams tolerance w)) = Some written /\
     length written <= length sites).
Proof.
  split.
  - apply grows_for_sites.
  - intros Hf. apply issubset_true in Hf.
    rewrite (Main_fields_present _ _ _ _ _ Hf).
    destruct (at_iteration_fields sites streams w) as (Ho & _).
    assert (Hg : grows (length (map site_OBJECTID sites) + 0)
                   (bind (for_sites fuel sites (name_from (rng w) (rng_pos w) 7)
                            tolerance (map site_OBJECTID sites)) after_sites)).
    { apply grows_bind; [apply grows_for_sites|].
      intros [v|]; apply grows_same; reflexivity. }
    destruct (Hg _ _ Ho) as (extra & He & Hlen).
    exists extra. split; [exact He|]. rewrite length_map in Hlen. lia.
Qed.

(** ** What the loop body can return *)

Lemma bind_returns {A B} (P : B -> Prop) (m : M A) (k : A -> M B) :
  (forall a w b, fst (k a w) = Ok b -> P b) ->
  forall w b, fst (bind m k w) = Ok b -> P b.
Proof.
  intros Hk w b. unfold bind.
  destruct (m w) as [[a|e|] w1]; simpl; try discriminate.
  apply Hk.
Qed.

Lemma site_body_returns (fuel : nat) (sites : list Site) (st : string)
    (tolerance : Tol) (s : Z) (w : World) (r : option MainRet) :
  fst (site_body fuel sites st tolerance s w) = Ok r ->
  r = None \/ r = Some RetFalse.
Proof.
  revert w r. unfold site_body.
  repeat (apply bind_returns; intros ?).
  match goal with |- context [if ?c then _ else _] => destruct c end.
  - repeat (apply bind_returns; intros ?).
    intros w r E. simpl in E. injection E as <-. left. reflexivity.
  - repeat (apply bind_returns; intros ?).
    intros w r E. simpl in E. injection E as <-. right. reflexivity.
Qed.

Lemma for_sites_returns (fuel : nat) (sites : list Site) (st : string)
    (tolerance : Tol) (site_list : list Z) :
  forall (w : World) (r : option MainRet),
  fst (for_sites fuel sites st tolerance site_list w) = Ok r ->
  r = None \/ r = Some RetFalse.
Proof.
  induction site_list as [|s rest IH]; intros w r.
  - simpl. intros E. injection E as <-. left. reflexivity.
  - simpl for_sites. unfold bind.
    destruct (site_body fuel sites st tolerance s w) as [[[v|]|e|] w1] eqn:Hb;
      simpl; try discriminate.
    + intros E. injection E as <-.
      destruct (site_body_returns fuel sites st tolerance s w (Some v)) as [?|?];
        [rewrite Hb; reflexivity|discriminate|right; assumption].
    + apply IH.
Qed.

(** ** One site after the other *)

Lemma filter_unique_key {A} (key : A -> Z) (l : list A) (x : A) :
  List.NoDup (map key l) -> In x l ->
  List.filter (fun y => (key y =? key x)%Z) l = [x].
Proof.
  induction l as [|y l IH]; intros Hnd Hin; [destruct Hin|].
  simpl in Hnd. apply List.NoDup_cons_iff in Hnd as [Hy Hnd].
  assert (Hnone : forall l', ~ In (key x) (map key l') ->
            List.filter (fun z => (key z =? key x)%Z) l' = []).
  { induction l' as [|z l' IHl]; intros Hni; [reflexivity|].
    simpl. destruct (Z.eqb_spec (key z) (key x)) as [e|_].
    - exfalso. apply Hni. left. exact e.
    - apply IHl. intros Hc. apply Hni. right. exact Hc. }
  simpl. destruct Hin as [->|Hin].
  - rewrite Z.eqb_refl. f_equal. apply Hnone. exact Hy.
  - destruct (Z.eqb_spec (key y) (key x)) as [e|_].
    + exfalso. apply Hy. rewrite e. apply in_map. exact Hin.
    + apply IH; assumption.
Qed.

Lemma out_fc_at_trace_call (s : Z) (site : Site) (w : World) :
  out_fc (at_trace_call s site w) = out_fc w /\
  rng (at_trace_call s site w) = rng w /\
  rng_pos (at_trace_call s site w) = rng_pos w + 7.
Proof.
  unfold at_trace_call. simpl.
  destruct (after_draws_fields 7 (log (MsgSelectionQuery s) (log MsgSelectingSite w)))
    as (_ & o & _ & r & p).
  simpl in *. auto.
Qed.

(** An id that selects several sites: the body reports the failure and makes
    [Main] return [False]; the site layer it made stays behind. *)
Lemma site_body_shared_id (fuel : nat) (sites : list Site) (st : string)
    (tolerance : Tol) (s : Z) (p q : Site) (more : list Site) (w : World) :
  List.filter (fun x => (site_OBJECTID x =? s)%Z) sites = p :: q :: more ->
  site_body fuel sites st tolerance s w =
  (Ok (Some RetFalse),
   log (ErrSiteLayerFailed (replace_spaces (site_Sites p)))
     (set_layers
        (insert (name_from (rng w) (rng_pos w) 7)
           (SiteLayer (p :: q :: more) (p :: q :: more)))
        (after_draws 7 (log (MsgSelectionQuery s) (log MsgSelectingSite w))))).
Proof.
  intros Hsel. unfold site_body.
  rewrite !bind_AddMessage.
  erewrite bind_Ok; [|apply random_join_run].
  cbv zeta. rewrite Hsel.
  unfold bind at 1. unfold put_layer at 1.
  erewrite bind_Ok;
    [|apply labels_of_site_layer
        with (all := p :: q :: more) (sel := p :: q :: more);
      simpl; apply lookup_insert_eq].
  cbn [map getitem_first]. rewrite bind_ret.
  erewrite bind_Ok; [|apply count_selected; simpl; apply lookup_insert_eq].
  cbn [selected_count length Nat.eqb].
  reflexivity.
Qed.

(** When the body of the loop returns normally, it has written one row,
    with the label of the site whose id it was given. *)
Lemma site_body_Ok_None (fuel : nat) (sites : list Site) (st : string)
    (tolerance : Tol) (site : Site) (w w' : World) (rows : list Row) :
  In site sites ->
  out_fc w = Some rows ->
  site_body fuel sites st tolerance (site_OBJECTID site) w = (Ok None, w') ->
  exists xy : PyVal,
    out_fc w' = Some (rows ++ [(xy, replace_spaces (site_Sites site))]).
Proof.
  intros Hin Ho Hrun.
  assert (Hsite : In site (List.filter
                    (fun x => (site_OBJECTID x =? site_OBJECTID site)%Z) sites)).
  { apply filter_In. split; [exact Hin|apply Z.eqb_refl]. }
  destruct (List.filter (fun x => (site_OBJECTID x =? site_OBJECTID site)%Z) sites)
    as [|p [|q more]] eqn:Hsel.
  - destruct Hsite.
  - destruct Hsite as [->|[]].
    pose proof Hrun as Hrun'.
    rewrite (site_body_calls_trace _ _ _ _ _ _ _ Hsel) in Hrun'.
    destruct (FindDownstreamPoint fuel (name_from (rng w) (rng_pos w) 7) st
                tolerance (at_trace_call (site_OBJECTID site) site w))
      as [[xy|e|] w1] eqn:Hfind.
    + assert (Ho1 : out_fc w1 = Some rows).
      { destruct (confined_FindDownstreamPoint fuel
                    (name_from (rng w) (rng_pos w) 7) st tolerance
                    (at_trace_call (site_OBJECTID site) site w))
          as [[ms (_ & Hout & _)] _].
        rewrite Hfind in Hout. cbn [snd] in Hout. rewrite Hout.
        rewrite (proj1 (out_fc_at_trace_call _ _ _)). exact Ho. }
      destruct (site_body_writes_what_the_trace_returns _ _ _ _ _ _ _ _ _ _
                  Hsel Hfind Ho1) as (w'' & Hb & Hw'').
      rewrite Hrun in Hb. injection Hb as <-. exists xy. exact Hw''.
    + rewrite (bind_Raise _ _ _ _ _ Hfind) in Hrun'. discriminate Hrun'.
    + rewrite (bind_OutOfFuel _ _ _ _ Hfind) in Hrun'. discriminate Hrun'.
  - rewrite (site_body_shared_id _ _ _ _ _ _ _ _ _ Hsel) in Hrun.
    discriminate Hrun.
Qed.

Lemma for_sites_labels (fuel : nat) (sites : list Site) (st : string)
    (tolerance : Tol) (todo : list Site) :
  forall (w w' : World) (rows : list Row),
  (forall x, In x todo -> In x sites) ->
  out_fc w = Some rows ->
  for_sites fuel sites st tolerance (map site_OBJECTID todo) w = (Ok None, w') ->
  exists new : list Row,
    out_fc w' = Some (rows ++ new) /\
    map snd new = map (fun x => replace_spaces (site_Sites x)) todo.
Proof.
  induction todo as [|site todo IH]; intros w w' rows Hsub Ho Hrun.
  - simpl in Hrun. injection Hrun as <-. exists []. rewrite app_nil_r. auto.
  - simpl map in Hrun. simpl for_sites in Hrun. unfold bind in Hrun.
    destruct (site_body fuel sites st tolerance (site_OBJECTID site) w)
      as [[[v|]|e|] w1] eqn:Hb; try discriminate Hrun.
    destruct (site_body_Ok_None _ _ _ _ _ _ _ _ (Hsub site (or_introl eq_refl)) Ho Hb)
      as (xy & Ho1).
    destruct (IH w1 w' _ (fun x Hx => Hsub x (or_intror Hx)) Ho1 Hrun)
      as (new & Ho' & Hlab).
    exists ((xy, replace_spaces (site_Sites site)) :: new).
    rewrite Ho', <- app_assoc. simpl. rewrite Hlab. auto.
Qed.

(** X10.  Whenever [Main] returns [output], the output feature class holds
    exactly one row per input site, in the order of the sites, and the row
    of a site carries the label of that site with its spaces replaced by
    underscores. *)
Theorem X10_output_has_one_labelled_row_per_site
    (fuel : nat) (sites : list Site) (streams : StreamFC)
    (tolerance : Tol) (w w' : World) :
  Main fuel sites streams tolerance w = (Ok RetOutput, w') ->
  exists rows : list Row,
    out_fc w' = Some rows /\
    length rows = length sites /\
    map snd rows = map (fun x => replace_spaces (site_Sites x)) sites.
Proof.
  intros Hrun.
  destruct (issubset req_fields (fc_fields streams)) eqn:Hf.
  2:{ rewrite (Main_fields_missing _ _ _ _ _ Hf) in Hrun. discriminate Hrun. }
  rewrite (Main_fields_present _ _ _ _ _ Hf) in Hrun.
  destruct (at_iteration_fields sites streams w) as (Ho & _).
  unfold bind in Hrun.
  destruct (for_sites fuel sites (name_from (rng w) (rng_pos w) 7) tolerance
              (map site_OBJECTID sites) (at_iteration sites streams w))
    as [[[v|]|e|] w1] eqn:Hloop; try discriminate Hrun.
  - destruct (for_sites_returns fuel sites (name_from (rng w) (rng_pos w) 7)
                tolerance (map site_OBJECTID sites)
                (at_iteration sites streams w) (Some v)) as [?|E];
      [rewrite Hloop; reflexivity|discriminate|].
    injection E as ->. discriminate Hrun.
  - destruct (for_sites_labels _ _ _ _ _ _ _ _ (fun x Hx => Hx) Ho Hloop)
      as (new & Ho1 & Hlab).
    simpl in Hrun. injection Hrun as <-. exists new. simpl.
    split; [exact Ho1|]. split; [|exact Hlab].
    apply (f_equal (@length _)) in Hlab. rewrite !length_map in Hlab.
    exact Hlab.
Qed.

(** X12.  When the object id of a site on the list selects more than one
    site, the loop stops there: it reports "MakeFeatureLayer of site ...
    failed." with the label of the first of them, starts no trace, writes no
    row, leaves the site layer it made in place, and [Main] returns
    [False]. *)
Theorem X12_shared_site_id_stops_the_loop
    (fuel : nat) (sites : list Site) (stream_lyr : string) (tolerance : Tol)
    (s : Z) (rest : list Z) (p q : Site) (more : list Site) (w : World) :
  List.filter (fun x => (site_OBJECTID x =? s)%Z) sites = p :: q :: more ->
  exists w' : World,
    for_sites fuel sites stream_lyr tolerance (s :: rest) w =
      (Ok (Some RetFalse), w') /\
    after_sites (Some RetFalse) w' = (Ok RetFalse, w') /\
    out_fc w' = out_fc w /\
    messages w' =
      messages w ++
      [MsgSelectingSite; MsgSelectionQuery s;
       ErrSiteLayerFailed (replace_spaces (site_Sites p))] /\
    layers w' !! name_from (rng w) (rng_pos w) 7 =
      Some (SiteLayer (p :: q :: more) (p :: q :: more)).
Proof.
  intros Hsel. eexists. split.
  - simpl for_sites.
    rewrite (bind_Ok _ _ _ _ _ (site_body_shared_id _ _ _ _ _ _ _ _ _ Hsel)).
    reflexivity.
  - split; [reflexivity|]. simpl.
    split; [reflexivity|].
    split; [rewrite <- !app_assoc; reflexivity|apply lookup_insert_eq].
Qed.

(** ** A run in which every trace ends at a higher order *)

Lemma site_body_pours (fuel : nat) (sites : list Site) (st : string)
    (tolerance : Tol) (site : Site) (p : Point) (fields : list string)
    (streams sel : list Segment) (w : World) (rows : list Row) :
  List.filter (fun x => (site_OBJECTID x =? site_OBJECTID site)%Z) sites = [site] ->
  layers w !! st = Some (StreamLayer fields streams sel) ->
  validated fields ->
  name_from (rng w) (rng_pos w) 7 <> st ->
  st <> "start"%string ->
  out_fc w = Some rows ->
  List.NoDup (map OBJECTID streams) ->
  pours_at fields streams tolerance fuel site p ->
  exists w' : World,
    site_body fuel sites st tolerance (site_OBJECTID site) w = (Ok None, w') /\
    out_fc w' = Some (rows ++ [row_of site p]) /\
    holds_streams st fields streams w' /\
    rng w' = rng w /\ rng_pos w' = rng_pos w + 7.
Proof.
  intros Hsel Hl Hv Hne Hst Ho Hnd
    (s0 & b & path & lens & g & Hn & Hch & Hlens & Hlf & Hs & Hlt & Hfuel & Hg & ->).
  pose proof (ready_at_trace_call _ _ _ _ (site_OBJECTID site) site _ Hl Hv Hne Hst)
    as Hr.
  destruct (trace_to_boundary _ _ _ _ _ _ _ _ _ _ _ _ Hr Hnd Hn Hch Hs Hlt Hfuel
              (lengths_read_at_trace_call _ _ _ _ (site_OBJECTID site) site _ _ _
                 Hl Hne Hlens Hlf) Hg)
    as (w1 & Hfind & _ & Hout & Hrng & Hpos).
  destruct (out_fc_at_trace_call (site_OBJECTID site) site w) as (Ho0 & Hr0 & Hp0).
  assert (Hholds : holds_streams st fields streams w1).
  { pose proof (holds_FindDownstreamPoint st fields streams fuel
                  (name_from (rng w) (rng_pos w) 7) tolerance Hst
                  (at_trace_call (site_OBJECTID site) site w)) as Hk.
    rewrite Hfind in Hk. apply Hk. exists sel.
    unfold at_trace_call. simpl. rewrite lookup_insert_ne by exact Hne. exact Hl. }
  rewrite (site_body_calls_trace _ _ _ _ _ _ _ Hsel).
  rewrite (bind_Ok _ _ _ _ _ Hfind).
  unfold after_trace. rewrite bind_AddMessage.
  unfold bind at 1. unfold insertRow at 1. simpl out_fc.
  rewrite Hout, Ho0, Ho. rewrite bind_AddMessage.
  eexists. split; [reflexivity|]. simpl.
  split; [reflexivity|]. split.
  - destruct Hholds as [sel1 Hl1]. exists sel1. simpl.
    rewrite lookup_delete_ne by exact Hne. exact Hl1.
  - rewrite Hrng, Hpos, Hr0, Hp0. auto.
Qed.

Lemma for_sites_pour (fuel : nat) (sites : list Site) (st : string)
    (tolerance : Tol) (fields : list string) (streams : list Segment)
    (todo : list Site) (points : list Point) :
  st <> "start"%string ->
  validated fields ->
  List.NoDup (map OBJECTID streams) ->
  Forall2 (pours_at fields streams tolerance fuel) todo points ->
  forall (w : World) (rows : list Row),
  (forall x, In x todo ->
     List.filter (fun y => (site_OBJECTID y =? site_OBJECTID x)%Z) sites = [x]) ->
  holds_streams st fields streams w ->
  out_fc w = Some rows ->
  (forall j, j < length todo -> name_from (rng w) (rng_pos w + 7 * j) 7 <> st) ->
  exists w' : World,
    for_sites fuel sites st tolerance (map site_OBJECTID todo) w = (Ok None, w') /\
    out_fc w' = Some (rows ++ rows_of todo points).
Proof.
  intros Hst Hv Hnd Hall.
  induction Hall as [|site p todo points Hp Hall IH]; intros w rows Hsel Hh Ho Hav.
  - exists w. split; [reflexivity|]. unfold rows_of. simpl.
    rewrite app_nil_r. exact Ho.
  - destruct Hh as [sel Hl].
    destruct (site_body_pours fuel sites st tolerance site p fields streams sel w rows
                (Hsel site (or_introl eq_refl)) Hl Hv)
      as (w1 & Hb & Ho1 & Hh1 & Hr1 & Hp1);
      try assumption.
    { specialize (Hav 0). rewrite Nat.mul_0_r, Nat.add_0_r in Hav.
      apply Hav. simpl. lia. }
    destruct (IH w1 (rows ++ [row_of site p])) as (w' & Hloop & Ho');
      try assumption.
    { intros x Hx. apply Hsel. right. exact Hx. }
    { intros j Hj. rewrite Hr1, Hp1.
      replace (rng_pos w + 7 + 7 * j) with (rng_pos w + 7 * S j) by lia.
      apply Hav. simpl. lia. }
    exists w'. split.
    + simpl map. simpl for_sites. rewrite (bind_Ok _ _ _ _ _ Hb). exact Hloop.
    + rewrite Ho', <- app_assoc. reflexivity.
Qed.

(** X11.  The whole run.  Suppose the stream feature class has the four
    required fields and unique object ids, the sites have unique object ids,
    no site layer draws the name of the stream layer, and the trace from
    every site walks a chain of same-order segments to a segment of higher
    order, reading on its way a length off every segment of the chain (so
    the table has the field Shape_Length unless no trace makes a hop) and
    at its end the geometry of the last one.  Then [Main] returns [output],
    and the output feature class holds, in the order of the sites, one row
    per site: the first point of the last same-order segment below the
    site, with the label of the site, spaces replaced by underscores. *)
Theorem X11_run_writes_the_pour_point_of_every_site
    (fuel : nat) (sites : list Site) (streams : StreamFC)
    (tolerance : Tol) (points : list Point) (w : World) :
  (forall f, In f req_fields -> In f (fc_fields streams)) ->
  List.NoDup (map OBJECTID (fc_rows streams)) ->
  List.NoDup (map site_OBJECTID sites) ->
  site_names_avoid_stream_name w (length sites) ->
  Forall2 (pours_at (fc_fields streams) (fc_rows streams) tolerance fuel)
    sites points ->
  exists w' : World,
    Main fuel sites streams tolerance w = (Ok RetOutput, w') /\
    out_fc w' = Some (rows_of sites points).
Proof.
  intros Hf Hnd Hsites Hav Hall. apply issubset_true in Hf.
  rewrite (Main_fields_present _ _ _ _ _ Hf).
  destruct (at_iteration_fields sites streams w) as (Ho & Hl & _ & Hr & Hp).
  destruct (for_sites_pour fuel sites (name_from (rng w) (rng_pos w) 7) tolerance
              (fc_fields streams) (fc_rows streams) sites points
              (name_from_not_start _ _) Hf Hnd Hall
              (at_iteration sites streams w) [])
    as (w1 & Hloop & Ho1).
  - intros x Hx. apply filter_unique_key; assumption.
  - exists (fc_rows streams). exact Hl.
  - exact Ho.
  - intros j Hj. rewrite Hr, Hp.
    replace (rng_pos w + 7 + 7 * j) with (rng_pos w + 7 * S j) by lia.
    apply Hav. lia.
  - rewrite (bind_Ok _ _ _ _ _ Hloop). simpl.
    eexists. split; [reflexivity|]. simpl. exact Ho1.
Qed.

(** ** What a returned value tells *)

Lemma swim_returns_why (st : string) (init : Z) (fields : list string)
    (streams : list Segment) (fuel : nat) :
  List.NoDup (map OBJECTID streams) ->
  validated fields ->
  forall (s : Segment) (vis : list Z) (len : F) (w w' : World)
         (sel : list Segment) (v : PyVal),
  layers w !! st = Some (StreamLayer fields streams sel) ->
  In s streams ->
  last vis = Some (OBJECTID s) ->
  bind (swim fuel st init (DictSegment fields s) vis len) (after_swim st) w
  = (Ok v, w') ->
  exists (path : list Segment) (lens : list F) (b : Segment),
    same_order_chain streams init s path /\
    map Shape_Length path = map Some lens /\
    (path <> [] -> has_field "Shape_Length" fields = true) /\
    successor streams (last_visited s path) = Some b /\
    length path < fuel /\
    (((init < StrahlerOr b)%Z /\
      exists g, SHAPE (last_visited s path) = Some g /\
                v = PyXY (X (firstPoint g)) (Y (firstPoint g)))
     \/ ((StrahlerOr b < init)%Z /\ v = PyFalse)).
Proof.
  intros Hnd Hf.
  induction fuel as [|fuel IH]; intros s vis len w w' sel v Hl Hin Hv Hrun.
  - discriminate Hrun.
  - unfold bind at 1 in Hrun.
    rewrite (swim_turn _ _ _ _ _ _ _ _ _ _ Hl Hf) in Hrun. cbv zeta in Hrun.
    destruct (successor streams s) as [d|] eqn:Hs; [|discriminate Hrun].
    destruct (Z.eqb_spec (StrahlerOr d) init) as [Ho|Hne].
    + destruct (has_field "Shape_Length" fields) eqn:Hlf; [|discriminate Hrun].
      destruct (Shape_Length d) as [l|] eqn:Hd; [|discriminate Hrun].
      destruct (IH d (vis ++ [OBJECTID d]) (Fadd len l)
                  (log MsgKeepSwimming
                     (reselect st fields streams (leaving streams (TO_NODE s)) w))
                  w' (leaving streams (TO_NODE s)) v
                  (layers_reselect _ _ _ _ _)
                  (successor_In _ _ _ Hs) (last_snoc _ _) Hrun)
        as (path & lens & b & Hch & Hlens & _ & Hb & Hlen & Hwhy).
      exists (d :: path), (l :: lens), b. rewrite last_visited_cons. simpl.
      rewrite Hd, Hlens.
      repeat split; try assumption. lia.
    + destruct (Z.gtb_spec (StrahlerOr d) init) as [Hgt|Hle].
      * rewrite Hv in Hrun.
        rewrite (select_by_id_unique _ _ Hnd Hin) in Hrun.
        erewrite after_swim_one in Hrun; [|simpl; apply lookup_insert_eq].
        destruct (SHAPE s) as [g|] eqn:Hg; [|discriminate Hrun].
        cbv zeta in Hrun. injection Hrun as <- _.
        exists [], [], d. simpl.
        split; [exact I|]. split; [reflexivity|].
        split; [intros H; contradiction|].
        split; [exact Hs|]. split; [lia|].
        left. split; [lia|]. exists g. auto.
      * injection Hrun as <- _.
        exists [], [], d. simpl.
        split; [exact I|]. split; [reflexivity|].
        split; [intros H; contradiction|].
        split; [exact Hs|]. split; [lia|].
        right. split; [lia|reflexivity].
Qed.

Lemma point_eta (p q : Point) : X p = X q -> Y p = Y q -> p = q.
Proof. destruct p, q. simpl. intros -> ->. reflexivity. Qed.

(** X13.  In the state [Main] calls it in, on a network with unique object
    ids, the trace returns the coordinate of a point exactly when the site
    has one segment within the tolerance and the chain of same-order
    segments below it leads, within the turns the loop is given, to a
    segment of higher order, the loop could read a length off every segment
    of the chain (none is NULL, and the table has the field Shape_Length if
    the chain has a segment), the last segment of the chain has a geometry,
    and the point is the first point of that geometry.  So every coordinate
    that reaches the output is such a point.  ([fields] and [sel] name the
    fields and the selection of the stream layer.) *)
Theorem X13_a_returned_coordinate_is_a_pour_point
    (fuel : nat) (site_lyr stream_lyr : string) (tolerance : Tol)
    (site : Site) (fields : list string) (streams sel : list Segment)
    (w : World) (p : Point) :
  ready w site_lyr stream_lyr site streams ->
  layers w !! stream_lyr = Some (StreamLayer fields streams sel) ->
  List.NoDup (map OBJECTID streams) ->
  (fst (FindDownstreamPoint fuel site_lyr stream_lyr tolerance w)
   = Ok (PyXY (X p) (Y p))
   <-> pours_at fields streams tolerance fuel site p).
Proof.
  intros Hr Hl Hnd.
  assert (Hv : validated fields).
  { destruct (ready_stream_layer _ _ _ _ _ Hr) as (fields' & sel' & Hl' & Hv).
    rewrite Hl in Hl'. injection Hl' as <- _. exact Hv. }
  split.
  - intros Hrun.
    destruct (Nat.eq_dec (length (nearest streams site tolerance)) 1) as [e|ne].
    2:{ rewrite (find_unresolved _ _ _ _ _ _ _ _ _ Hr Hl ne) in Hrun.
        discriminate Hrun. }
    destruct (length_one _ e) as [s0 Hn].
    rewrite (find_resolved _ _ _ _ _ _ _ _ _ _ Hr Hl Hv Hn) in Hrun.
    destruct (bind _ _ _) as [r w'] eqn:Hb in Hrun. simpl in Hrun. subst r.
    destruct (swim_returns_why stream_lyr (StrahlerOr s0) fields streams fuel
                Hnd Hv s0 [OBJECTID s0] Fzero _ w' [s0] _
                (stream_layer_at_loop_entry _ _ _ _ _ (proj1 Hr))
                (nearest_In _ _ _ _ Hn) eq_refl Hb)
      as (path & lens & b & Hch & Hlens & Hlf & Hs & Hlen
          & [[Hlt (g & Hg & Hxy)]|[_ Hxy]]);
      [|discriminate Hxy].
    injection Hxy as Hx Hy.
    exists s0, b, path, lens, g. repeat split; try assumption.
    apply point_eta; assumption.
  - intros (s0 & b & path & lens & g & Hn & Hch & Hlens & Hlf & Hs & Hlt & Hlen
            & Hg & ->).
    destruct (trace_to_boundary _ _ _ _ _ _ _ _ lens g _ _ Hr Hnd Hn Hch Hs Hlt Hlen)
      as (w' & Hfind & _); [|exact Hg|rewrite Hfind; reflexivity].
    split; [exact Hlens|]. intros Hp. exists fields, streams, sel. auto.
Qed.

(** X14.  In the same state, the trace returns [False] exactly when the
    number of segments within the tolerance of the site is not one, or the
    chain of same-order segments below the one segment leads, within the
    turns the loop is given, to a segment of lower order, and the loop could
    read a length off every segment of the chain. *)
Theorem X14_False_means_unresolved_or_lower_order
    (fuel : nat) (site_lyr stream_lyr : string) (tolerance : Tol)
    (site : Site) (fields : list string) (streams sel : list Segment)
    (w : World) :
  ready w site_lyr stream_lyr site streams ->
  layers w !! stream_lyr = Some (StreamLayer fields streams sel) ->
  List.NoDup (map OBJECTID streams) ->
  (fst (FindDownstreamPoint fuel site_lyr stream_lyr tolerance w) = Ok PyFalse
   <->
   (length (nearest streams site tolerance) <> 1 \/
    exists (s0 b : Segment) (path : list Segment) (lens : list F),
      nearest streams site tolerance = [s0] /\
      same_order_chain streams (StrahlerOr s0) s0 path /\
      map Shape_Length path = map Some lens /\
      (path <> [] -> has_field "Shape_Length" fields = true) /\
      successor streams (last_visited s0 path) = Some b /\
      (StrahlerOr b < StrahlerOr s0)%Z /\
      length path < fuel)).
Proof.
  intros Hr Hl Hnd.
  assert (Hv : validated fields).
  { destruct (ready_stream_layer _ _ _ _ _ Hr) as (fields' & sel' & Hl' & Hv).
    rewrite Hl in Hl'. injection Hl' as <- _. exact Hv. }
  split.
  - intros Hrun.
    destruct (Nat.eq_dec (length (nearest streams site tolerance)) 1) as [e|ne];
      [|left; exact ne].
    right. destruct (length_one _ e) as [s0 Hn].
    rewrite (find_resolved _ _ _ _ _ _ _ _ _ _ Hr Hl Hv Hn) in Hrun.
    destruct (bind _ _ _) as [r w'] eqn:Hb in Hrun. simpl in Hrun. subst r.
    destruct (swim_returns_why stream_lyr (StrahlerOr s0) fields streams fuel
                Hnd Hv s0 [OBJECTID s0] Fzero _ w' [s0] _
                (stream_layer_at_loop_entry _ _ _ _ _ (proj1 Hr))
                (nearest_In _ _ _ _ Hn) eq_refl Hb)
      as (path & lens & b & Hch & Hlens & Hlf & Hs & Hlen
          & [[_ (g & _ & Hxy)]|[Hlt _]]);
      [discriminate Hxy|].
    exists s0, b, path, lens. auto 10.
  - intros [ne|(s0 & b & path & lens & Hn & Hch & Hlens & Hlf & Hs & Hlt & Hlen)].
    + rewrite (find_unresolved _ _ _ _ _ _ _ _ _ Hr Hl ne). reflexivity.
    + destruct (trace_to_inversion _ _ _ _ _ _ _ _ lens _ _ Hr Hn Hch Hs Hlt Hlen)
        as (w' & Hfind & _); [|rewrite Hfind; reflexivity].
      split; [exact Hlens|]. intros Hp. exists fields, streams, sel. auto.
Qed.

(** ** A run on a table without the field Shape_Length *)

(** X18.  The field check asks for OBJECTID, StrahlerOr, FROM_NODE and
    TO_NODE, and a stream feature class with those four and without
    Shape_Length passes it.  If the first site then has one segment within
    the tolerance and that segment has a successor of the same order, [Main]
    creates the output feature class and ends at that site with the
    [KeyError] of [downstream['Shape_Length']]: the output stays empty and
    no other site is looked at. *)
Theorem X18_field_check_lets_a_table_without_Shape_Length_through
    (fuel : nat) (site : Site) (more : list Site) (streams : StreamFC)
    (tolerance : Tol) (s0 d : Segment) (w : World) :
  (forall f, In f req_fields -> In f (fc_fields streams)) ->
  has_field "Shape_Length" (fc_fields streams) = false ->
  List.filter (fun x => (site_OBJECTID x =? site_OBJECTID site)%Z) (site :: more)
  = [site] ->
  name_from (rng w) (rng_pos w + 7) 7 <> name_from (rng w) (rng_pos w) 7 ->
  nearest (fc_rows streams) site tolerance = [s0] ->
  successor (fc_rows streams) s0 = Some d ->
  StrahlerOr d = StrahlerOr s0 ->
  0 < fuel ->
  exists w' : World,
    Main fuel (site :: more) streams tolerance w =
    (Raise (KeyError "Shape_Length"), w') /\
    out_fc w' = Some [].
Proof.
  intros Hf Hnol Hsel Hav Hn Hs Ho Hfuel. apply issubset_true in Hf.
  rewrite (Main_fields_present _ _ _ _ _ Hf).
  destruct (at_iteration_fields (site :: more) streams w)
    as (Hout & Hl & _ & Hrng & Hpos).
  set (wi := at_iteration (site :: more) streams w) in *.
  set (st := name_from (rng w) (rng_pos w) 7) in *.
  assert (Hne : name_from (rng wi) (rng_pos wi) 7 <> st).
  { rewrite Hrng, Hpos. exact Hav. }
  pose proof (ready_at_trace_call st _ _ _ (site_OBJECTID site) site wi Hl Hf Hne
                (name_from_not_start _ _)) as Hr.
  assert (Hl' : layers (at_trace_call (site_OBJECTID site) site wi) !! st =
                Some (StreamLayer (fc_fields streams) (fc_rows streams)
                        (fc_rows streams))).
  { unfold at_trace_call. simpl. rewrite lookup_insert_ne by exact Hne. exact Hl. }
  destruct (proj1 (trace_to_next_hop _ st tolerance site _ _ _ s0 d [] []
                     _ fuel Hr Hl' Hn I
                     (conj eq_refl (fun H => False_ind _ (H eq_refl)))
                     Hs Ho Hfuel) Hnol)
    as (w1 & Hfind & _ & Ho1 & _).
  exists w1. split.
  - simpl map. simpl for_sites.
    apply bind_Raise. apply bind_Raise.
    rewrite (site_body_calls_trace _ _ _ _ _ _ _ Hsel).
    apply bind_Raise. exact Hfind.
  - rewrite Ho1.
    destruct (out_fc_at_trace_call (site_OBJECTID site) site wi) as (Ho0 & _).
    rewrite Ho0. exact Hout.
Qed.

End Further.

(** * The further properties on concrete networks *)

Section FurtherRuns.
Import Examples.
#[local] Existing Instance ZFloat.
#[local] Existing Instance ZSpatial.

Lemma X1_witness_site_A :
  String.length (replace_spaces "Site A") = 6 /\
  ~ In " "%char (chars (replace_spaces "Site A")) /\
  (~ In " "%char (chars "Site_A") -> replace_spaces "Site_A" = "Site_A"%string) /\
  replace_spaces (replace_spaces "Site A") = "Site_A"%string.
Proof.
  destruct (X1_point_name_has_no_space "Site A") as (a & b & _ & d).
  destruct (X1_point_name_has_no_space "Site_A") as (_ & _ & c & _).
  repeat split; assumption.
Defined.

Lemma X3_witness_whole_layer :
  exists d : Dict,
    DictionaryOfLayerFeatures "STREAMS" (called chain4 site_A) =
      (Ok d, called chain4 site_A) /\
    d = DictSegment all_fields (seg 4 3 4 5 5)%Z.
Proof.
  destruct (X3_dictionary_keeps_the_last_row (FL := ZFloat) "STREAMS" all_fields
              chain4 chain4 (called chain4 site_A) eq_refl)
    as (d & Hrun & _ & Hlast & _).
  exists d. split; [exact Hrun|].
  apply (Hlast [seg 1 2 1 2 10; seg 2 2 2 3 20; seg 3 2 3 4 30]%Z). reflexivity.
Defined.

Lemma X5_witness_chain4 :
  exists sel' : list Segment,
    layers (snd (FindDownstreamPoint 5 "SITELYR" "STREAMS" 1%Z
                   (called chain4 site_A))) !! "STREAMS"%string
    = Some (StreamLayer all_fields chain4 sel').
Proof.
  apply (X5_stream_layer_keeps_its_rows (SP := ZSpatial) 5 "SITELYR" "STREAMS" 1%Z
           all_fields chain4 chain4 (called chain4 site_A)).
  - discriminate.
  - reflexivity.
Defined.

Lemma X6_witness_chain4 :
  FindDownstreamPoint 3 "SITELYR" "STREAMS" 1%Z
    (reselect "STREAMS" all_fields chain4 [] (called chain4 site_A)) =
  FindDownstreamPoint 3 "SITELYR" "STREAMS" 1%Z (called chain4 site_A).
Proof.
  apply (X6_trace_ignores_the_selection_left_behind (SP := ZSpatial)
           3 "SITELYR" "STREAMS" 1%Z site_A all_fields chain4 chain4 []
           (called chain4 site_A)).
  - apply called_ready.
  - reflexivity.
Defined.

Lemma X7_witness_outlet :
  (KeyError "StrahlerOr" = ExecuteError \/
   (exists k, KeyError "StrahlerOr" = KeyError k) \/
   KeyError "StrahlerOr" = TypeError \/ KeyError "StrahlerOr" = AttributeError) /\
  KeyError "StrahlerOr" <> IndexError /\
  KeyError "StrahlerOr" <> UnboundLocalError.
Proof.
  apply (X7_trace_never_raises_IndexError_or_UnboundLocalError (SP := ZSpatial)
           5 "SITELYR" "STREAMS" 1%Z (called outlet site_A)).
  vm_compute. reflexivity.
Defined.



Lemma X9_witness_two_sites :
  (exists extra : list Row,
     out_fc (snd (for_sites 5 [site_A; site_far] "STREAMS" 1%Z [1; 2]%Z
                    (called chain4 site_A))) = Some ([] ++ extra) /\
     length extra <= 2) /\
  (exists written : list Row,
     out_fc (snd (Main 5 [site_B; site_A] (fc chain4) 1%Z (fresh counting)))
       = Some written /\
     length written <= 2).
Proof.
  split.
  - apply (proj1 (X9_rows_are_only_appended (SP := ZSpatial) 5 [site_A; site_far]
                    (fc chain4) "STREAMS" 1%Z [1; 2]%Z (called chain4 site_A) [])).
    reflexivity.
  - apply (proj2 (X9_rows_are_only_appended (SP := ZSpatial) 5 [site_B; site_A]
                    (fc chain4) "STREAMS" 1%Z [] (fresh counting) [])).
    intros f Hf. simpl in Hf. simpl. intuition (subst; auto).
Defined.

Lemma X10_witness_two_sites :
  exists rows : list Row,
    out_fc (snd (Main 5 [site_A; site_far] (fc chain4) 1%Z (fresh counting)))
      = Some rows /\
    length rows = 2 /\
    map snd rows = ["Site_A"; "Far_away"]%string.
Proof.
  apply (X10_output_has_one_labelled_row_per_site (SP := ZSpatial)
           5 [site_A; site_far] (fc chain4) 1%Z (fresh counting)).
  vm_compute. reflexivity.
Defined.

Lemma sites_A_C_ids_unique : List.NoDup (map site_OBJECTID [site_A; site_C]).
Proof.
  repeat (constructor; [simpl; intuition discriminate|]). constructor.
Qed.

Lemma counting_avoids_twice : site_names_avoid_stream_name (fresh counting) 2.
Proof.
  intros k Hk. assert (k = 1 \/ k = 2) as [-> | ->] by lia;
    vm_compute; discriminate.
Qed.

Lemma site_A_pours : pours_at all_fields chain4 1%Z 5 site_A (pt 300 0).
Proof.
  exists (seg 1 2 1 2 10)%Z, (seg 4 3 4 5 5)%Z,
    [seg 2 2 2 3 20; seg 3 2 3 4 30]%Z, [20; 30]%Z,
    {| firstPoint := pt 300 0; lastPoint := pt 400 0 |}.
  split; [vm_compute; reflexivity|].
  split; [exact chain4_path|].
  repeat split; simpl; lia.
Qed.

Lemma site_C_pours : pours_at all_fields chain4 1%Z 5 site_C (pt 300 0).
Proof.
  exists (seg 2 2 2 3 20)%Z, (seg 4 3 4 5 5)%Z, [seg 3 2 3 4 30]%Z, [30]%Z,
    {| firstPoint := pt 300 0; lastPoint := pt 400 0 |}.
  split; [vm_compute; reflexivity|].
  split; [simpl; repeat split; reflexivity|].
  repeat split; simpl; lia.
Qed.

Lemma X11_witness_two_sites :
  exists w' : World,
    Main 5 [site_A; site_C] (fc chain4) 1%Z (fresh counting) = (Ok RetOutput, w') /\
    out_fc w' =
      Some [(PyXY 300 0, "Site_A"%string); (PyXY 300 0, "Site_C"%string)]%Z.
Proof.
  apply (X11_run_writes_the_pour_point_of_every_site (SP := ZSpatial)
           5 [site_A; site_C] (fc chain4) 1%Z [pt 300 0; pt 300 0]
           (fresh counting)).
  - intros f Hf. simpl in Hf. simpl. intuition (subst; auto).
  - exact chain4_ids_unique.
  - exact sites_A_C_ids_unique.
  - exact counting_avoids_twice.
  - constructor; [exact site_A_pours|].
    constructor; [exact site_C_pours|constructor].
Defined.

Lemma X12_witness_twins :
  exists w' : World,
    for_sites 5 [site_A; site_A_twin] "STREAMS" 1%Z [1; 1]%Z
      (called chain4 site_A) = (Ok (Some RetFalse), w') /\
    after_sites (Some RetFalse) w' = (Ok RetFalse, w') /\
    out_fc w' = Some [] /\
    messages w' =
      [MsgSelectingSite; MsgSelectionQuery 1; ErrSiteLayerFailed "Site_A"] /\
    layers w' !! "ABCDEFG"%string =
      Some (SiteLayer [site_A; site_A_twin] [site_A; site_A_twin]).
Proof.
  apply (X12_shared_site_id_stops_the_loop (SP := ZSpatial)
           5 [site_A; site_A_twin] "STREAMS" 1%Z 1%Z [1%Z]
           site_A site_A_twin [] (called chain4 site_A)).
  reflexivity.
Defined.

Lemma X13_witness_chain4 :
  fst (FindDownstreamPoint 5 "SITELYR" "STREAMS" 1%Z (called chain4 site_A))
  = Ok (PyXY 300 0)%Z.
Proof.
  apply (proj2 (X13_a_returned_coordinate_is_a_pour_point (SP := ZSpatial)
                  5 "SITELYR" "STREAMS" 1%Z site_A all_fields chain4 chain4
                  (called chain4 site_A) (pt 300 0)
                  (called_ready chain4 site_A) eq_refl chain4_ids_unique)).
  exact site_A_pours.
Defined.

Lemma inverted_ids_unique : List.NoDup (map OBJECTID inverted).
Proof.
  repeat (constructor; [simpl; intuition discriminate|]). constructor.
Qed.

Lemma X14_witness_inverted :
  fst (FindDownstreamPoint 5 "SITELYR" "STREAMS" 1%Z (called inverted site_A))
  = Ok PyFalse.
Proof.
  apply (proj2 (X14_False_means_unresolved_or_lower_order (SP := ZSpatial)
                  5 "SITELYR" "STREAMS" 1%Z site_A all_fields inverted inverted
                  (called inverted site_A)
                  (called_ready inverted site_A) eq_refl inverted_ids_unique)).
  right. exists (seg 1 2 1 2 10)%Z, (seg 2 1 2 3 20)%Z, [], [].
  split; [vm_compute; reflexivity|].
  split; [exact I|].
  repeat split; simpl; lia.
Defined.

Lemma called_without_length_ready (rows : list Segment) (s : Site) :
  ready (called_without_length rows s) "SITELYR" "STREAMS" s rows.
Proof.
  split; [discriminate|].
  split; [exists [s]; reflexivity|].
  exists checked_fields, rows. split; reflexivity.
Qed.

(** [chain4] in a table without Shape_Length: the trace from segment 1 stops
    at the first turn of the loop. *)
Lemma X15_witness_chain4_without_length :
  exists w' : World,
    FindDownstreamPoint 5 "SITELYR" "STREAMS" 1%Z
      (called_without_length chain4 site_A) =
    (Raise (KeyError "Shape_Length"), w') /\
    messages w' =
    [MsgFindingNearest; MsgStreamSelected 1; MsgInitialOrder 2; MsgSwimming].
Proof.
  apply (X15_table_without_Shape_Length_stops_the_trace (SP := ZSpatial)
           "SITELYR" "STREAMS" 1%Z site_A checked_fields chain4 chain4
           (seg 1 2 1 2 10)%Z (seg 2 2 2 3 20)%Z
           (called_without_length chain4 site_A) 5
           (called_without_length_ready chain4 site_A)).
  - reflexivity.
  - reflexivity.
  - vm_compute. reflexivity.
  - reflexivity.
  - reflexivity.
  - lia.
Defined.

(** Orders [2,2,3] with a NULL length on segment 2. *)
Lemma X16_witness_chain3_null_length :
  exists w' : World,
    FindDownstreamPoint 5 "SITELYR" "STREAMS" 1%Z
      (called chain3_null_length site_A) = (Raise TypeError, w') /\
    messages w' =
    [MsgFindingNearest; MsgStreamSelected 1; MsgInitialOrder 2; MsgSwimming].
Proof.
  apply (X16_NULL_length_stops_the_trace (SP := ZSpatial)
           "SITELYR" "STREAMS" 1%Z site_A chain3_null_length
           (seg 1 2 1 2 10)%Z (null_length (seg 2 2 2 3 20)%Z) [] []
           (called chain3_null_length site_A) 5
           (called_ready chain3_null_length site_A)
           (called_length_field chain3_null_length site_A)).
  - vm_compute. reflexivity.
  - exact I.
  - apply called_lengths_read. reflexivity.
  - reflexivity.
  - reflexivity.
  - reflexivity.
  - simpl. lia.
Defined.

Lemma chain3_null_geometry_ids_unique :
  List.NoDup (map OBJECTID chain3_null_geometry).
Proof.
  repeat (constructor; [simpl; intuition discriminate|]). constructor.
Qed.

(** Orders [2,2,3] with a NULL geometry on segment 2, the last segment of
    order 2. *)
Lemma X17_witness_chain3_null_geometry :
  exists w' : World,
    FindDownstreamPoint 5 "SITELYR" "STREAMS" 1%Z
      (called chain3_null_geometry site_A) = (Raise AttributeError, w') /\
    messages w' =
    [MsgFindingNearest; MsgStreamSelected 1; MsgInitialOrder 2; MsgSwimming;
     MsgKeepSwimming; MsgFinalReached; MsgBacktracking; MsgStrahlerOrder 3;
     MsgTotalDistance 20%Z; MsgGettingCoords].
Proof.
  apply (X17_NULL_geometry_stops_the_trace (SP := ZSpatial)
           "SITELYR" "STREAMS" 1%Z site_A chain3_null_geometry
           (seg 1 2 1 2 10)%Z (seg 3 3 3 4 5)%Z
           [null_geometry (seg 2 2 2 3 20)%Z] [20%Z]
           (called chain3_null_geometry site_A) 5
           (called_ready chain3_null_geometry site_A)
           chain3_null_geometry_ids_unique).
  - vm_compute. reflexivity.
  - simpl. repeat split; reflexivity.
  - apply called_lengths_read. reflexivity.
  - reflexivity.
  - simpl. lia.
  - reflexivity.
  - simpl. lia.
Defined.

(** [chain4] in a feature class with the four required fields and no
    Shape_Length: the run passes the field check and ends at the first
    site. *)
Lemma X18_witness_chain4_without_length :
  exists w' : World,
    Main 5 [site_A; site_C] (fc_without_length chain4) 1%Z (fresh counting) =
    (Raise (KeyError "Shape_Length"), w') /\
    out_fc w' = Some [].
Proof.
  apply (X18_field_check_lets_a_table_without_Shape_Length_through
           (SP := ZSpatial) 5 site_A [site_C] (fc_without_length chain4) 1%Z
           (seg 1 2 1 2 10)%Z (seg 2 2 2 3 20)%Z (fresh counting)).
  - intros f Hf. simpl in Hf. simpl. intuition (subst; auto).
  - reflexivity.
  - reflexivity.
  - vm_compute. discriminate.
  - vm_compute. reflexivity.
  - reflexivity.
  - reflexivity.
  - lia.
Defined.

End FurtherRuns.
